(** * Blackjack round engine: a shallow embedding of the Streamlit programs

    The repository holds three variants of one Streamlit script.  Two of
    them are embedded here:

    - [BJC]     : [src/BJC.py], the top-level script (tuple cards, one
                  52-card deck rebuilt for each round, no blackjack
                  payout, no double down);
    - [BJC_v11] : [src/Old/v1.1 (broken)/BJC.py] (classes [Card], [Deck],
                  [Hand]; a four-deck shoe with a reshuffle point; blackjack
                  flags; double down).

    The third variant, [src/Old/V1 (functional, bad ascii)/BJC.py], has the
    hand valuation and the alternating deal of v1.1 and a single deck; it
    is not embedded.

    Modelling conventions.
    - Python [int] is [Z]; the Ace counter of [calculate_hand_value], which
      only counts up from 0 and down to 0, is [nat].
    - Money and bets are Python floats in the source.  The sessions carry
      them as exact rationals [Q]: comparisons and single updates of a
      balance read the same in both arithmetics.  Where a property depends
      on rounding, the settlement blocks are given a second time with the
      amounts as binary64 numbers ([determine_winner_binary64],
      [determine_outcome_binary64]), the kernel's primitive floats.
    - [random.shuffle] is modelled by a [Shuffler]: a generator state and a
      function that returns some permutation of its argument.
    - A Python list used as a stack ([pop()] removes the LAST element) is a
      [list] whose last element is the top.
    - The f-string messages are abstracted to the tag of the branch that
      wrote them. *)

From Stdlib Require Import List ZArith QArith Qround Lia Lqa Bool Permutation.
From Stdlib Require Import Qminmax.
From Stdlib Require Strings.String Strings.Ascii.
From Stdlib Require Floats.PrimFloat.
Import ListNotations.

Set Warnings "-inexact-float".

Local Open Scope Z_scope.

(** ** Cards *)

Inductive Suit : Type := Hearts | Diamonds | Clubs | Spades.

Inductive Rank : Type :=
| R2 | R3 | R4 | R5 | R6 | R7 | R8 | R9 | R10 | RJ | RQ | RK | RA.

(** [suits] / [SUITS] and [ranks] / [RANKS], in source order. *)
Definition suits : list Suit := [Hearts; Diamonds; Clubs; Spades].
Definition ranks : list Rank :=
  [R2; R3; R4; R5; R6; R7; R8; R9; R10; RJ; RQ; RK; RA].

(** A card is the tuple [(suit, rank)] of [src/BJC.py]; the [Card] object of
    v1.1 carries the same two fields plus [value], which [__init__] derives
    from the rank ([card_value] below). *)
Record Card : Type := mkCard { suit : Suit; rank : Rank }.

(** [int(rank)] on the numeric rank strings.  The three face ranks and the
    Ace never reach [int] in the source; they are mapped to 0 here. *)
Definition int_of_rank (r : Rank) : Z :=
  match r with
  | R2 => 2 | R3 => 3 | R4 => 4 | R5 => 5 | R6 => 6 | R7 => 7
  | R8 => 8 | R9 => 9 | R10 => 10
  | RJ | RQ | RK | RA => 0
  end.

Definition is_ace (r : Rank) : bool :=
  match r with RA => true | _ => false end.

(** [Card.__init__] of v1.1: the [value] attribute. *)
Definition card_value (c : Card) : Z :=
  match rank c with
  | RJ | RQ | RK => 10
  | RA => 11
  | r => int_of_rank r
  end.

(** The [while value > 21 and aces: value -= 10; aces -= 1] loop shared by
    all variants.  It stops as soon as either test fails; the recursion is
    on the Ace counter, which the loop body decrements. *)
Fixpoint soften (value : Z) (aces : nat) : Z :=
  match aces with
  | O => value
  | S aces' => if 21 <? value then soften (value - 10) aces' else value
  end.

(** ** Random shuffling *)

(** [random.shuffle(l)] permutes [l] in place using the global generator.
    The generator state is [rng]; all that is assumed of a shuffle is that
    it returns a permutation of its input. *)
Record Shuffler : Type := mkShuffler {
  rng : Type;
  shuffle : rng -> list Card -> list Card * rng;
  shuffle_perm : forall g l, Permutation (fst (shuffle g l)) l
}.

(** The comprehension [for suit in suits for rank in ranks]: the 52 cards of
    one deck, suit by suit. *)
Definition one_deck : list Card :=
  flat_map (fun s => map (mkCard s) ranks) suits.

(** [list.pop()]: remove and return the last element; [None] stands for the
    [IndexError] raised on an empty list. *)
Fixpoint pop (l : list Card) : option (Card * list Card) :=
  match l with
  | [] => None
  | [c] => Some (c, [])
  | x :: rest =>
      match pop rest with
      | Some (c, rest') => Some (c, x :: rest')
      | None => None
      end
  end.

(** ** Quantities of the specification's wording, for comparison *)

(** Base value of a card: face value, 10 for J/Q/K, 11 for an Ace. *)
Definition base_value (c : Card) : Z :=
  match rank c with
  | R2 => 2 | R3 => 3 | R4 => 4 | R5 => 5 | R6 => 6 | R7 => 7 | R8 => 8
  | R9 => 9 | R10 => 10 | RJ => 10 | RQ => 10 | RK => 10 | RA => 11
  end.

Definition base_total (hand : list Card) : Z :=
  fold_right (fun c acc => base_value c + acc) 0 hand.

Definition ace_count (hand : list Card) : nat :=
  length (filter (fun c => is_ace (rank c)) hand).

(** Sum of the cards that are not Aces. *)
Definition non_ace_total (hand : list Card) : Z :=
  base_total (filter (fun c => negb (is_ace (rank c))) hand).

(** Hard total: every Ace counted as 1. *)
Definition hard_total (hand : list Card) : Z :=
  non_ace_total hand + Z.of_nat (ace_count hand).

(** ** The top-level script, [src/BJC.py] *)

Module BJC.

(** The [for card in hand] loop of [calculate_hand_value], started from the
    running [value] and [aces]. *)
Fixpoint count_cards (hand : list Card) (value : Z) (aces : nat) : Z * nat :=
  match hand with
  | [] => (value, aces)
  | card :: rest =>
      match rank card with
      | RJ | RQ | RK => count_cards rest (value + 10) aces
      | RA => count_cards rest (value + 11) (S aces)
      | r => count_cards rest (value + int_of_rank r) aces
      end
  end.

Definition calculate_hand_value (hand : list Card) : Z :=
  let '(value, aces) := count_cards hand 0 O in
  soften value aces.

Inductive Phase : Type :=
| start | betting | player_turn | dealer_turn | result | quit.

(** [st.session_state.message], one tag per string literal. *)
Inductive Message : Type :=
| NoMessage
| YouBustedYouLose
| DealerBustedYouWin
| YouWin
| YouLose
| Push.

(** The [st.error] shown by the bet handler, if any. *)
Inductive Feedback : Type :=
| Accepted
| BetExceedsBalance.

(** How a piece of the script ends: normally, with the [IndexError] of a
    [pop()] on an empty deck, or (for the model of a loop) with the bound
    on the number of passes reached. *)
Inductive Run (A : Type) : Type :=
| Returned (a : A)
| IndexError
| Unfinished.

Arguments Returned {A} a.
Arguments IndexError {A}.
Arguments Unfinished {A}.

Section Engine.

Context {R : Shuffler}.

Record Session : Type := mkSession {
  game_phase : Phase;
  player_money : Q;
  dealer_money : Q;
  deck : list Card;
  player_hand : list Card;
  dealer_hand : list Card;
  bet : Q;
  message : Message;
  rand : rng R
}.

(** [initialize_session_state] on an empty session state. *)
Definition initialize_session_state (g : rng R) : Session :=
  {| game_phase := start;
     player_money := 500%Q; dealer_money := 5000000%Q;
     deck := []; player_hand := []; dealer_hand := [];
     bet := 0%Q; message := NoMessage; rand := g |}.

(** The "Reset Game" button of the sidebar. *)
Definition reset_game (s : Session) : Session :=
  initialize_session_state (rand s).

Definition set_game_phase (p : Phase) (s : Session) : Session :=
  {| game_phase := p;
     player_money := player_money s; dealer_money := dealer_money s;
     deck := deck s;
     player_hand := player_hand s; dealer_hand := dealer_hand s;
     bet := bet s; message := message s; rand := rand s |}.

(** The "Quit" button of the sidebar. *)
Definition quit_game (s : Session) : Session := set_game_phase quit s.

(** The "Play" button of the [start] phase. *)
Definition play (s : Session) : Session :=
  let '(d, g) := shuffle R (rand s) one_deck in
  {| game_phase := betting;
     player_money := player_money s; dealer_money := dealer_money s;
     deck := d;
     player_hand := player_hand s; dealer_hand := dealer_hand s;
     bet := bet s; message := message s; rand := g |}.

(** The "Place Bet" button, with the value [bet] of the number input.
    The list displays are evaluated left to right, so the first card
    popped is the first element of [player_hand].  [None] is the
    [IndexError] of a [pop()] on an empty deck, which ends the run; the
    assignments made before it are not modelled. *)
Definition place_bet (bet_amount : Q) (s : Session)
  : option (Session * Feedback) :=
  if negb (Qle_bool bet_amount (player_money s)) then
    Some (s, BetExceedsBalance)
  else
    match pop (deck s) with
    | None => None
    | Some (c1, d1) =>
    match pop d1 with
    | None => None
    | Some (c2, d2) =>
    match pop d2 with
    | None => None
    | Some (c3, d3) =>
    match pop d3 with
    | None => None
    | Some (c4, d4) =>
        Some
          ({| game_phase := player_turn;
              player_money := player_money s;
              dealer_money := dealer_money s;
              deck := d4;
              player_hand := [c1; c2]; dealer_hand := [c3; c4];
              bet := bet_amount; message := message s; rand := rand s |},
           Accepted)
    end end end end.

(** The "Hit" button. *)
Definition hit (s : Session) : option Session :=
  match pop (deck s) with
  | None => None
  | Some (c, d) =>
      let ph := player_hand s ++ [c] in
      Some
        {| game_phase :=
             if 21 <? calculate_hand_value ph then result
             else game_phase s;
           player_money := player_money s; dealer_money := dealer_money s;
           deck := d;
           player_hand := ph; dealer_hand := dealer_hand s;
           bet := bet s; message := message s; rand := rand s |}
  end.

(** The "Stand" button. *)
Definition stand (s : Session) : Session := set_game_phase dealer_turn s.

(** [while calculate_hand_value(dealer_hand) < 17:
       dealer_hand.append(deck.pop())], at most [fuel] passes. *)
Fixpoint dealer_loop (fuel : nat) (h d : list Card)
  : Run (list Card * list Card) :=
  if calculate_hand_value h <? 17 then
    match fuel with
    | O => Unfinished
    | S fuel' =>
        match pop d with
        | None => IndexError
        | Some (c, d') => dealer_loop fuel' (h ++ [c]) d'
        end
    end
  else Returned (h, d).

(** The [dealer_turn] phase. *)
Definition dealer_turn_phase (fuel : nat) (s : Session) : Run Session :=
  match dealer_loop fuel (dealer_hand s) (deck s) with
  | Returned (dh, d) =>
      Returned
        {| game_phase := result;
           player_money := player_money s; dealer_money := dealer_money s;
           deck := d;
           player_hand := player_hand s; dealer_hand := dh;
           bet := bet s; message := message s; rand := rand s |}
  | IndexError => IndexError
  | Unfinished => Unfinished
  end.

(** The "Determine winner" part of the [result] phase: the message tag and
    the new balances [(player_money, dealer_money)]. *)
Definition determine_winner (s : Session) : Message * Q * Q :=
  let player_value := calculate_hand_value (player_hand s) in
  let dealer_value := calculate_hand_value (dealer_hand s) in
  if 21 <? player_value then
    (YouBustedYouLose, (player_money s - bet s)%Q, (dealer_money s + bet s)%Q)
  else if 21 <? dealer_value then
    (DealerBustedYouWin, (player_money s + bet s)%Q,
     (dealer_money s - bet s)%Q)
  else if dealer_value <? player_value then
    (YouWin, (player_money s + bet s)%Q, (dealer_money s - bet s)%Q)
  else if player_value <? dealer_value then
    (YouLose, (player_money s - bet s)%Q, (dealer_money s + bet s)%Q)
  else
    (Push, player_money s, dealer_money s).

(** One run of the script in the [result] phase.  [play_again] tells whether
    the run was started by the "Play Again" button; the button is only
    reached when neither balance is exhausted ([st.stop()] otherwise). *)
Definition result_phase (play_again : bool) (s : Session) : Session :=
  let '(msg, pm, dm) := determine_winner s in
  if Qle_bool pm 0%Q || Qle_bool dm 0%Q || negb play_again then
    {| game_phase := game_phase s;
       player_money := pm; dealer_money := dm;
       deck := deck s;
       player_hand := player_hand s; dealer_hand := dealer_hand s;
       bet := bet s; message := msg; rand := rand s |}
  else
    let '(d, g) := shuffle R (rand s) one_deck in
    {| game_phase := betting;
       player_money := pm; dealer_money := dm;
       deck := d;
       player_hand := []; dealer_hand := [];
       bet := 0%Q; message := msg; rand := g |}.

(** One transition of the session: a sidebar button, a button of the
    current phase, or the automatic run of the [dealer_turn] and [result]
    phases. *)
Inductive step : Session -> Session -> Prop :=
| step_reset s : step s (reset_game s)
| step_quit s : step s (quit_game s)
| step_play s : game_phase s = start -> step s (play s)
| step_place_bet s b s' f :
    game_phase s = betting -> place_bet b s = Some (s', f) -> step s s'
| step_hit s s' :
    game_phase s = player_turn -> hit s = Some s' -> step s s'
| step_stand s :
    game_phase s = player_turn -> step s (stand s)
| step_dealer_turn s fuel s' :
    game_phase s = dealer_turn -> dealer_turn_phase fuel s = Returned s' ->
    step s s'
| step_result s play_again :
    game_phase s = result -> step s (result_phase play_again s).

Inductive reachable : Session -> Prop :=
| reachable_init g : reachable (initialize_session_state g)
| reachable_step s s' : reachable s -> step s s' -> reachable s'.

End Engine.

Arguments Session R : clear implicits.

(** *** The settlement on binary64 amounts *)

Section Binary64.

Import PrimFloat.
Local Open Scope float_scope.

(** The "Determine winner" block once more, with [player_money],
    [dealer_money] and [bet] as the Python floats they are: [+=] and [-=]
    are the rounded addition and subtraction of binary64. *)
Definition determine_winner_binary64 (player_hand dealer_hand : list Card)
           (player_money dealer_money bet : float)
  : Message * float * float :=
  let player_value := calculate_hand_value player_hand in
  let dealer_value := calculate_hand_value dealer_hand in
  if (21 <? player_value)%Z then
    (YouBustedYouLose, player_money - bet, dealer_money + bet)
  else if (21 <? dealer_value)%Z then
    (DealerBustedYouWin, player_money + bet, dealer_money - bet)
  else if (dealer_value <? player_value)%Z then
    (YouWin, player_money + bet, dealer_money - bet)
  else if (player_value <? dealer_value)%Z then
    (YouLose, player_money - bet, dealer_money + bet)
  else
    (Push, player_money, dealer_money).

End Binary64.

(** *** The text shown for cards and hands *)

Section Text.

Import String.
Local Open Scope string_scope.

(** The strings of the lists [suits] and [ranks]. *)
Definition suit_str (s : Suit) : string :=
  match s with
  | Hearts => "Hearts"
  | Diamonds => "Diamonds"
  | Clubs => "Clubs"
  | Spades => "Spades"
  end.

Definition rank_str (r : Rank) : string :=
  match r with
  | R2 => "2" | R3 => "3" | R4 => "4" | R5 => "5" | R6 => "6" | R7 => "7"
  | R8 => "8" | R9 => "9" | R10 => "10"
  | RJ => "J" | RQ => "Q" | RK => "K" | RA => "A"
  end.

(** [card_to_str]: the f-string [{card[1]} of {card[0]}]. *)
Definition card_to_str (card : Card) : string :=
  rank_str (rank card) ++ " of " ++ suit_str (suit card).

(** [hand_to_str]: the card strings joined by a comma and a space. *)
Definition hand_to_str (hand : list Card) : string :=
  concat ", " (map card_to_str hand).

(** The dealer's hand as the [player_turn] phase shows it:
    [{card_to_str(dealer_hand[0])}, [Hidden]]; [None] is the [IndexError]
    of [dealer_hand[0]] on an empty hand. *)
Definition hidden_dealer_hand (dealer_hand : list Card) : option string :=
  match dealer_hand with
  | [] => None
  | card :: _ => Some (card_to_str card ++ ", [Hidden]")
  end.

End Text.

End BJC.

(** ** Version 1.1, [src/Old/v1.1 (broken)/BJC.py] *)

Module BJC_v11.

(** [Hand]: the list [cards]; [add_card] appends unless the card is [None]. *)
Definition Hand : Type := list Card.

Definition add_card (h : Hand) (card : option Card) : Hand :=
  match card with
  | Some c => h ++ [c]
  | None => h
  end.

(** The [for card in hand.cards] loop: [value += card.value], and
    [aces += 1] on an Ace. *)
Fixpoint count_cards (cards : list Card) (value : Z) (aces : nat) : Z * nat :=
  match cards with
  | [] => (value, aces)
  | card :: rest =>
      count_cards rest (value + card_value card)
                  (if is_ace (rank card) then S aces else aces)
  end.

Definition calculate_hand_value (hand : Hand) : Z :=
  match hand with
  | [] => 0
  | _ =>
      let '(value, aces) := count_cards hand 0 O in
      soften value aces
  end.

(** [NUM_DECKS] and [RESHUFFLE_THRESHOLD] (0.25 is exact in binary). *)
Definition NUM_DECKS : nat := 4.
Definition RESHUFFLE_THRESHOLD : Q := 25 # 100.

Inductive GameState : Type :=
| HOME | BETTING | PLAYER_TURN | DEALER_TURN | SHOWDOWN | GAME_OVER.

(** The round messages of [process_showdown], one tag per f-string; the
    amounts printed inside them and the note appended at game over are left
    out. *)
Inductive Message : Type :=
| NoMessage
| YouBusted
| DealerBusts
| PushBothBlackjack
| BlackjackYouWin
| DealerBlackjackYouLose
| YouWin
| YouLose
| PushTie.

(** The [st.error] shown by a handler, if any, or the exception with which
    the bet's [st.number_input] ends the run: its [min_value] is 0.01, its
    [max_value] is the player's balance and its [value] is [default_bet],
    and Streamlit raises a [StreamlitAPIException] when the balance, and
    with it the maximum, is below the minimum. *)
Inductive Feedback : Type :=
| Accepted
| InvalidBetAmount
| NumberInputException.

(** The cards a [Deck] is built from:
    [[Card(suit, rank) for _ in range(num_decks) for suit in SUITS
      for rank in RANKS]]. *)
Definition fresh_cards (n : nat) : list Card :=
  flat_map (fun _ => one_deck) (seq 0 n).

Record Deck : Type := mkDeck {
  num_decks : nat;
  cards : list Card;
  reshuffle_point : Z
}.

Section Engine.

Context {R : Shuffler}.

(** What the [Deck] methods touch outside the deck: the generator of
    [random] and the session key [reshuffled_message] ([true] for
    the text "Deck reshuffled!", [false] for the empty string). *)
Record Env : Type := mkEnv {
  rand : rng R;
  reshuffled_message : bool
}.

Definition build_and_shuffle (d : Deck) (e : Env) : Deck * Env :=
  let '(cs, g) := shuffle R (rand e) (fresh_cards (num_decks d)) in
  ({| num_decks := num_decks d; cards := cs;
      reshuffle_point := reshuffle_point d |},
   {| rand := g; reshuffled_message := true |}).

(** [Deck.__init__]. *)
Definition new_deck (n : nat) (e : Env) : Deck * Env :=
  build_and_shuffle
    {| num_decks := n; cards := [];
       reshuffle_point :=
         Qfloor (inject_Z (52 * Z.of_nat n) * RESHUFFLE_THRESHOLD) |} e.

Definition needs_reshuffle (d : Deck) : bool :=
  Z.of_nat (length (cards d)) <=? reshuffle_point d.

(** [Deck.deal]: [None] is the [return None] after [st.error]. *)
Definition deal (d : Deck) (e : Env) : option Card * Deck * Env :=
  let '(d1, e1) :=
    if needs_reshuffle d then build_and_shuffle d e else (d, e) in
  match pop (cards d1) with
  | None => (None, d1, e1)
  | Some (c, rest) =>
      (Some c,
       {| num_decks := num_decks d1; cards := rest;
          reshuffle_point := reshuffle_point d1 |},
       e1)
  end.

Record Session : Type := mkSession {
  game_state : GameState;
  player_money : Q;
  dealer_money : Q;
  deck : Deck;
  player_hand : Hand;
  dealer_hand : Hand;
  bet : Q;
  message : Message;
  round_over : bool;
  show_dealer_card : bool;
  player_busted : bool;
  dealer_busted : bool;
  player_blackjack : bool;
  dealer_blackjack : bool;
  env : Env
}.

(** [initialize_game] on an empty session state, the generator being [g]. *)
Definition initialize_game (g : rng R) : Session :=
  let '(d, e) :=
    new_deck NUM_DECKS {| rand := g; reshuffled_message := false |} in
  {| game_state := HOME;
     player_money := 500%Q; dealer_money := 5000000%Q;
     deck := d;
     player_hand := []; dealer_hand := [];
     bet := 0%Q; message := NoMessage;
     round_over := false; show_dealer_card := false;
     player_busted := false; dealer_busted := false;
     player_blackjack := false; dealer_blackjack := false;
     env := {| rand := rand e; reshuffled_message := false |} |}.

(** The "Play Game" button of [display_home_screen]. *)
Definition play_home (s : Session) : Session :=
  let '(d, e) := new_deck NUM_DECKS (env s) in
  {| game_state := BETTING;
     player_money := 500%Q; dealer_money := 5000000%Q;
     deck := d;
     player_hand := player_hand s; dealer_hand := dealer_hand s;
     bet := bet s; message := NoMessage;
     round_over := round_over s; show_dealer_card := show_dealer_card s;
     player_busted := player_busted s; dealer_busted := dealer_busted s;
     player_blackjack := player_blackjack s;
     dealer_blackjack := dealer_blackjack s;
     env := {| rand := rand e; reshuffled_message := false |} |}.

(** The [for _ in range(2)] loop that deals the opening hands, unrolled:
    each pass gives the player a card, then the dealer. *)
Definition deal_initial (d : Deck) (e : Env) : Hand * Hand * Deck * Env :=
  let '(c1, d1, e1) := deal d e in
  let ph1 := add_card [] c1 in
  let '(c2, d2, e2) := deal d1 e1 in
  let dh1 := add_card [] c2 in
  let '(c3, d3, e3) := deal d2 e2 in
  let ph2 := add_card ph1 c3 in
  let '(c4, d4, e4) := deal d3 e3 in
  let dh2 := add_card dh1 c4 in
  (ph2, dh2, d4, e4).

(** "Check for reshuffle *before* dealing": rebuild the shoe if it needs a
    reshuffle, clear the reshuffle message otherwise. *)
Definition reshuffle_before_deal (s : Session) : Deck * Env :=
  if needs_reshuffle (deck s) then build_and_shuffle (deck s) (env s)
  else (deck s, {| rand := rand (env s); reshuffled_message := false |}).

(** The "Place Bet & Deal" button of [display_betting_screen], with the
    value [bet_amount] read from the number input. *)
Definition place_bet (bet_amount : Q) (s : Session) : Session * Feedback :=
  let max_bet := player_money s in
  if Qle_bool (1 # 100) bet_amount && Qle_bool bet_amount max_bet then
    let '(d0, e0) := reshuffle_before_deal s in
    let '(ph, dh, d, e) := deal_initial d0 e0 in
    let player_value := calculate_hand_value ph in
    let dealer_value := calculate_hand_value dh in
    let pbj := player_value =? 21 in
    let dbj := dealer_value =? 21 in
    ({| game_state := if pbj || dbj then DEALER_TURN else PLAYER_TURN;
        player_money := player_money s; dealer_money := dealer_money s;
        deck := d;
        player_hand := ph; dealer_hand := dh;
        bet := bet_amount; message := NoMessage;
        round_over := false; show_dealer_card := false;
        player_busted := false; dealer_busted := false;
        player_blackjack := pbj; dealer_blackjack := dbj;
        env := e |},
     Accepted)
  else (s, InvalidBetAmount).

Definition set_game_state (st : GameState) (s : Session) : Session :=
  {| game_state := st;
     player_money := player_money s; dealer_money := dealer_money s;
     deck := deck s;
     player_hand := player_hand s; dealer_hand := dealer_hand s;
     bet := bet s; message := message s;
     round_over := round_over s; show_dealer_card := show_dealer_card s;
     player_busted := player_busted s; dealer_busted := dealer_busted s;
     player_blackjack := player_blackjack s;
     dealer_blackjack := dealer_blackjack s;
     env := env s |}.

(** [display_betting_screen] as a whole: the guard on an empty bankroll
    comes first and ends the run with [st.rerun()].  Then the number input
    is drawn, with [min_value=0.01] and [max_value=max_bet]: with a balance
    below 0.01 it raises, and the run ends there, before the button, with
    the session as it was.  Otherwise the button, if clicked, hands the
    amount of the input to [place_bet]. *)
Definition display_betting_screen (click : option Q) (s : Session)
  : Session * Feedback :=
  let max_bet := player_money s in
  if Qle_bool max_bet 0%Q then (set_game_state GAME_OVER s, Accepted)
  else if negb (Qle_bool (1 # 100) max_bet) then (s, NumberInputException)
  else
    match click with
    | Some bet_amount => place_bet bet_amount s
    | None => (s, Accepted)
    end.

(** The "Hit" button. *)
Definition hit (s : Session) : Session :=
  let '(c, d, e) := deal (deck s) (env s) in
  let ph := add_card (player_hand s) c in
  let busted := 21 <? calculate_hand_value ph in
  {| game_state := if busted then SHOWDOWN else game_state s;
     player_money := player_money s; dealer_money := dealer_money s;
     deck := d;
     player_hand := ph; dealer_hand := dealer_hand s;
     bet := bet s; message := message s;
     round_over := round_over s; show_dealer_card := show_dealer_card s;
     player_busted := if busted then true else player_busted s;
     dealer_busted := dealer_busted s;
     player_blackjack := player_blackjack s;
     dealer_blackjack := dealer_blackjack s;
     env := e |}.

(** The "Stand" button. *)
Definition stand (s : Session) : Session := set_game_state DEALER_TURN s.

Definition can_double_down (s : Session) : bool :=
  (length (player_hand s) =? 2)%nat && Qle_bool (bet s) (player_money s).

(** The "Double Down" button; it is only drawn when [can_double_down]
    holds, so [None] means that the action is not on offer. *)
Definition double_down (s : Session) : option Session :=
  if can_double_down s then
    let money := (player_money s - bet s)%Q in
    let bet2 := (bet s * 2)%Q in
    let '(c, d, e) := deal (deck s) (env s) in
    let ph := add_card (player_hand s) c in
    let busted := 21 <? calculate_hand_value ph in
    Some
      {| game_state := if busted then SHOWDOWN else DEALER_TURN;
         player_money := money; dealer_money := dealer_money s;
         deck := d;
         player_hand := ph; dealer_hand := dealer_hand s;
         bet := bet2; message := message s;
         round_over := round_over s; show_dealer_card := show_dealer_card s;
         player_busted := if busted then true else player_busted s;
         dealer_busted := dealer_busted s;
         player_blackjack := player_blackjack s;
         dealer_blackjack := dealer_blackjack s;
         env := e |}
  else None.

(** The dealer's policy, the test of the [while] loop. *)
Definition should_hit (h : Hand) : bool := calculate_hand_value h <? 17.

(** [while calculate_hand_value(dealer_hand) < 17:
       dealer_hand.add_card(st.session_state.deck.deal())].
    [fuel] bounds the number of passes; [None] means the bound was reached
    with the test still true. *)
Fixpoint dealer_loop (fuel : nat) (h : Hand) (d : Deck) (e : Env)
  : option (Hand * Deck * Env) :=
  if should_hit h then
    match fuel with
    | O => None
    | S fuel' =>
        let '(c, d', e') := deal d e in
        dealer_loop fuel' (add_card h c) d' e'
    end
  else Some (h, d, e).

Definition process_dealer_turn (fuel : nat) (s : Session) : option Session :=
  if negb (player_busted s) then
    match dealer_loop fuel (dealer_hand s) (deck s) (env s) with
    | None => None
    | Some (dh, d, e) =>
        Some
          {| game_state := SHOWDOWN;
             player_money := player_money s; dealer_money := dealer_money s;
             deck := d;
             player_hand := player_hand s; dealer_hand := dh;
             bet := bet s; message := message s;
             round_over := round_over s; show_dealer_card := true;
             player_busted := player_busted s;
             dealer_busted :=
               if 21 <? calculate_hand_value dh then true
               else dealer_busted s;
             player_blackjack := player_blackjack s;
             dealer_blackjack := dealer_blackjack s;
             env := e |}
    end
  else
    Some
      {| game_state := SHOWDOWN;
         player_money := player_money s; dealer_money := dealer_money s;
         deck := deck s;
         player_hand := player_hand s; dealer_hand := dealer_hand s;
         bet := bet s; message := message s;
         round_over := round_over s; show_dealer_card := true;
         player_busted := player_busted s; dealer_busted := dealer_busted s;
         player_blackjack := player_blackjack s;
         dealer_blackjack := dealer_blackjack s;
         env := env s |}.

(** The branch of [process_showdown] that decides the round: the message
    tag and the new balances [(player_money, dealer_money)]. *)
Definition determine_outcome (s : Session) : Message * Q * Q :=
  let player_value := calculate_hand_value (player_hand s) in
  let dealer_value := calculate_hand_value (dealer_hand s) in
  let bet := bet s in
  if player_busted s then
    (YouBusted, (player_money s - bet)%Q, (dealer_money s + bet)%Q)
  else if dealer_busted s then
    (DealerBusts, (player_money s + bet)%Q, (dealer_money s - bet)%Q)
  else if player_blackjack s then
    if dealer_blackjack s then
      (PushBothBlackjack, player_money s, dealer_money s)
    else
      let win_amount := (bet * (3 # 2))%Q in
      (BlackjackYouWin, (player_money s + win_amount)%Q,
       (dealer_money s - win_amount)%Q)
  else if dealer_blackjack s then
    (DealerBlackjackYouLose, (player_money s - bet)%Q,
     (dealer_money s + bet)%Q)
  else if dealer_value <? player_value then
    (YouWin, (player_money s + bet)%Q, (dealer_money s - bet)%Q)
  else if player_value <? dealer_value then
    (YouLose, (player_money s - bet)%Q, (dealer_money s + bet)%Q)
  else
    (PushTie, player_money s, dealer_money s).

Definition process_showdown (s : Session) : Session :=
  let '(final_message, pm, dm) := determine_outcome s in
  {| game_state :=
       if Qle_bool pm 0%Q then GAME_OVER
       else if Qle_bool dm 0%Q then GAME_OVER
       else game_state s;
     player_money := pm; dealer_money := dm;
     deck := deck s;
     player_hand := player_hand s; dealer_hand := dealer_hand s;
     bet := bet s; message := final_message;
     round_over := true; show_dealer_card := true;
     player_busted := player_busted s; dealer_busted := dealer_busted s;
     player_blackjack := player_blackjack s;
     dealer_blackjack := dealer_blackjack s;
     env := env s |}.

(** The "Play Next Hand?" button (key [play_again]). *)
Definition play_again (s : Session) : Session := set_game_state BETTING s.

(** The "Start New Game" button (key [new_game]): every key is deleted,
    and the next run initialises the session again. *)
Definition new_game (s : Session) : Session :=
  initialize_game (rand (env s)).

(** One transition of the session: a button handled by the screen that the
    router shows in the current [game_state], or the automatic processing
    of [DEALER_TURN] and [SHOWDOWN]. *)
Inductive step : Session -> Session -> Prop :=
| step_play_home s :
    game_state s = HOME -> step s (play_home s)
| step_betting s click :
    game_state s = BETTING ->
    step s (fst (display_betting_screen click s))
| step_hit s :
    game_state s = PLAYER_TURN -> step s (hit s)
| step_stand s :
    game_state s = PLAYER_TURN -> step s (stand s)
| step_double_down s s' :
    game_state s = PLAYER_TURN -> double_down s = Some s' -> step s s'
| step_dealer_turn s fuel s' :
    game_state s = DEALER_TURN ->
    process_dealer_turn fuel s = Some s' -> step s s'
| step_showdown s :
    game_state s = SHOWDOWN -> round_over s = false ->
    step s (process_showdown s)
| step_play_again s :
    game_state s = DEALER_TURN \/ game_state s = SHOWDOWN ->
    round_over s = true ->
    step s (play_again s)
| step_new_game s :
    game_state s = GAME_OVER -> step s (new_game s).

(** Sessions that a run of the program can be in. *)
Inductive reachable : Session -> Prop :=
| reachable_init g : reachable (initialize_game g)
| reachable_step s s' : reachable s -> step s s' -> reachable s'.

End Engine.

Arguments Env R : clear implicits.
Arguments Session R : clear implicits.

(** *** The settlement on binary64 amounts *)

Section Binary64.

Import PrimFloat.
Local Open Scope float_scope.

(** The branch of [process_showdown] that decides the round once more,
    with [player_money], [dealer_money] and [bet] as the Python floats they
    are: [+=], [-=] and [bet * 1.5] are the rounded operations of
    binary64. *)
Definition determine_outcome_binary64
           (player_busted dealer_busted : bool)
           (player_blackjack dealer_blackjack : bool)
           (player_hand dealer_hand : Hand)
           (player_money dealer_money bet : float)
  : Message * float * float :=
  let player_value := calculate_hand_value player_hand in
  let dealer_value := calculate_hand_value dealer_hand in
  if player_busted then
    (YouBusted, player_money - bet, dealer_money + bet)
  else if dealer_busted then
    (DealerBusts, player_money + bet, dealer_money - bet)
  else if player_blackjack then
    if dealer_blackjack then
      (PushBothBlackjack, player_money, dealer_money)
    else
      let win_amount := bet * 1.5 in
      (BlackjackYouWin, player_money + win_amount,
       dealer_money - win_amount)
  else if dealer_blackjack then
    (DealerBlackjackYouLose, player_money - bet, dealer_money + bet)
  else if (dealer_value <? player_value)%Z then
    (YouWin, player_money + bet, dealer_money - bet)
  else if (player_value <? dealer_value)%Z then
    (YouLose, player_money - bet, dealer_money + bet)
  else
    (PushTie, player_money, dealer_money).

End Binary64.

(** [default_bet] of [display_betting_screen]:
    [min(10.0, max_bet) if max_bet >= 10.0 else max(0.01, max_bet)]. *)
Definition default_bet (max_bet : Q) : Q :=
  if Qle_bool 10 max_bet then Qmin 10 max_bet else Qmax (1 # 100) max_bet.

End BJC_v11.

(** ** Predicates used in the statements *)

(** A deck as [Deck.__init__] of v1.1 leaves it, apart from its cards: at
    least one deck, and the reshuffle point computed from the number of
    decks. *)
Definition deck_wf (d : BJC_v11.Deck) : Prop :=
  (1 <= BJC_v11.num_decks d)%nat /\
  BJC_v11.reshuffle_point d =
    Qfloor (inject_Z (52 * Z.of_nat (BJC_v11.num_decks d))
            * BJC_v11.RESHUFFLE_THRESHOLD).

(** [isBust] and [isBlackjack] of the specification, on the value computed
    by the program. *)
Definition is_bust (h : list Card) : bool :=
  21 <? BJC_v11.calculate_hand_value h.

Definition is_blackjack (h : list Card) : bool :=
  (length h =? 2)%nat && (BJC_v11.calculate_hand_value h =? 21).

(** The outcomes of the specification's [resolve()] and its priority
    order, written from the specification's words for comparison with
    [process_showdown]. *)
Inductive Outcome : Type :=
| PlayerBust
| DealerBust
| PushBlackjacks
| PlayerBlackjack
| DealerBlackjack
| PlayerWin
| DealerWin
| PushEqual.

Definition resolve_spec (player dealer : list Card) : Outcome :=
  if is_bust player then PlayerBust
  else if is_bust dealer then DealerBust
  else if is_blackjack player && is_blackjack dealer then PushBlackjacks
  else if is_blackjack player then PlayerBlackjack
  else if is_blackjack dealer then DealerBlackjack
  else if BJC_v11.calculate_hand_value dealer
          <? BJC_v11.calculate_hand_value player then PlayerWin
  else if BJC_v11.calculate_hand_value player
          <? BJC_v11.calculate_hand_value dealer then DealerWin
  else PushEqual.

(** The balance delta [(playerDelta, dealerDelta)] of an outcome. *)
Definition delta_spec (o : Outcome) (bet : Q) : Q * Q :=
  match o with
  | PlayerBust | DealerBlackjack | DealerWin => ((- bet)%Q, bet)
  | DealerBust | PlayerWin => (bet, (- bet)%Q)
  | PlayerBlackjack => (((3 # 2) * bet)%Q, (- ((3 # 2) * bet))%Q)
  | PushBlackjacks | PushEqual => (0%Q, 0%Q)
  end.

(** The message that [process_showdown] of v1.1 writes for an outcome. *)
Definition message_of (o : Outcome) : BJC_v11.Message :=
  match o with
  | PlayerBust => BJC_v11.YouBusted
  | DealerBust => BJC_v11.DealerBusts
  | PushBlackjacks => BJC_v11.PushBothBlackjack
  | PlayerBlackjack => BJC_v11.BlackjackYouWin
  | DealerBlackjack => BJC_v11.DealerBlackjackYouLose
  | PlayerWin => BJC_v11.YouWin
  | DealerWin => BJC_v11.YouLose
  | PushEqual => BJC_v11.PushTie
  end.

(** The same priority order without the three blackjack outcomes, which
    the top-level script does not have, and the message it writes. *)
Definition resolve_plain (player dealer : list Card) : Outcome :=
  if 21 <? BJC.calculate_hand_value player then PlayerBust
  else if 21 <? BJC.calculate_hand_value dealer then DealerBust
  else if BJC.calculate_hand_value dealer
          <? BJC.calculate_hand_value player then PlayerWin
  else if BJC.calculate_hand_value player
          <? BJC.calculate_hand_value dealer then DealerWin
  else PushEqual.

Definition message_plain (o : Outcome) : BJC.Message :=
  match o with
  | PlayerBust => BJC.YouBustedYouLose
  | DealerBust => BJC.DealerBustedYouWin
  | PlayerWin => BJC.YouWin
  | DealerWin => BJC.YouLose
  | _ => BJC.Push
  end.

(** The four flags of a v1.1 session say what the hands say. *)
Definition flags_agree {R : Shuffler} (s : BJC_v11.Session R) : Prop :=
  BJC_v11.player_busted s = is_bust (BJC_v11.player_hand s) /\
  BJC_v11.dealer_busted s = is_bust (BJC_v11.dealer_hand s) /\
  BJC_v11.player_blackjack s = is_blackjack (BJC_v11.player_hand s) /\
  BJC_v11.dealer_blackjack s = is_blackjack (BJC_v11.dealer_hand s).

(** Invariant of the v1.1 session, by state. *)
Definition session_inv {R : Shuffler} (s : BJC_v11.Session R) : Prop :=
  deck_wf (BJC_v11.deck s) /\
  match BJC_v11.game_state s with
  | BJC_v11.PLAYER_TURN =>
      BJC_v11.round_over s = false /\
      BJC_v11.player_busted s = false /\
      BJC_v11.dealer_busted s = false /\
      BJC_v11.player_blackjack s = false /\
      BJC_v11.dealer_blackjack s = false /\
      (2 <= length (BJC_v11.player_hand s))%nat /\
      BJC_v11.calculate_hand_value (BJC_v11.player_hand s) <= 21 /\
      is_blackjack (BJC_v11.player_hand s) = false /\
      length (BJC_v11.dealer_hand s) = 2%nat /\
      BJC_v11.calculate_hand_value (BJC_v11.dealer_hand s) <> 21
  | BJC_v11.DEALER_TURN =>
      BJC_v11.round_over s = false /\
      BJC_v11.player_busted s = false /\
      BJC_v11.dealer_busted s = false /\
      BJC_v11.calculate_hand_value (BJC_v11.player_hand s) <= 21 /\
      BJC_v11.player_blackjack s = is_blackjack (BJC_v11.player_hand s) /\
      BJC_v11.dealer_blackjack s = is_blackjack (BJC_v11.dealer_hand s) /\
      length (BJC_v11.dealer_hand s) = 2%nat
  | BJC_v11.SHOWDOWN =>
      BJC_v11.round_over s = false -> flags_agree s
  | _ => True
  end.

(** Invariant of the top-level session, by phase: the 52 cards of the deck
    built for the round are in the deck and the two hands. *)
Definition round_inv {R : Shuffler} (s : BJC.Session R) : Prop :=
  match BJC.game_phase s with
  | BJC.betting => length (BJC.deck s) = 52%nat
  | BJC.player_turn | BJC.dealer_turn =>
      (length (BJC.deck s) + length (BJC.player_hand s)
       + length (BJC.dealer_hand s) = 52)%nat /\
      length (BJC.dealer_hand s) = 2%nat /\
      BJC.calculate_hand_value (BJC.player_hand s) <= 21
  | _ => True
  end.

(** ** Two shufflers to run the programs on *)

(** The shuffle that leaves the list as it is. *)
Definition identity_shuffler : Shuffler :=
  {| rng := unit;
     shuffle := fun g l => (l, g);
     shuffle_perm := fun _ l => Permutation_refl l |}.

(** The shuffle that cuts the list: the generator state [g] is the number
    of cards moved from the front to the end. *)
Definition cutting_shuffler : Shuffler :=
  {| rng := nat;
     shuffle := fun g l => (skipn g l ++ firstn g l, g);
     shuffle_perm := fun g l =>
       eq_ind (firstn g l ++ skipn g l)
              (fun x => Permutation (skipn g l ++ firstn g l) x)
              (Permutation_app_comm (skipn g l) (firstn g l))
              l (firstn_skipn g l) |}.

(** ** Sessions used as examples *)

(** v1.1 after "Play Game", the shoe cut at 12. *)
Definition lobby_v11 : BJC_v11.Session cutting_shuffler :=
  BJC_v11.play_home (BJC_v11.initialize_game (R := cutting_shuffler) 12%nat).

(** The same session after a bet of 10: the player holds King and Jack, the
    dealer Queen and Ten, and a Nine is next. *)
Definition table_v11 : BJC_v11.Session cutting_shuffler :=
  fst (BJC_v11.place_bet 10 lobby_v11).

(** An empty four-deck shoe of v1.1, and an environment to deal it in. *)
Definition empty_shoe : BJC_v11.Deck :=
  {| BJC_v11.num_decks := 4; BJC_v11.cards := [];
     BJC_v11.reshuffle_point := 52 |}.

Definition plain_env : BJC_v11.Env identity_shuffler :=
  @BJC_v11.mkEnv identity_shuffler tt false.

(** [table_v11] after "Double Down": the Nine busts the player. *)
Definition busted_v11 : BJC_v11.Session cutting_shuffler :=
  match BJC_v11.double_down table_v11 with
  | Some s => s
  | None => table_v11
  end.

(** [lobby_v11] after a bet of 499.995, a hit that busts the player, the
    settlement and "Play Next Hand": the betting screen with half a cent
    left. *)
Definition short_v11 : BJC_v11.Session cutting_shuffler :=
  BJC_v11.play_again
    (BJC_v11.process_showdown
       (BJC_v11.hit (fst (BJC_v11.place_bet (99999 # 200) lobby_v11)))).

(** The top-level script after "Play", the deck left in building order:
    the last four cards are Jack, Queen, King and Ace of Spades. *)
Definition table_plain : BJC.Session identity_shuffler :=
  BJC.play (BJC.initialize_session_state (R := identity_shuffler) tt).

(** The same session after a bet of 10 (the player holds Ace and King, the
    dealer Queen and Jack), and then after "Stand" and the dealer's turn. *)
Definition seated_plain : BJC.Session identity_shuffler :=
  match BJC.place_bet 10 table_plain with
  | Some (s, _) => s
  | None => table_plain
  end.

Definition result_plain : BJC.Session identity_shuffler :=
  match BJC.dealer_turn_phase 17 (BJC.stand seated_plain) with
  | BJC.Returned s => s
  | _ => seated_plain
  end.

(** ** Further definitions used in the statements *)

Definition card_eq_dec (x y : Card) : {x = y} + {x <> y}.
Proof. decide equality; decide equality. Defined.

(** [k] calls of [deal] in a row, as the deal loop and the dealer's loop
    make them: the cards returned, in order, and the deck and environment
    left. *)
Fixpoint deal_many {R : Shuffler} (k : nat) (d : BJC_v11.Deck)
         (e : BJC_v11.Env R)
  : list (option Card) * BJC_v11.Deck * BJC_v11.Env R :=
  match k with
  | O => ([], d, e)
  | S k' =>
      let '(c, d1, e1) := BJC_v11.deal d e in
      let '(cs, d2, e2) := deal_many k' d1 e1 in
      (c :: cs, d2, e2)
  end.

(** The cards of a shoe are what is left of a shuffled full shoe: together
    with the cards already dealt from it, [dealt], they are a permutation of
    the cards the shoe is built from. *)
Definition shoe_sound (d : BJC_v11.Deck) : Prop :=
  exists dealt : list Card,
    Permutation (BJC_v11.cards d ++ dealt)
                (BJC_v11.fresh_cards (BJC_v11.num_decks d)).

(** The shoe of a v1.1 session: four decks, well-formed and sound. *)
Definition shoe_ok (d : BJC_v11.Deck) : Prop :=
  deck_wf d /\ BJC_v11.num_decks d = BJC_v11.NUM_DECKS /\ shoe_sound d.

(** The four-deck shoe that [Deck(4)] builds with the identity shuffle. *)
Definition full_shoe : BJC_v11.Deck := fst (BJC_v11.new_deck 4 plain_env).

(** Invariant of the balances and the bet of a v1.1 session, by state. *)
Definition money_inv {R : Shuffler} (s : BJC_v11.Session R) : Prop :=
  match BJC_v11.game_state s with
  | BJC_v11.HOME => True
  | BJC_v11.BETTING =>
      (0 < BJC_v11.player_money s)%Q /\ (0 < BJC_v11.dealer_money s)%Q
  | BJC_v11.PLAYER_TURN =>
      (1 # 100 <= BJC_v11.bet s)%Q /\
      (BJC_v11.bet s <= BJC_v11.player_money s)%Q
  | BJC_v11.DEALER_TURN =>
      (1 # 100 <= BJC_v11.bet s)%Q /\ (0 <= BJC_v11.player_money s)%Q
  | BJC_v11.SHOWDOWN =>
      if BJC_v11.round_over s then
        (0 < BJC_v11.player_money s)%Q /\ (0 < BJC_v11.dealer_money s)%Q
      else
        (1 # 100 <= BJC_v11.bet s)%Q /\ (0 <= BJC_v11.player_money s)%Q
  | BJC_v11.GAME_OVER =>
      (BJC_v11.player_money s <= 0)%Q \/ (BJC_v11.dealer_money s <= 0)%Q
  end.

(** Invariant of the cards of a top-level session, by phase: during a
    round the deck and the two hands together are the 52 cards. *)
Definition table_inv {R : Shuffler} (s : BJC.Session R) : Prop :=
  match BJC.game_phase s with
  | BJC.start =>
      BJC.player_hand s = [] /\ BJC.dealer_hand s = []
  | BJC.betting =>
      Permutation (BJC.deck s) one_deck /\
      BJC.player_hand s = [] /\ BJC.dealer_hand s = []
  | BJC.player_turn | BJC.dealer_turn | BJC.result =>
      Permutation (BJC.deck s ++ BJC.player_hand s ++ BJC.dealer_hand s)
                  one_deck
  | BJC.quit => True
  end.

(** Invariant of the balances and the bet of a top-level session, by
    phase. *)
Definition purse_inv {R : Shuffler} (s : BJC.Session R) : Prop :=
  match BJC.game_phase s with
  | BJC.start =>
      BJC.player_money s = 500%Q /\ BJC.dealer_money s = 5000000%Q
  | BJC.betting =>
      (0 < BJC.player_money s)%Q /\ (0 < BJC.dealer_money s)%Q
  | BJC.player_turn | BJC.dealer_turn =>
      (BJC.bet s <= BJC.player_money s)%Q
  | BJC.result | BJC.quit => True
  end.

(** A top-level session in the [result] phase with the hands, the bet and
    the balances of [busted_v11]. *)
Definition mirror_plain : BJC.Session cutting_shuffler :=
  @BJC.mkSession cutting_shuffler BJC.result
    (BJC_v11.player_money busted_v11)
    (BJC_v11.dealer_money busted_v11)
    (BJC_v11.cards (BJC_v11.deck busted_v11))
    (BJC_v11.player_hand busted_v11)
    (BJC_v11.dealer_hand busted_v11)
    (BJC_v11.bet busted_v11)
    BJC.NoMessage
    12%nat.

(** ** Two rounds on binary64 amounts *)

Section Binary64Rounds.

Import PrimFloat.

(** A hand of 20 and a hand of 17. *)
Definition twenty : list Card := [mkCard Spades RK; mkCard Spades RQ].
Definition seventeen : list Card := [mkCard Hearts R10; mkCard Hearts R7].

(** The balances after two rounds that the player wins with 20 against 17,
    from the opening balances 500.0 and 5000000.0: the first with a bet of
    0.01, the second with a bet of 0.02. *)
Definition first_win_plain : BJC.Message * float * float :=
  BJC.determine_winner_binary64 twenty seventeen 500 5000000 0.01.

Definition second_win_plain : BJC.Message * float * float :=
  BJC.determine_winner_binary64 twenty seventeen
    (snd (fst first_win_plain)) (snd first_win_plain) 0.02.

Definition first_win_v11 : BJC_v11.Message * float * float :=
  BJC_v11.determine_outcome_binary64 false false false false
    twenty seventeen 500 5000000 0.01.

Definition second_win_v11 : BJC_v11.Message * float * float :=
  BJC_v11.determine_outcome_binary64 false false false false
    twenty seventeen (snd (fst first_win_v11)) (snd first_win_v11) 0.02.

End Binary64Rounds.

Section TextDefinitions.

Import String.
Local Open Scope string_scope.

(** The tail that [hand_to_str] of the top-level script puts after the first
    card of a hand: nothing, or a comma, a space and the rest of the
    hand. *)
Definition rest_of_hand (h : list Card) : string :=
  match h with
  | [] => EmptyString
  | _ => ", " ++ BJC.hand_to_str h
  end.

End TextDefinitions.

(** The part of a string before its first comma. *)
Fixpoint before_comma (s : String.string) : String.string :=
  match s with
  | String.EmptyString => String.EmptyString
  | String.String a rest =>
      if Ascii.eqb a (Ascii.ascii_of_nat 44) then String.EmptyString
      else String.String a (before_comma rest)
  end.

(** * Properties *)

(** Split a conjunction into its parts, and nothing else. *)
Ltac split_all := repeat match goal with |- _ /\ _ => split end.

(** ** Hand values *)

Lemma base_total_app (h1 h2 : list Card) :
  base_total (h1 ++ h2) = base_total h1 + base_total h2.
Proof.
  unfold base_total.
  induction h1 as [|c h1 IH]; simpl; [reflexivity | rewrite IH; ring].
Qed.

Lemma ace_count_app (h1 h2 : list Card) :
  ace_count (h1 ++ h2) = (ace_count h1 + ace_count h2)%nat.
Proof.
  unfold ace_count. now rewrite filter_app, length_app.
Qed.

Lemma ace_count_cons (c : Card) (h : list Card) :
  ace_count (c :: h) =
  ((if is_ace (rank c) then 1 else 0) + ace_count h)%nat.
Proof.
  unfold ace_count; simpl. now destruct (is_ace (rank c)).
Qed.

Lemma base_total_cons (c : Card) (h : list Card) :
  base_total (c :: h) = base_value c + base_total h.
Proof. reflexivity. Qed.

Lemma non_ace_total_cons (c : Card) (h : list Card) :
  non_ace_total (c :: h) =
  (if is_ace (rank c) then 0 else base_value c) + non_ace_total h.
Proof.
  unfold non_ace_total; simpl filter.
  destruct (is_ace (rank c)); simpl negb; cbv iota;
    [lia | now rewrite base_total_cons].
Qed.

(** The total splits into the cards that are not Aces and 11 per Ace. *)
Lemma base_total_split (h : list Card) :
  base_total h = non_ace_total h + 11 * Z.of_nat (ace_count h).
Proof.
  induction h as [|c h IH]; [reflexivity|].
  rewrite ace_count_cons, base_total_cons, non_ace_total_cons, IH.
  destruct c as [s r]; destruct r; cbn [rank is_ace base_value]; lia.
Qed.

Lemma non_ace_total_length (h : list Card) :
  Z.of_nat (length h) <= non_ace_total h + Z.of_nat (ace_count h).
Proof.
  induction h as [|c h IH]; [cbv; discriminate|].
  rewrite ace_count_cons, non_ace_total_cons.
  cbn [length].
  destruct c as [s r]; destruct r; cbn [rank is_ace base_value]; lia.
Qed.

(** A hand holds at most as many cards as its hard total. *)
Lemma length_le_hard_total (h : list Card) :
  Z.of_nat (length h) <= hard_total h.
Proof. apply non_ace_total_length. Qed.

Lemma hard_total_app (h1 h2 : list Card) :
  hard_total (h1 ++ h2) = hard_total h1 + hard_total h2.
Proof.
  unfold hard_total, non_ace_total.
  rewrite ace_count_app, filter_app, base_total_app. lia.
Qed.

(** Every card adds at least 1 to the hard total. *)
Lemma hard_total_card (c : Card) : 1 <= hard_total [c].
Proof. destruct c as [s r]; destruct r; vm_compute; discriminate. Qed.

Lemma hard_total_snoc (h : list Card) (c : Card) :
  hard_total h + 1 <= hard_total (h ++ [c]).
Proof. rewrite hard_total_app. pose proof (hard_total_card c). lia. Qed.

(** The loops of the two variants compute the same pair. *)
Lemma count_cards_spec (h : list Card) (v : Z) (a : nat) :
  BJC.count_cards h v a = (v + base_total h, (a + ace_count h)%nat).
Proof.
  revert v a.
  induction h as [|c h IH]; intros v a.
  - cbn [BJC.count_cards]. change (base_total []) with 0.
    change (ace_count []) with O. f_equal; lia.
  - rewrite base_total_cons, ace_count_cons.
    destruct c as [s r]; destruct r;
      cbn [BJC.count_cards rank is_ace base_value int_of_rank];
      rewrite IH; f_equal; lia.
Qed.

Lemma count_cards_v11_spec (h : list Card) (v : Z) (a : nat) :
  BJC_v11.count_cards h v a = (v + base_total h, (a + ace_count h)%nat).
Proof.
  revert v a.
  induction h as [|c h IH]; intros v a.
  - cbn [BJC_v11.count_cards]. change (base_total []) with 0.
    change (ace_count []) with O. f_equal; lia.
  - rewrite base_total_cons, ace_count_cons.
    cbn [BJC_v11.count_cards]. rewrite IH.
    destruct c as [s r]; destruct r;
      cbn [card_value rank is_ace base_value int_of_rank]; f_equal; lia.
Qed.

Lemma calculate_hand_value_eq (h : list Card) :
  BJC.calculate_hand_value h = soften (base_total h) (ace_count h).
Proof.
  unfold BJC.calculate_hand_value. rewrite count_cards_spec. reflexivity.
Qed.

Lemma calculate_hand_value_v11_eq (h : list Card) :
  BJC_v11.calculate_hand_value h = soften (base_total h) (ace_count h).
Proof.
  unfold BJC_v11.calculate_hand_value.
  destruct h as [|c h]; [reflexivity|].
  rewrite count_cards_v11_spec. reflexivity.
Qed.

Lemma calculate_hand_value_agree (h : list Card) :
  BJC_v11.calculate_hand_value h = BJC.calculate_hand_value h.
Proof.
  now rewrite calculate_hand_value_eq, calculate_hand_value_v11_eq.
Qed.

(** What the softening loop returns: [k] Aces were taken from 11 to 1, each
    of them because the running total was above 21, and the loop stopped
    with an Ace left at 11 only when the total was no longer above 21. *)
Lemma soften_spec (a : nat) : forall v : Z,
  exists k : nat,
    (k <= a)%nat /\
    soften v a = v - 10 * Z.of_nat k /\
    ((k < a)%nat -> soften v a <= 21) /\
    (forall j : nat, (j < k)%nat -> 21 < v - 10 * Z.of_nat j).
Proof.
  induction a as [|a IH]; intros v.
  - exists O. cbn [soften]. split; [lia|]. split; [lia|]. split; intros; lia.
  - cbn [soften]. destruct (21 <? v) eqn:E.
    + apply Z.ltb_lt in E.
      destruct (IH (v - 10)) as (k & Hk & Hv & Hstop & Hwhy).
      exists (S k). split; [lia|]. split; [lia|]. split.
      * intros Hlt. apply Hstop. lia.
      * intros j Hj. destruct j as [|j]; [lia|].
        specialize (Hwhy j ltac:(lia)). lia.
    + apply Z.ltb_ge in E.
      exists O. split; [lia|]. split; [lia|]. split; intros; lia.
Qed.

Lemma soften_upper (a : nat) (v : Z) : soften v a <= v.
Proof. destruct (soften_spec a v) as (k & _ & -> & _). lia. Qed.

Lemma soften_lower (a : nat) (v : Z) : v - 10 * Z.of_nat a <= soften v a.
Proof. destruct (soften_spec a v) as (k & Hk & -> & _). lia. Qed.

Lemma soften_small (a : nat) (v : Z) : v <= 21 -> soften v a = v.
Proof.
  intros H. destruct a; simpl; [reflexivity|].
  destruct (21 <? v) eqn:E; [apply Z.ltb_lt in E; lia | reflexivity].
Qed.

(** The value of a hand lies between its hard total and its base total. *)
Lemma hard_total_le_value (h : list Card) :
  hard_total h <= BJC.calculate_hand_value h.
Proof.
  rewrite calculate_hand_value_eq.
  pose proof (soften_lower (ace_count h) (base_total h)).
  pose proof (base_total_split h). unfold hard_total. lia.
Qed.

Lemma value_le_base_total (h : list Card) :
  BJC.calculate_hand_value h <= base_total h.
Proof. rewrite calculate_hand_value_eq. apply soften_upper. Qed.

Lemma base_total_perm (h h' : list Card) :
  Permutation h h' -> base_total h = base_total h'.
Proof.
  unfold base_total.
  induction 1; simpl; try lia; congruence.
Qed.

Lemma ace_count_perm (h h' : list Card) :
  Permutation h h' -> ace_count h = ace_count h'.
Proof.
  intros H. unfold ace_count.
  apply Permutation_length.
  induction H; simpl.
  - constructor.
  - destruct (is_ace (rank x)); [constructor|]; assumption.
  - destruct (is_ace (rank x)), (is_ace (rank y));
      try apply perm_swap; apply Permutation_refl.
  - eapply perm_trans; eassumption.
Qed.

(** C2.  For every hand, the value computed by [calculate_hand_value] (in
    the top-level script and in v1.1 alike) is the sum of the base values
    of the cards (face value, 10 for J/Q/K, 11 for each Ace) less 10 for
    each of [k] Aces, where the [k] reductions were made one at a time
    while the running total was above 21, and the reductions stopped with
    an Ace still at 11 only once the total was at most 21.  Every Ace is
    therefore counted once, either as 11 or as 1.  A hand of two Aces and a
    nine is worth 21, and the empty hand is worth 0. *)
Theorem C2_hand_value :
  (forall hand : list Card,
      BJC_v11.calculate_hand_value hand = BJC.calculate_hand_value hand /\
      exists k : nat,
        (k <= ace_count hand)%nat /\
        BJC.calculate_hand_value hand = base_total hand - 10 * Z.of_nat k /\
        BJC.calculate_hand_value hand =
          non_ace_total hand
          + 11 * Z.of_nat (ace_count hand - k) + 1 * Z.of_nat k /\
        (forall j : nat,
            (j < k)%nat -> 21 < base_total hand - 10 * Z.of_nat j) /\
        ((k < ace_count hand)%nat -> BJC.calculate_hand_value hand <= 21)) /\
  (forall s1 s2 s3 : Suit,
      BJC.calculate_hand_value
        [mkCard s1 RA; mkCard s2 RA; mkCard s3 R9] = 21 /\
      BJC_v11.calculate_hand_value
        [mkCard s1 RA; mkCard s2 RA; mkCard s3 R9] = 21) /\
  BJC.calculate_hand_value [] = 0 /\
  BJC_v11.calculate_hand_value [] = 0.
Proof.
  split; [|split; [|split; reflexivity]].
  - intros hand. split; [apply calculate_hand_value_agree|].
    rewrite calculate_hand_value_eq.
    destruct (soften_spec (ace_count hand) (base_total hand))
      as (k & Hk & Hv & Hstop & Hwhy).
    exists k. split; [exact Hk|]. split; [exact Hv|]. split.
    + rewrite Hv, (base_total_split hand). lia.
    + split; assumption.
  - intros s1 s2 s3. split; reflexivity.
Qed.

(** C10.  The value of a hand does not depend on the order of its cards:
    two hands that are permutations of each other have the same value, in
    the top-level script and in v1.1. *)
Theorem C10_value_order_independent (h h' : list Card) :
  Permutation h h' ->
  BJC.calculate_hand_value h = BJC.calculate_hand_value h' /\
  BJC_v11.calculate_hand_value h = BJC_v11.calculate_hand_value h'.
Proof.
  intros H.
  rewrite !calculate_hand_value_v11_eq, !calculate_hand_value_eq.
  rewrite (base_total_perm h h' H), (ace_count_perm h h' H).
  split; reflexivity.
Qed.

Lemma C10_value_order_independent_witness :
  BJC.calculate_hand_value
    [mkCard Spades RA; mkCard Hearts R9; mkCard Clubs RA] =
  BJC.calculate_hand_value
    [mkCard Hearts R9; mkCard Clubs RA; mkCard Spades RA] /\
  BJC_v11.calculate_hand_value
    [mkCard Spades RA; mkCard Hearts R9; mkCard Clubs RA] =
  BJC_v11.calculate_hand_value
    [mkCard Hearts R9; mkCard Clubs RA; mkCard Spades RA].
Proof.
  apply (C10_value_order_independent
           [mkCard Spades RA; mkCard Hearts R9; mkCard Clubs RA]
           [mkCard Hearts R9; mkCard Clubs RA; mkCard Spades RA]).
  apply (Permutation_cons_append [mkCard Hearts R9; mkCard Clubs RA]
                                 (mkCard Spades RA)).
Defined.

(** ** Stacks of cards *)

Lemma pop_snoc (l : list Card) (c : Card) : pop (l ++ [c]) = Some (c, l).
Proof.
  induction l as [|x l IH]; [reflexivity|].
  cbn [app pop]. rewrite IH.
  destruct (l ++ [c]) eqn:E; [|reflexivity].
  destruct l; discriminate.
Qed.

Lemma pop_some (l : list Card) (c : Card) (r : list Card) :
  pop l = Some (c, r) <-> l = r ++ [c].
Proof.
  split.
  - intros H. destruct l as [|x l]; [discriminate|].
    destruct (exists_last (l := x :: l)) as (r' & c' & E); [discriminate|].
    rewrite E in H |- *. rewrite pop_snoc in H.
    injection H as <- <-. reflexivity.
  - intros ->. apply pop_snoc.
Qed.

Lemma pop_none (l : list Card) : pop l = None <-> l = [].
Proof.
  split; [|now intros ->].
  destruct l as [|x l]; [reflexivity|].
  destruct (exists_last (l := x :: l)) as (r & c & E); [discriminate|].
  rewrite E, pop_snoc. discriminate.
Qed.

Lemma pop_nonempty (l : list Card) :
  (0 < length l)%nat -> exists c r, pop l = Some (c, r) /\ l = r ++ [c].
Proof.
  intros H. destruct (pop l) as [[c r]|] eqn:E.
  - exists c, r. split; [reflexivity | now apply pop_some].
  - apply pop_none in E. subst. simpl in H. lia.
Qed.

Lemma pop_length (l : list Card) (c : Card) (r : list Card) :
  pop l = Some (c, r) -> length l = S (length r).
Proof.
  intros H. apply pop_some in H. subst. rewrite length_app. simpl. lia.
Qed.

Lemma one_deck_length : length one_deck = 52%nat.
Proof. reflexivity. Qed.

Lemma repeat_deck_length (n k : nat) :
  length (flat_map (fun _ : nat => one_deck) (seq k n)) = (52 * n)%nat.
Proof.
  revert k. induction n as [|n IH]; intros k; [reflexivity|].
  cbn [seq flat_map]. rewrite length_app, IH, one_deck_length. lia.
Qed.

Lemma fresh_cards_length (n : nat) :
  length (BJC_v11.fresh_cards n) = (52 * n)%nat.
Proof. apply repeat_deck_length. Qed.

Lemma shuffle_length (R : Shuffler) (g : rng R) (l : list Card) :
  length (fst (shuffle R g l)) = length l.
Proof. apply Permutation_length, shuffle_perm. Qed.

(** ** The shoe of v1.1 *)

Section Shoe.

Context (R : Shuffler).

Import BJC_v11.

Lemma reshuffle_point_value (n : nat) :
  Qfloor (inject_Z (52 * Z.of_nat n) * RESHUFFLE_THRESHOLD) =
  13 * Z.of_nat n.
Proof.
  unfold RESHUFFLE_THRESHOLD.
  assert (E : (inject_Z (52 * Z.of_nat n) * (25 # 100) ==
               inject_Z (13 * Z.of_nat n))%Q).
  { unfold Qeq, inject_Z, Qmult. cbn [Qnum Qden].
    change (Z.pos (1 * 100)) with 100. lia. }
  rewrite E. apply Qfloor_Z.
Qed.

Lemma deck_wf_point (d : Deck) : deck_wf d -> 0 <= reshuffle_point d.
Proof. intros [_ ->]. rewrite reshuffle_point_value. lia. Qed.

(** The integer test of [needs_reshuffle] is the test against the exact
    product [52 * num_decks * RESHUFFLE_THRESHOLD]. *)
Lemma needs_reshuffle_threshold (d : Deck) :
  deck_wf d ->
  (needs_reshuffle d = true <->
   (inject_Z (Z.of_nat (length (cards d))) <=
    inject_Z (52 * Z.of_nat (num_decks d)) * RESHUFFLE_THRESHOLD)%Q).
Proof.
  intros [_ Hp]. unfold needs_reshuffle. rewrite Hp, Z.leb_le.
  set (q := (inject_Z (52 * Z.of_nat (num_decks d)) * RESHUFFLE_THRESHOLD)%Q).
  set (z := Z.of_nat (length (cards d))).
  split; intros H.
  - apply Qle_trans with (inject_Z (Qfloor q)); [|apply Qfloor_le].
    now rewrite <- Zle_Qle.
  - rewrite <- (Qfloor_Z z). now apply Qfloor_resp_le.
Qed.

Lemma build_and_shuffle_spec (d : Deck) (e : Env R) :
  let '(d', e') := build_and_shuffle d e in
  num_decks d' = num_decks d /\
  reshuffle_point d' = reshuffle_point d /\
  Permutation (cards d') (fresh_cards (num_decks d)) /\
  length (cards d') = (52 * num_decks d)%nat /\
  reshuffled_message e' = true.
Proof.
  unfold build_and_shuffle.
  pose proof (shuffle_perm R (rand e) (fresh_cards (num_decks d))) as HP.
  destruct (shuffle R (rand e) (fresh_cards (num_decks d))) as [cs g].
  cbn [fst] in HP. cbn [num_decks cards reshuffle_point reshuffled_message].
  repeat split; try assumption.
  rewrite (Permutation_length HP). apply fresh_cards_length.
Qed.

(** [deal] on a well-formed deck: it returns a card, keeps the deck
    well-formed, and the card is the last one of the deck it was taken
    from, which is a freshly built and shuffled shoe exactly when the deck
    needed a reshuffle. *)
Lemma deal_spec (d : Deck) (e : Env R) :
  deck_wf d ->
  exists (c : Card) (d' : Deck) (e' : Env R),
    deal d e = (Some c, d', e') /\
    deck_wf d' /\
    num_decks d' = num_decks d /\
    if needs_reshuffle d then
      exists rebuilt : list Card,
        Permutation rebuilt (fresh_cards (num_decks d)) /\
        length rebuilt = (52 * num_decks d)%nat /\
        rebuilt = cards d' ++ [c] /\
        reshuffled_message e' = true
    else
      cards d = cards d' ++ [c] /\ e' = e.
Proof.
  intros Hwf. pose proof (deck_wf_point d Hwf) as Hp0.
  destruct Hwf as [Hn Hp].
  unfold deal. destruct (needs_reshuffle d) eqn:Hneed.
  - pose proof (build_and_shuffle_spec d e) as HB.
    destruct (build_and_shuffle d e) as [d1 e1].
    destruct HB as (Hn1 & Hp1 & Hperm & Hlen & Hmsg).
    destruct (pop_nonempty (cards d1)) as (c & r & Hpop & Hcs); [lia|].
    rewrite Hpop. do 3 eexists. split; [reflexivity|].
    cbn [num_decks cards reshuffle_point]. unfold deck_wf.
    cbn [num_decks cards reshuffle_point].
    rewrite Hn1, Hp1. repeat split; try assumption.
    exists (cards d1). rewrite <- Hcs. repeat split; assumption.
  - unfold needs_reshuffle in Hneed. apply Z.leb_gt in Hneed.
    destruct (pop_nonempty (cards d)) as (c & r & Hpop & Hcs); [lia|].
    rewrite Hpop. do 3 eexists. split; [reflexivity|].
    unfold deck_wf. cbn [num_decks cards reshuffle_point].
    repeat split; assumption.
Qed.

End Shoe.

(** ** The dealer's loop *)

Lemma hard_total_le_value_v11 (h : list Card) :
  hard_total h <= BJC_v11.calculate_hand_value h.
Proof. rewrite calculate_hand_value_agree. apply hard_total_le_value. Qed.

Lemma should_hit_iff (h : list Card) :
  BJC_v11.should_hit h = true <-> BJC_v11.calculate_hand_value h < 17.
Proof. unfold BJC_v11.should_hit. apply Z.ltb_lt. Qed.

Lemma should_hit_false_iff (h : list Card) :
  BJC_v11.should_hit h = false <-> 17 <= BJC_v11.calculate_hand_value h.
Proof. unfold BJC_v11.should_hit. apply Z.ltb_ge. Qed.

Section DealerLoop.

Context {R : Shuffler}.

Import BJC_v11.

(** With a well-formed deck and as much fuel as the hard total is short of
    17, the loop of v1.1 returns.  The hand it returns is the starting hand
    followed by the cards drawn, the policy said "hit" before each draw, and
    it says "stand" on the result. *)
Lemma dealer_loop_returns (fuel : nat) :
  forall (h : Hand) (d : Deck) (e : Env R),
    deck_wf d ->
    17 - hard_total h <= Z.of_nat fuel ->
    exists (h' : Hand) (d' : Deck) (e' : Env R) (drawn : list Card),
      dealer_loop fuel h d e = Some (h', d', e') /\
      deck_wf d' /\
      h' = h ++ drawn /\
      Z.of_nat (length drawn) <= Z.max 0 (17 - hard_total h) /\
      (forall n : nat,
          (n < length drawn)%nat -> should_hit (h ++ firstn n drawn) = true) /\
      should_hit h' = false.
Proof.
  induction fuel as [|fuel IH]; intros h d e Hwf Hfuel.
  - cbn [dealer_loop]. destruct (should_hit h) eqn:Hs.
    + apply should_hit_iff in Hs.
      pose proof (hard_total_le_value_v11 h). lia.
    + exists h, d, e, []. rewrite app_nil_r. cbn [length].
      split_all; try assumption; try reflexivity; try lia.
  - cbn [dealer_loop]. destruct (should_hit h) eqn:Hs.
    + destruct (deal_spec R d e Hwf) as (c & d1 & e1 & Hdeal & Hwf1 & _).
      rewrite Hdeal. cbn [add_card].
      pose proof (hard_total_snoc h c) as Hup.
      apply should_hit_iff in Hs.
      pose proof (hard_total_le_value_v11 h) as Hlow.
      destruct (IH (h ++ [c]) d1 e1 Hwf1 ltac:(lia))
        as (h' & d' & e' & drawn & Hloop & Hwf' & Hh' & Hlen & Hpre & Hstop).
      exists h', d', e', (c :: drawn).
      split; [exact Hloop|]. split; [exact Hwf'|].
      split; [rewrite Hh', <- app_assoc; reflexivity|].
      split; [cbn [length]; lia|].
      split; [|exact Hstop].
      intros [|n] Hn.
      * cbn [firstn]. rewrite app_nil_r. now apply should_hit_iff.
      * cbn [firstn]. cbn [length] in Hn.
        specialize (Hpre n ltac:(lia)).
        now rewrite <- app_assoc in Hpre.
    + exists h, d, e, []. rewrite app_nil_r. cbn [length].
      split_all; try assumption; try reflexivity; try lia.
Qed.

(** More fuel does not change what the loop returns. *)
Lemma dealer_loop_more_fuel (fuel : nat) :
  forall (h : Hand) (d : Deck) (e : Env R) r,
    dealer_loop fuel h d e = Some r ->
    forall fuel' : nat, (fuel <= fuel')%nat ->
    dealer_loop fuel' h d e = Some r.
Proof.
  induction fuel as [|fuel IH]; intros h d e r Hr fuel' Hle.
  - cbn [dealer_loop] in Hr. destruct (should_hit h) eqn:Hs; [discriminate|].
    destruct fuel'; cbn [dealer_loop]; rewrite Hs; exact Hr.
  - destruct fuel' as [|fuel']; [lia|].
    cbn [dealer_loop] in Hr |- *. destruct (should_hit h); [|exact Hr].
    destruct (deal d e) as [[c d1] e1].
    apply IH; [exact Hr | lia].
Qed.

End DealerLoop.

(** The loop of the top-level script: with as much fuel as the hard total
    is short of 17 it does not stop for lack of fuel; it returns, or the
    deck runs out. *)
Lemma dealer_loop_plain_ends (fuel : nat) :
  forall h d : list Card,
    17 - hard_total h <= Z.of_nat fuel ->
    BJC.dealer_loop fuel h d <> BJC.Unfinished.
Proof.
  induction fuel as [|fuel IH]; intros h d Hfuel.
  - cbn [BJC.dealer_loop].
    destruct (BJC.calculate_hand_value h <? 17) eqn:Hs; [|discriminate].
    apply Z.ltb_lt in Hs. pose proof (hard_total_le_value h). lia.
  - cbn [BJC.dealer_loop].
    destruct (BJC.calculate_hand_value h <? 17) eqn:Hs; [|discriminate].
    destruct (pop d) as [[c d']|]; [|discriminate].
    apply IH. pose proof (hard_total_snoc h c). lia.
Qed.

Lemma dealer_loop_plain_more_fuel (fuel : nat) :
  forall (h d : list Card) r,
    BJC.dealer_loop fuel h d = r -> r <> BJC.Unfinished ->
    forall fuel' : nat, (fuel <= fuel')%nat ->
    BJC.dealer_loop fuel' h d = r.
Proof.
  induction fuel as [|fuel IH]; intros h d r Hr Hne fuel' Hle.
  - cbn [BJC.dealer_loop] in Hr.
    destruct (BJC.calculate_hand_value h <? 17) eqn:Hs; [congruence|].
    destruct fuel'; cbn [BJC.dealer_loop]; rewrite Hs; exact Hr.
  - destruct fuel' as [|fuel']; [lia|].
    cbn [BJC.dealer_loop] in Hr |- *.
    destruct (BJC.calculate_hand_value h <? 17); [|exact Hr].
    destruct (pop d) as [[c d']|]; [|exact Hr].
    apply (IH _ _ _ Hr Hne). lia.
Qed.

(** With enough cards in the deck the loop of the top-level script returns,
    having drawn from the end of the deck until the value was 17 or more. *)
Lemma dealer_loop_plain_returns (fuel : nat) :
  forall h d : list Card,
    17 - hard_total h <= Z.of_nat fuel ->
    17 - hard_total h <= Z.of_nat (length d) ->
    exists (h' d' drawn : list Card),
      BJC.dealer_loop fuel h d = BJC.Returned (h', d') /\
      h' = h ++ drawn /\
      d = d' ++ rev drawn /\
      Z.of_nat (length drawn) <= Z.max 0 (17 - hard_total h) /\
      (forall n : nat,
          (n < length drawn)%nat ->
          BJC.calculate_hand_value (h ++ firstn n drawn) < 17) /\
      17 <= BJC.calculate_hand_value h'.
Proof.
  induction fuel as [|fuel IH]; intros h d Hfuel Hdeck.
  - cbn [BJC.dealer_loop].
    destruct (BJC.calculate_hand_value h <? 17) eqn:Hs.
    + apply Z.ltb_lt in Hs. pose proof (hard_total_le_value h). lia.
    + apply Z.ltb_ge in Hs. exists h, d, [].
      rewrite !app_nil_r.
      split_all; try assumption; try reflexivity; try (cbn [length]; lia).
  - cbn [BJC.dealer_loop].
    destruct (BJC.calculate_hand_value h <? 17) eqn:Hs.
    + apply Z.ltb_lt in Hs. pose proof (hard_total_le_value h) as Hlow.
      destruct (pop_nonempty d) as (c & d1 & Hpop & Hd); [lia|].
      rewrite Hpop. pose proof (hard_total_snoc h c) as Hup.
      assert (Hlen : length d = S (length d1)) by now apply pop_length in Hpop.
      destruct (IH (h ++ [c]) d1 ltac:(lia) ltac:(lia))
        as (h' & d' & drawn & Hloop & Hh' & Hd1 & Hdrawn & Hpre & Hstop).
      exists h', d', (c :: drawn).
      split; [exact Hloop|].
      split; [rewrite Hh', <- app_assoc; reflexivity|].
      split; [cbn [rev]; rewrite app_assoc, <- Hd1; exact Hd|].
      split; [cbn [length]; lia|].
      split; [|exact Hstop].
      intros [|n] Hn.
      * cbn [firstn]. now rewrite app_nil_r.
      * cbn [firstn]. cbn [length] in Hn.
        specialize (Hpre n ltac:(lia)).
        now rewrite <- app_assoc in Hpre.
    + apply Z.ltb_ge in Hs. exists h, d, [].
      rewrite !app_nil_r.
      split_all; try assumption; try reflexivity; try (cbn [length]; lia).
Qed.

(** ** The invariant of the v1.1 session *)

(** Two cards never make more than 21. *)
Lemma two_cards_value (h : list Card) :
  length h = 2%nat -> BJC_v11.calculate_hand_value h <= 21.
Proof.
  destruct h as [|[s1 r1] [|[s2 r2] [|c h]]]; try discriminate.
  intros _. destruct r1, r2; vm_compute; discriminate.
Qed.

Section SessionInvariant.
Context {R : Shuffler}.
Import BJC_v11.

Lemma new_deck_wf (n : nat) (e : Env R) :
  (1 <= n)%nat -> deck_wf (fst (new_deck n e)).
Proof.
  intros Hn. unfold new_deck.
  match goal with |- context [build_and_shuffle ?d e] =>
    pose proof (build_and_shuffle_spec R d e) as HB;
    destruct (build_and_shuffle d e) as [d' e'] end.
  destruct HB as (Hn' & Hp' & _). cbn [fst num_decks reshuffle_point] in *.
  unfold deck_wf. rewrite Hn', Hp'. split; [exact Hn | reflexivity].
Qed.

Lemma build_and_shuffle_wf (d : Deck) (e : Env R) :
  deck_wf d -> deck_wf (fst (build_and_shuffle d e)).
Proof.
  intros [Hn Hp].
  pose proof (build_and_shuffle_spec R d e) as HB.
  destruct (build_and_shuffle d e) as [d' e'].
  destruct HB as (Hn' & Hp' & _). cbn [fst].
  unfold deck_wf. rewrite Hn', Hp'. split; assumption.
Qed.

Lemma deal_initial_spec (d : Deck) (e : Env R) :
  deck_wf d ->
  exists c1 d1 e1 c2 d2 e2 c3 d3 e3 c4 d4 e4,
    deal d e = (Some c1, d1, e1) /\
    deal d1 e1 = (Some c2, d2, e2) /\
    deal d2 e2 = (Some c3, d3, e3) /\
    deal d3 e3 = (Some c4, d4, e4) /\
    deal_initial d e = ([c1; c3], [c2; c4], d4, e4) /\
    deck_wf d4.
Proof.
  intros Hwf.
  destruct (deal_spec R d e Hwf) as (c1 & d1 & e1 & H1 & Hwf1 & _).
  destruct (deal_spec R d1 e1 Hwf1) as (c2 & d2 & e2 & H2 & Hwf2 & _).
  destruct (deal_spec R d2 e2 Hwf2) as (c3 & d3 & e3 & H3 & Hwf3 & _).
  destruct (deal_spec R d3 e3 Hwf3) as (c4 & d4 & e4 & H4 & Hwf4 & _).
  exists c1, d1, e1, c2, d2, e2, c3, d3, e3, c4, d4, e4.
  split_all; try assumption.
  unfold deal_initial. rewrite H1, H2, H3, H4. reflexivity.
Qed.

Lemma reshuffle_before_deal_wf (s : Session R) :
  deck_wf (deck s) -> deck_wf (fst (reshuffle_before_deal s)).
Proof.
  intros Hwf. unfold reshuffle_before_deal.
  destruct (needs_reshuffle (deck s)); [|exact Hwf].
  now apply build_and_shuffle_wf.
Qed.

Lemma place_bet_inv (b : Q) (s : Session R) :
  session_inv s -> game_state s = BETTING ->
  session_inv (fst (place_bet b s)).
Proof.
  intros Hinv Hst. unfold place_bet.
  destruct (Qle_bool (1 # 100) b && Qle_bool b (player_money s)); [|exact Hinv].
  destruct Hinv as [Hwf _].
  pose proof (reshuffle_before_deal_wf s Hwf) as Hwf0.
  destruct (reshuffle_before_deal s) as [d0 e0]. cbn [fst] in Hwf0.
  destruct (deal_initial_spec d0 e0 Hwf0)
    as (c1 & d1 & e1 & c2 & d2 & e2 & c3 & d3 & e3 & c4 & d4 & e4
        & _ & _ & _ & _ & Hdi & Hwf4).
  rewrite Hdi. cbn [fst].
  pose proof (two_cards_value [c1; c3] eq_refl) as Hp.
  pose proof (two_cards_value [c2; c4] eq_refl) as Hd.
  unfold session_inv.
  cbn [deck game_state round_over player_busted dealer_busted
       player_blackjack dealer_blackjack player_hand dealer_hand].
  split; [exact Hwf4|].
  unfold is_blackjack. cbn [length Nat.eqb andb].
  destruct (calculate_hand_value [c1; c3] =? 21) eqn:E1;
    destruct (calculate_hand_value [c2; c4] =? 21) eqn:E2;
    cbn [orb]; split_all; try reflexivity; try assumption; try lia.
Qed.

Lemma display_betting_screen_inv (click : option Q) (s : Session R) :
  session_inv s -> game_state s = BETTING ->
  session_inv (fst (display_betting_screen click s)).
Proof.
  intros Hinv Hst. unfold display_betting_screen. cbv zeta.
  destruct (Qle_bool (player_money s) 0).
  - split; [apply Hinv | exact I].
  - destruct (negb (Qle_bool (1 # 100) (player_money s))); [exact Hinv|].
    destruct click as [b|]; [now apply place_bet_inv | exact Hinv].
Qed.

Lemma is_bust_two_cards (h : list Card) :
  length h = 2%nat -> is_bust h = false.
Proof.
  intros H. unfold is_bust. apply Z.ltb_ge. now apply two_cards_value.
Qed.

Lemma is_blackjack_value (h : list Card) :
  calculate_hand_value h <> 21 -> is_blackjack h = false.
Proof.
  intros H. unfold is_blackjack. apply Z.eqb_neq in H. rewrite H.
  apply andb_false_r.
Qed.

Lemma is_blackjack_length (h : list Card) :
  length h <> 2%nat -> is_blackjack h = false.
Proof.
  intros H. unfold is_blackjack. apply Nat.eqb_neq in H. now rewrite H.
Qed.

Lemma hit_inv (s : Session R) :
  session_inv s -> game_state s = PLAYER_TURN -> session_inv (hit s).
Proof.
  intros [Hwf Hinv] Hst. rewrite Hst in Hinv.
  destruct Hinv
    as (Hro & Hpb & Hdb & Hpj & Hdj & Hlen & Hval & Hnbj & Hdl & Hdv).
  unfold hit.
  destruct (deal_spec R (deck s) (env s) Hwf) as (c & d & e & Hdeal & Hwf' & _).
  rewrite Hdeal. cbn [add_card].
  unfold session_inv.
  cbn [deck game_state round_over player_busted dealer_busted
       player_blackjack dealer_blackjack player_hand dealer_hand].
  split; [exact Hwf'|].
  assert (Hlen' : length (player_hand s ++ [c]) = S (length (player_hand s)))
    by (rewrite length_app; simpl; lia).
  destruct (21 <? calculate_hand_value (player_hand s ++ [c])) eqn:Hb.
  - intros _. unfold flags_agree.
    cbn [player_busted dealer_busted player_blackjack dealer_blackjack
         player_hand dealer_hand].
    split_all.
    + unfold is_bust. now rewrite Hb.
    + rewrite Hdb. symmetry. now apply is_bust_two_cards.
    + rewrite Hpj. symmetry. apply is_blackjack_length. lia.
    + rewrite Hdj. symmetry. now apply is_blackjack_value.
  - rewrite Hst. apply Z.ltb_ge in Hb.
    split_all; try assumption; try lia.
    apply is_blackjack_length. lia.
Qed.

Lemma stand_inv (s : Session R) :
  session_inv s -> game_state s = PLAYER_TURN -> session_inv (stand s).
Proof.
  intros [Hwf Hinv] Hst. rewrite Hst in Hinv.
  destruct Hinv
    as (Hro & Hpb & Hdb & Hpj & Hdj & Hlen & Hval & Hnbj & Hdl & Hdv).
  unfold stand, set_game_state, session_inv.
  cbn [deck game_state round_over player_busted dealer_busted
       player_blackjack dealer_blackjack player_hand dealer_hand].
  split_all; try assumption; try congruence.
  rewrite Hdj. symmetry. now apply is_blackjack_value.
Qed.

Lemma double_down_inv (s s' : Session R) :
  session_inv s -> game_state s = PLAYER_TURN ->
  double_down s = Some s' -> session_inv s'.
Proof.
  intros [Hwf Hinv] Hst. rewrite Hst in Hinv.
  destruct Hinv
    as (Hro & Hpb & Hdb & Hpj & Hdj & Hlen & Hval & Hnbj & Hdl & Hdv).
  unfold double_down. destruct (can_double_down s) eqn:Hcan; [|discriminate].
  destruct (deal_spec R (deck s) (env s) Hwf) as (c & d & e & Hdeal & Hwf' & _).
  rewrite Hdeal. cbn [add_card]. intros [= <-].
  unfold session_inv.
  cbn [deck game_state round_over player_busted dealer_busted
       player_blackjack dealer_blackjack player_hand dealer_hand].
  split; [exact Hwf'|].
  assert (Hlen' : length (player_hand s ++ [c]) = S (length (player_hand s)))
    by (rewrite length_app; simpl; lia).
  destruct (21 <? calculate_hand_value (player_hand s ++ [c])) eqn:Hb.
  - intros _. unfold flags_agree.
    cbn [player_busted dealer_busted player_blackjack dealer_blackjack
         player_hand dealer_hand].
    split_all.
    + unfold is_bust. now rewrite Hb.
    + rewrite Hdb. symmetry. now apply is_bust_two_cards.
    + rewrite Hpj. symmetry. apply is_blackjack_length. lia.
    + rewrite Hdj. symmetry. now apply is_blackjack_value.
  - apply Z.ltb_ge in Hb.
    split_all; try assumption; try lia.
    + rewrite Hpj. symmetry. apply is_blackjack_length. lia.
    + rewrite Hdj. symmetry. now apply is_blackjack_value.
Qed.

Lemma process_dealer_turn_inv (fuel : nat) (s s' : Session R) :
  session_inv s -> game_state s = DEALER_TURN ->
  process_dealer_turn fuel s = Some s' -> session_inv s'.
Proof.
  intros [Hwf Hinv] Hst. rewrite Hst in Hinv.
  destruct Hinv as (Hro & Hpb & Hdb & Hval & Hpj & Hdj & Hdl).
  unfold process_dealer_turn. rewrite Hpb. cbn [negb].
  destruct (dealer_loop fuel (dealer_hand s) (deck s) (env s))
    as [[[dh d] e]|] eqn:Hloop; [|discriminate].
  intros [= <-].
  destruct (dealer_loop_returns (Z.to_nat (17 - hard_total (dealer_hand s)))
              (dealer_hand s) (deck s) (env s) Hwf ltac:(lia))
    as (h' & d' & e' & drawn & Hloop' & Hwf' & Hh' & _ & Hpre & Hstop).
  assert (Hsame : Some (dh, d, e) = Some (h', d', e')).
  { destruct (Nat.le_ge_cases
                fuel (Z.to_nat (17 - hard_total (dealer_hand s))))
      as [Hle|Hle].
    - rewrite <- Hloop'. symmetry.
      eapply dealer_loop_more_fuel; eassumption.
    - rewrite <- Hloop. eapply dealer_loop_more_fuel; eassumption. }
  injection Hsame as -> -> ->.
  unfold session_inv.
  cbn [deck game_state round_over player_busted dealer_busted
       player_blackjack dealer_blackjack player_hand dealer_hand].
  split; [exact Hwf'|]. intros _. unfold flags_agree.
  cbn [player_busted dealer_busted player_blackjack dealer_blackjack
       player_hand dealer_hand].
  split_all.
  - symmetry. unfold is_bust. now apply Z.ltb_ge.
  - unfold is_bust. rewrite Hdb. now destruct (21 <? calculate_hand_value h').
  - exact Hpj.
  - rewrite Hdj. destruct drawn as [|c drawn].
    + rewrite app_nil_r in Hh'. now subst.
    + specialize (Hpre O ltac:(simpl; lia)). cbn [firstn] in Hpre.
      rewrite app_nil_r in Hpre. apply should_hit_iff in Hpre.
      rewrite (is_blackjack_value (dealer_hand s)) by lia.
      symmetry. apply is_blackjack_length.
      subst h'. rewrite length_app. simpl. lia.
Qed.

Lemma initialize_game_inv (g : rng R) : session_inv (initialize_game g).
Proof.
  unfold initialize_game.
  pose proof (new_deck_wf NUM_DECKS {| rand := g; reshuffled_message := false |}
                ltac:(unfold NUM_DECKS; lia)) as Hwf.
  destruct (new_deck NUM_DECKS _) as [d e]. cbn [fst] in Hwf.
  split; [exact Hwf | exact I].
Qed.

Lemma play_home_inv (s : Session R) : session_inv (play_home s).
Proof.
  unfold play_home.
  pose proof (new_deck_wf NUM_DECKS (env s)
                ltac:(unfold NUM_DECKS; lia)) as Hwf.
  destruct (new_deck NUM_DECKS _) as [d e]. cbn [fst] in Hwf.
  split; [exact Hwf | exact I].
Qed.

Lemma process_showdown_inv (s : Session R) :
  session_inv s -> game_state s = SHOWDOWN ->
  session_inv (process_showdown s).
Proof.
  intros [Hwf _] Hst. unfold process_showdown.
  destruct (determine_outcome s) as [[m pm] dm].
  split; [exact Hwf|].
  cbn [game_state round_over].
  destruct (Qle_bool pm 0); [exact I|].
  destruct (Qle_bool dm 0); [exact I|].
  rewrite Hst. discriminate.
Qed.

(** Every reachable session of v1.1 satisfies the invariant. *)
Lemma reachable_inv (s : Session R) : reachable s -> session_inv s.
Proof.
  induction 1 as [g | s s' Hreach IH Hstep].
  - apply initialize_game_inv.
  - destruct Hstep.
    + apply play_home_inv.
    + now apply display_betting_screen_inv.
    + now apply hit_inv.
    + now apply stand_inv.
    + eapply double_down_inv; eassumption.
    + eapply process_dealer_turn_inv; eassumption.
    + now apply process_showdown_inv.
    + split; [apply IH | exact I].
    + apply initialize_game_inv.
Qed.

End SessionInvariant.

(** ** The invariant of the top-level session *)

Lemma two_cards_value_plain (h : list Card) :
  length h = 2%nat -> BJC.calculate_hand_value h <= 21.
Proof.
  intros H. rewrite <- calculate_hand_value_agree. now apply two_cards_value.
Qed.

(** A hand that is not bust holds at most 21 cards. *)
Lemma length_le_value (h : list Card) :
  Z.of_nat (length h) <= BJC.calculate_hand_value h.
Proof.
  pose proof (length_le_hard_total h). pose proof (hard_total_le_value h). lia.
Qed.

Section RoundInvariant.

Context {R : Shuffler}.

Import BJC.

Lemma play_inv (s : Session R) : round_inv (play s).
Proof.
  unfold play.
  pose proof (shuffle_length R (rand s) one_deck) as H.
  destruct (shuffle R (rand s) one_deck) as [d g]. cbn [fst] in H.
  unfold round_inv. cbn [game_phase deck]. now rewrite H.
Qed.

Lemma place_bet_round_inv (b : Q) (s s' : Session R) (f : Feedback) :
  round_inv s -> game_phase s = betting ->
  place_bet b s = Some (s', f) -> round_inv s'.
Proof.
  intros Hinv Hph. unfold place_bet.
  destruct (negb (Qle_bool b (player_money s))).
  - now intros [= <- <-].
  - unfold round_inv in Hinv. rewrite Hph in Hinv.
    destruct (pop (deck s)) as [[c1 d1]|] eqn:H1; [|discriminate].
    destruct (pop d1) as [[c2 d2]|] eqn:H2; [|discriminate].
    destruct (pop d2) as [[c3 d3]|] eqn:H3; [|discriminate].
    destruct (pop d3) as [[c4 d4]|] eqn:H4; [|discriminate].
    intros [= <- <-].
    apply pop_length in H1, H2, H3, H4.
    unfold round_inv. cbn [game_phase deck player_hand dealer_hand length].
    split_all; [lia | reflexivity | now apply two_cards_value_plain].
Qed.

Lemma hit_round_inv (s s' : Session R) :
  round_inv s -> game_phase s = player_turn ->
  hit s = Some s' -> round_inv s'.
Proof.
  intros Hinv Hph. unfold round_inv in Hinv. rewrite Hph in Hinv.
  destruct Hinv as (Hsum & Hdl & Hval).
  unfold hit. destruct (pop (deck s)) as [[c d]|] eqn:Hpop; [|discriminate].
  intros [= <-]. apply pop_length in Hpop.
  unfold round_inv. cbn [game_phase deck player_hand dealer_hand].
  destruct (21 <? calculate_hand_value (player_hand s ++ [c])) eqn:Hb;
    [exact I|].
  rewrite Hph. apply Z.ltb_ge in Hb. rewrite length_app. cbn [length].
  split_all; [lia | exact Hdl | exact Hb].
Qed.

Lemma stand_round_inv (s : Session R) :
  round_inv s -> game_phase s = player_turn -> round_inv (stand s).
Proof.
  intros Hinv Hph. unfold round_inv in Hinv |- *. rewrite Hph in Hinv.
  exact Hinv.
Qed.

Lemma result_phase_inv (again : bool) (s : Session R) :
  game_phase s = result -> round_inv (result_phase again s).
Proof.
  intros Hph. unfold result_phase.
  destruct (determine_winner s) as [[m pm] dm].
  destruct (Qle_bool pm 0 || Qle_bool dm 0 || negb again).
  - unfold round_inv. cbn [game_phase]. now rewrite Hph.
  - pose proof (shuffle_length R (rand s) one_deck) as H.
    destruct (shuffle R (rand s) one_deck) as [d g]. cbn [fst] in H.
    unfold round_inv. cbn [game_phase deck]. now rewrite H.
Qed.

Lemma dealer_turn_phase_inv (fuel : nat) (s s' : Session R) :
  dealer_turn_phase fuel s = Returned s' -> round_inv s'.
Proof.
  unfold dealer_turn_phase.
  destruct (dealer_loop fuel (dealer_hand s) (deck s)) as [[dh d]| |];
    try discriminate.
  intros [= <-]. exact I.
Qed.

Lemma reachable_round_inv (s : Session R) : reachable s -> round_inv s.
Proof.
  induction 1 as [g | s s' Hreach IH Hstep].
  - exact I.
  - destruct Hstep.
    + exact I.
    + exact I.
    + apply play_inv.
    + eapply place_bet_round_inv; eassumption.
    + eapply hit_round_inv; eassumption.
    + now apply stand_round_inv.
    + eapply dealer_turn_phase_inv; eassumption.
    + now apply result_phase_inv.
Qed.

(** In a reachable session no [pop()] of the top-level script finds the
    deck empty. *)
Lemma place_bet_no_index_error (b : Q) (s : Session R) :
  reachable s -> game_phase s = betting ->
  exists s' f, place_bet b s = Some (s', f).
Proof.
  intros Hr Hph. apply reachable_round_inv in Hr.
  unfold round_inv in Hr. rewrite Hph in Hr.
  unfold place_bet. destruct (negb (Qle_bool b (player_money s))).
  - now exists s, BetExceedsBalance.
  - destruct (pop_nonempty (deck s)) as (c1 & d1 & -> & E1); [lia|].
    assert (L1 : length d1 = 51%nat)
      by (rewrite E1, length_app in Hr; simpl in Hr; lia).
    destruct (pop_nonempty d1) as (c2 & d2 & -> & E2); [lia|].
    assert (L2 : length d2 = 50%nat)
      by (rewrite E2, length_app in L1; simpl in L1; lia).
    destruct (pop_nonempty d2) as (c3 & d3 & -> & E3); [lia|].
    assert (L3 : length d3 = 49%nat)
      by (rewrite E3, length_app in L2; simpl in L2; lia).
    destruct (pop_nonempty d3) as (c4 & d4 & -> & E4); [lia|].
    eexists _, _. reflexivity.
Qed.

Lemma hit_no_index_error (s : Session R) :
  reachable s -> game_phase s = player_turn ->
  (29 <= length (deck s))%nat /\ exists s', hit s = Some s'.
Proof.
  intros Hr Hph. apply reachable_round_inv in Hr.
  unfold round_inv in Hr. rewrite Hph in Hr.
  destruct Hr as (Hsum & Hdl & Hval).
  pose proof (length_le_value (player_hand s)) as Hlen.
  split; [lia|]. unfold hit.
  destruct (pop_nonempty (deck s)) as (c & d & -> & _); [lia|].
  eexists. reflexivity.
Qed.

Lemma dealer_turn_no_index_error (s : Session R) :
  reachable s -> game_phase s = dealer_turn ->
  exists (s' : Session R) (drawn : list Card),
    (forall fuel : nat,
        (17 <= fuel)%nat -> dealer_turn_phase fuel s = Returned s') /\
    game_phase s' = result /\
    dealer_hand s' = dealer_hand s ++ drawn /\
    deck s = deck s' ++ rev drawn /\
    (14 <= length (deck s'))%nat /\
    (forall n : nat,
        (n < length drawn)%nat ->
        calculate_hand_value (dealer_hand s ++ firstn n drawn) < 17) /\
    17 <= calculate_hand_value (dealer_hand s').
Proof.
  intros Hr Hph. apply reachable_round_inv in Hr.
  unfold round_inv in Hr. rewrite Hph in Hr.
  destruct Hr as (Hsum & Hdl & Hval).
  pose proof (length_le_value (player_hand s)) as Hlen.
  pose proof (length_le_hard_total (dealer_hand s)) as Hhard.
  destruct (dealer_loop_plain_returns 17 (dealer_hand s) (deck s)
              ltac:(lia) ltac:(lia))
    as (h' & d' & drawn & Hloop & Hh' & Hd & Hdrawn & Hpre & Hstop).
  eexists _, drawn. split.
  - intros fuel Hfuel. unfold dealer_turn_phase.
    rewrite (dealer_loop_plain_more_fuel 17 _ _ _ Hloop ltac:(discriminate)
               fuel Hfuel).
    reflexivity.
  - cbn [game_phase dealer_hand deck].
    split_all; try assumption; try reflexivity.
    assert (Hsplit : length (deck s) = (length d' + length drawn)%nat)
      by (rewrite Hd, length_app, length_rev; reflexivity).
    lia.
Qed.

End RoundInvariant.

(** ** The claims about the shoe and the dealer *)

(** In a reachable session of the top-level script the cards that the bet
    handler and "Hit" pop are the last cards of the deck, and they end up
    in the hands. *)
Lemma place_bet_pops_four (R : Shuffler) (b : Q) (s : BJC.Session R) :
  BJC.reachable s -> BJC.game_phase s = BJC.betting ->
  exists (s' : BJC.Session R) (f : BJC.Feedback),
    BJC.place_bet b s = Some (s', f) /\
    (f = BJC.Accepted <-> (b <= BJC.player_money s)%Q) /\
    (f = BJC.BetExceedsBalance -> s' = s) /\
    (f = BJC.Accepted ->
     exists c1 c2 c3 c4 : Card,
       BJC.deck s = BJC.deck s' ++ [c4; c3; c2; c1] /\
       BJC.player_hand s' = [c1; c2] /\
       BJC.dealer_hand s' = [c3; c4]).
Proof.
  intros Hr Hph. apply reachable_round_inv in Hr.
  unfold round_inv in Hr. rewrite Hph in Hr.
  unfold BJC.place_bet.
  destruct (Qle_bool b (BJC.player_money s)) eqn:E; cbn [negb].
  - apply Qle_bool_iff in E.
    destruct (pop_nonempty (BJC.deck s)) as (c1 & d1 & -> & E1); [lia|].
    assert (L1 : length d1 = 51%nat)
      by (rewrite E1, length_app in Hr; simpl in Hr; lia).
    destruct (pop_nonempty d1) as (c2 & d2 & -> & E2); [lia|].
    assert (L2 : length d2 = 50%nat)
      by (rewrite E2, length_app in L1; simpl in L1; lia).
    destruct (pop_nonempty d2) as (c3 & d3 & -> & E3); [lia|].
    assert (L3 : length d3 = 49%nat)
      by (rewrite E3, length_app in L2; simpl in L2; lia).
    destruct (pop_nonempty d3) as (c4 & d4 & -> & E4); [lia|].
    eexists _, _. split; [reflexivity|].
    split; [split; [intros _; exact E | reflexivity]|].
    split; [discriminate|]. intros _.
    exists c1, c2, c3, c4. cbn [BJC.deck BJC.player_hand BJC.dealer_hand].
    split; [|split; reflexivity].
    rewrite E1, E2, E3, E4. rewrite <- !app_assoc. reflexivity.
  - exists s, BJC.BetExceedsBalance. split; [reflexivity|].
    split; [split; [discriminate|]|split; [reflexivity | discriminate]].
    intros H. apply Qle_bool_iff in H. congruence.
Qed.

Lemma hit_pops_last (R : Shuffler) (s : BJC.Session R) :
  BJC.reachable s -> BJC.game_phase s = BJC.player_turn ->
  exists (c : Card) (s' : BJC.Session R),
    BJC.hit s = Some s' /\
    BJC.deck s = BJC.deck s' ++ [c] /\
    BJC.player_hand s' = BJC.player_hand s ++ [c] /\
    BJC.dealer_hand s' = BJC.dealer_hand s.
Proof.
  intros Hr Hph. apply reachable_round_inv in Hr.
  unfold round_inv in Hr. rewrite Hph in Hr.
  destruct Hr as (Hsum & Hdl & Hval).
  pose proof (length_le_value (BJC.player_hand s)) as Hlen.
  unfold BJC.hit.
  destruct (pop_nonempty (BJC.deck s)) as (c & d & -> & E); [lia|].
  exists c. eexists. split; [reflexivity|].
  cbn [BJC.deck BJC.player_hand BJC.dealer_hand].
  split_all; [exact E | reflexivity | reflexivity].
Qed.

(** C3.  Dealing never fails.  In v1.1 every reachable session holds a
    well-formed shoe, and [deal] on a well-formed shoe always returns a
    card: when the number of cards left is at or below
    [52 * num_decks * RESHUFFLE_THRESHOLD] (an empty shoe included) the
    shoe is first rebuilt as a permutation of [52 * num_decks] fresh cards,
    and the card returned is the last card of the shoe dealt from.  In the
    top-level script, which builds a new 52-card deck for each round and
    has no reshuffle, no [pop()] finds the deck empty in a reachable
    session, and every card taken is the last card of the deck and goes to
    a hand: an accepted bet takes the last four cards of a deck of 52 into
    the two hands, a hit finds at least 29 cards and appends the last one
    to the player's hand, and the dealer's turn appends the cards it takes
    from the end of the deck to the dealer's hand, one for each pass that
    found the hand below 17, and leaves at least 14, so the deck is never
    down to a quarter of its size when a card is taken. *)
Theorem C3_deal_always_returns_a_card (R : Shuffler) :
  (forall s : BJC_v11.Session R,
      BJC_v11.reachable s -> deck_wf (BJC_v11.deck s)) /\
  (forall (d : BJC_v11.Deck) (e : BJC_v11.Env R),
      deck_wf d ->
      (BJC_v11.needs_reshuffle d = true <->
       (inject_Z (Z.of_nat (length (BJC_v11.cards d))) <=
        inject_Z (52 * Z.of_nat (BJC_v11.num_decks d))
        * BJC_v11.RESHUFFLE_THRESHOLD)%Q) /\
      exists (c : Card) (d' : BJC_v11.Deck) (e' : BJC_v11.Env R),
        BJC_v11.deal d e = (Some c, d', e') /\
        deck_wf d' /\
        BJC_v11.num_decks d' = BJC_v11.num_decks d /\
        if BJC_v11.needs_reshuffle d then
          exists rebuilt : list Card,
            Permutation rebuilt
                        (BJC_v11.fresh_cards (BJC_v11.num_decks d)) /\
            length rebuilt = (52 * BJC_v11.num_decks d)%nat /\
            rebuilt = BJC_v11.cards d' ++ [c] /\
            BJC_v11.reshuffled_message e' = true
        else
          BJC_v11.cards d = BJC_v11.cards d' ++ [c] /\ e' = e) /\
  (forall s : BJC.Session R,
      BJC.reachable s ->
      (BJC.game_phase s = BJC.betting ->
       length (BJC.deck s) = 52%nat /\
       forall b : Q,
       exists (s' : BJC.Session R) (f : BJC.Feedback),
         BJC.place_bet b s = Some (s', f) /\
         (f = BJC.Accepted <-> (b <= BJC.player_money s)%Q) /\
         (f = BJC.BetExceedsBalance -> s' = s) /\
         (f = BJC.Accepted ->
          exists c1 c2 c3 c4 : Card,
            BJC.deck s = BJC.deck s' ++ [c4; c3; c2; c1] /\
            BJC.player_hand s' = [c1; c2] /\
            BJC.dealer_hand s' = [c3; c4])) /\
      (BJC.game_phase s = BJC.player_turn ->
       (29 <= length (BJC.deck s))%nat /\
       exists (c : Card) (s' : BJC.Session R),
         BJC.hit s = Some s' /\
         BJC.deck s = BJC.deck s' ++ [c] /\
         BJC.player_hand s' = BJC.player_hand s ++ [c] /\
         BJC.dealer_hand s' = BJC.dealer_hand s) /\
      (BJC.game_phase s = BJC.dealer_turn ->
       exists (s' : BJC.Session R) (drawn : list Card),
         (forall fuel : nat,
             (17 <= fuel)%nat ->
             BJC.dealer_turn_phase fuel s = BJC.Returned s') /\
         BJC.dealer_hand s' = BJC.dealer_hand s ++ drawn /\
         BJC.deck s = BJC.deck s' ++ rev drawn /\
         BJC.player_hand s' = BJC.player_hand s /\
         (14 <= length (BJC.deck s'))%nat /\
         (forall n : nat,
             (n < length drawn)%nat ->
             BJC.calculate_hand_value (BJC.dealer_hand s ++ firstn n drawn)
             < 17) /\
         17 <= BJC.calculate_hand_value (BJC.dealer_hand s'))).
Proof.
  split; [|split].
  - intros s Hr. now apply reachable_inv in Hr as [Hwf _].
  - intros d e Hwf. split; [now apply needs_reshuffle_threshold|].
    now apply deal_spec.
  - intros s Hr. split; [|split]; intros Hph.
    + split.
      * apply reachable_round_inv in Hr. unfold round_inv in Hr.
        now rewrite Hph in Hr.
      * intros b. now apply place_bet_pops_four.
    + split; [now apply hit_no_index_error | now apply hit_pops_last].
    + destruct (dealer_turn_no_index_error s Hr Hph)
        as (s' & drawn & H & _ & Hdh & Hdk & Hleft & Hpre & Hstop).
      exists s', drawn. split_all; try assumption.
      specialize (H 17%nat (le_n _)).
      unfold BJC.dealer_turn_phase in H.
      destruct (BJC.dealer_loop 17 _ _) as [[dh d]| |]; try discriminate.
      injection H as <-. reflexivity.
Qed.

Lemma seated_plain_reachable : BJC.reachable seated_plain.
Proof.
  apply (BJC.reachable_step table_plain).
  - apply (BJC.reachable_step
             (BJC.initialize_session_state (R := identity_shuffler) tt)).
    + apply BJC.reachable_init.
    + apply BJC.step_play. reflexivity.
  - apply (BJC.step_place_bet table_plain (10 : Q) seated_plain
                              BJC.Accepted); reflexivity.
Qed.

(** An empty four-deck shoe is rebuilt by [deal], which then returns the
    last card of the rebuilt shoe; and "Hit" in the top-level session
    [seated_plain] takes the last card of the deck into the player's
    hand. *)
Lemma C3_deal_always_returns_a_card_witness :
  (deck_wf empty_shoe /\
   exists (c : Card) (d' : BJC_v11.Deck) (e' : BJC_v11.Env identity_shuffler),
     BJC_v11.deal empty_shoe plain_env = (Some c, d', e') /\
     deck_wf d' /\
     BJC_v11.num_decks d' = 4%nat /\
     exists rebuilt : list Card,
       Permutation rebuilt (BJC_v11.fresh_cards 4) /\
       length rebuilt = 208%nat /\
       rebuilt = BJC_v11.cards d' ++ [c] /\
       BJC_v11.reshuffled_message e' = true) /\
  (BJC.reachable seated_plain /\
   BJC.game_phase seated_plain = BJC.player_turn /\
   (29 <= length (BJC.deck seated_plain))%nat /\
   exists (c : Card) (s' : BJC.Session identity_shuffler),
     BJC.hit seated_plain = Some s' /\
     BJC.deck seated_plain = BJC.deck s' ++ [c] /\
     BJC.player_hand s' = BJC.player_hand seated_plain ++ [c] /\
     BJC.dealer_hand s' = BJC.dealer_hand seated_plain).
Proof.
  assert (Hwf : deck_wf empty_shoe) by (split; [cbv; lia | reflexivity]).
  split.
  - split; [exact Hwf|].
    exact (proj2 (proj1 (proj2
             (C3_deal_always_returns_a_card identity_shuffler))
             empty_shoe plain_env Hwf)).
  - split; [exact seated_plain_reachable|]. split; [reflexivity|].
    exact (proj1 (proj2 (proj2 (proj2
             (C3_deal_always_returns_a_card identity_shuffler))
             seated_plain seated_plain_reachable))
             eq_refl).
Defined.

(** What [process_dealer_turn] of v1.1 does when the player has not
    busted, on a well-formed shoe. *)
Lemma process_dealer_turn_plays (R : Shuffler) (s : BJC_v11.Session R) :
  deck_wf (BJC_v11.deck s) ->
  BJC_v11.player_busted s = false ->
  exists (s' : BJC_v11.Session R) (drawn : list Card),
    (forall fuel : nat,
        (17 <= fuel)%nat -> BJC_v11.process_dealer_turn fuel s = Some s') /\
    BJC_v11.game_state s' = BJC_v11.SHOWDOWN /\
    BJC_v11.dealer_hand s' = BJC_v11.dealer_hand s ++ drawn /\
    BJC_v11.player_hand s' = BJC_v11.player_hand s /\
    (forall n : nat,
        (n < length drawn)%nat ->
        BJC_v11.should_hit (BJC_v11.dealer_hand s ++ firstn n drawn) = true) /\
    BJC_v11.should_hit (BJC_v11.dealer_hand s') = false /\
    17 <= BJC_v11.calculate_hand_value (BJC_v11.dealer_hand s').
Proof.
  intros Hwf Hpb.
  pose proof (length_le_hard_total (BJC_v11.dealer_hand s)) as Hhard.
  destruct (dealer_loop_returns 17 (BJC_v11.dealer_hand s) (BJC_v11.deck s)
              (BJC_v11.env s) Hwf ltac:(lia))
    as (h' & d' & e' & drawn & Hloop & _ & Hh' & _ & Hpre & Hstop).
  eexists _, drawn. split.
  - intros fuel Hfuel. unfold BJC_v11.process_dealer_turn.
    rewrite Hpb. cbn [negb].
    rewrite (dealer_loop_more_fuel 17 _ _ _ _ Hloop fuel Hfuel).
    reflexivity.
  - cbn [BJC_v11.game_state BJC_v11.dealer_hand BJC_v11.player_hand].
    split_all; try assumption; try reflexivity.
    now apply should_hit_false_iff.
Qed.



(** ** Termination of the dealer's loop *)

(** The reason given in C8 does not hold: a drawn card need not raise the
    value of the hand.  The dealer must hit on Ace and Five (16); a King
    then leaves the value at 16, and a Nine lowers it to 15. *)
Lemma C8_value_need_not_increase :
  BJC_v11.should_hit [mkCard Spades RA; mkCard Hearts R5] = true /\
  ~ (BJC_v11.calculate_hand_value [mkCard Spades RA; mkCard Hearts R5]
     < BJC_v11.calculate_hand_value
         ([mkCard Spades RA; mkCard Hearts R5] ++ [mkCard Clubs RK])) /\
  BJC_v11.calculate_hand_value
    ([mkCard Spades RA; mkCard Hearts R5] ++ [mkCard Clubs R9])
  < BJC_v11.calculate_hand_value [mkCard Spades RA; mkCard Hearts R5].
Proof.
  split; [reflexivity|]. split; [|reflexivity].
  vm_compute. intros H. discriminate H.
Qed.

(** C8, amended.  The dealer's loop ends for every starting hand and shoe:
    each drawn card raises the hard total of the hand (Aces counted as 1)
    by at least 1 and the value of a hand is never below its hard total,
    so the test [value < 17] fails after at most 17 draws.  In v1.1, on a
    well-formed shoe, the loop returns and any fuel from 17 on gives the
    same result; in the top-level script the loop returns or stops with the
    [IndexError] of an empty deck, again the same for any fuel from 17
    on. *)
Theorem C8_dealer_loop_terminates (R : Shuffler) :
  (forall (h : list Card) (c : Card),
      hard_total h < hard_total (h ++ [c]) /\
      hard_total h <= BJC_v11.calculate_hand_value h /\
      hard_total h <= BJC.calculate_hand_value h) /\
  (forall (h : BJC_v11.Hand) (d : BJC_v11.Deck) (e : BJC_v11.Env R),
      deck_wf d ->
      exists (r : BJC_v11.Hand * BJC_v11.Deck * BJC_v11.Env R)
             (drawn : list Card),
        (forall fuel : nat,
            (17 <= fuel)%nat -> BJC_v11.dealer_loop fuel h d e = Some r) /\
        fst (fst r) = h ++ drawn /\
        Z.of_nat (length drawn) <= Z.max 0 (17 - hard_total h)) /\
  (forall h d : list Card,
      exists r : BJC.Run (list Card * list Card),
        r <> BJC.Unfinished /\
        forall fuel : nat,
          (17 <= fuel)%nat -> BJC.dealer_loop fuel h d = r).
Proof.
  split_all.
  - intros h c. pose proof (hard_total_snoc h c).
    split_all;
      [lia | apply hard_total_le_value_v11 | apply hard_total_le_value].
  - intros h d e Hwf.
    pose proof (length_le_hard_total h) as Hhard.
    destruct (dealer_loop_returns 17 h d e Hwf ltac:(lia))
      as (h' & d' & e' & drawn & Hloop & _ & Hh' & Hlen & _).
    exists (h', d', e'), drawn. split_all; try assumption.
    intros fuel Hfuel.
    exact (dealer_loop_more_fuel 17 _ _ _ _ Hloop fuel Hfuel).
  - intros h d.
    pose proof (length_le_hard_total h) as Hhard.
    exists (BJC.dealer_loop 17 h d). split.
    + apply dealer_loop_plain_ends. lia.
    + intros fuel Hfuel.
      apply (dealer_loop_plain_more_fuel 17 h d _ eq_refl); [|exact Hfuel].
      apply dealer_loop_plain_ends. lia.
Qed.

(** The dealer's loop on Ace and Five, dealing from an empty four-deck
    shoe. *)
Lemma C8_dealer_loop_terminates_witness :
  deck_wf empty_shoe /\
  exists (r : BJC_v11.Hand * BJC_v11.Deck * BJC_v11.Env identity_shuffler)
         (drawn : list Card),
    (forall fuel : nat,
        (17 <= fuel)%nat ->
        BJC_v11.dealer_loop fuel [mkCard Spades RA; mkCard Hearts R5]
                            empty_shoe plain_env = Some r) /\
    fst (fst r) = [mkCard Spades RA; mkCard Hearts R5] ++ drawn /\
    Z.of_nat (length drawn)
    <= Z.max 0 (17 - hard_total [mkCard Spades RA; mkCard Hearts R5]).
Proof.
  assert (Hwf : deck_wf empty_shoe) by (split; [cbv; lia | reflexivity]).
  split; [exact Hwf|].
  exact (proj1 (proj2 (C8_dealer_loop_terminates identity_shuffler))
               [mkCard Spades RA; mkCard Hearts R5] empty_shoe plain_env Hwf).
Defined.

(** ** Placing a bet *)





(** The guard of the v1.1 handler is a minimum of 0.01, the minimum of
    the number input itself: an amount of half a cent, which the input
    does not deliver, would be turned down. *)
Example guard_minimum_is_one_cent :
  BJC_v11.game_state lobby_v11 = BJC_v11.BETTING /\
  (BJC_v11.player_money lobby_v11 == 500)%Q /\
  snd (BJC_v11.place_bet (1 # 200) lobby_v11) = BJC_v11.InvalidBetAmount /\
  snd (BJC_v11.place_bet (1 # 100) lobby_v11) = BJC_v11.Accepted.
Proof. split_all; reflexivity. Qed.



(** ** The opening deal *)

(** The claim as stated fails on the top-level script: of the four cards
    popped from the deck the player holds the first and the second, the
    dealer the third and the fourth. *)
Lemma C7_top_level_deals_two_and_two :
  exists (c1 c2 c3 c4 : Card) (rest : list Card)
         (s' : BJC.Session identity_shuffler),
    BJC.deck table_plain = rest ++ [c4; c3; c2; c1] /\
    BJC.place_bet 10 table_plain = Some (s', BJC.Accepted) /\
    BJC.deck s' = rest /\
    BJC.player_hand s' = [c1; c2] /\
    BJC.dealer_hand s' = [c3; c4] /\
    BJC.player_hand s' <> [c1; c3] /\
    BJC.dealer_hand s' <> [c2; c4].
Proof.
  exists (mkCard Spades RA), (mkCard Spades RK), (mkCard Spades RQ),
         (mkCard Spades RJ), (firstn 48 one_deck).
  eexists. split; [reflexivity|]. split; [reflexivity|].
  cbn [BJC.deck BJC.player_hand BJC.dealer_hand].
  split_all; try reflexivity; discriminate.
Qed.

(** C7, amended.  On an accepted bet, v1.1 deals the four opening cards
    alternately: with the shoe as the reshuffle check leaves it, four
    successive calls of [deal] return [c1], [c2], [c3], [c4], and the player
    holds [c1] and [c3], the dealer [c2] and [c4].  The top-level script
    pops four cards [c1], [c2], [c3], [c4] from the end of the deck and gives
    the first two to the player and the last two to the dealer. *)
Theorem C7_opening_deal (R : Shuffler) (amount : Q) :
  (forall s : BJC_v11.Session R,
      deck_wf (BJC_v11.deck s) ->
      snd (BJC_v11.place_bet amount s) = BJC_v11.Accepted ->
      exists c1 d1 e1 c2 d2 e2 c3 d3 e3 c4 d4 e4,
        BJC_v11.deal (fst (BJC_v11.reshuffle_before_deal s))
                     (snd (BJC_v11.reshuffle_before_deal s))
        = (Some c1, d1, e1) /\
        BJC_v11.deal d1 e1 = (Some c2, d2, e2) /\
        BJC_v11.deal d2 e2 = (Some c3, d3, e3) /\
        BJC_v11.deal d3 e3 = (Some c4, d4, e4) /\
        BJC_v11.player_hand (fst (BJC_v11.place_bet amount s)) = [c1; c3] /\
        BJC_v11.dealer_hand (fst (BJC_v11.place_bet amount s)) = [c2; c4] /\
        BJC_v11.deck (fst (BJC_v11.place_bet amount s)) = d4) /\
  (forall s s' : BJC.Session R,
      BJC.place_bet amount s = Some (s', BJC.Accepted) ->
      exists c1 c2 c3 c4 : Card,
        BJC.deck s = BJC.deck s' ++ [c4; c3; c2; c1] /\
        BJC.player_hand s' = [c1; c2] /\
        BJC.dealer_hand s' = [c3; c4]).
Proof.
  split.
  - intros s Hwf. unfold BJC_v11.place_bet.
    destruct (Qle_bool (1 # 100) amount
              && Qle_bool amount (BJC_v11.player_money s)); [|discriminate].
    pose proof (reshuffle_before_deal_wf s Hwf) as Hwf0.
    destruct (BJC_v11.reshuffle_before_deal s) as [d0 e0].
    cbn [fst snd] in Hwf0 |- *.
    destruct (deal_initial_spec d0 e0 Hwf0)
      as (c1 & d1 & e1 & c2 & d2 & e2 & c3 & d3 & e3 & c4 & d4 & e4
          & H1 & H2 & H3 & H4 & Hdi & _).
    rewrite Hdi. intros _.
    exists c1, d1, e1, c2, d2, e2, c3, d3, e3, c4, d4, e4.
    cbn [fst BJC_v11.player_hand BJC_v11.dealer_hand BJC_v11.deck].
    split_all; try assumption; reflexivity.
  - intros s s'. unfold BJC.place_bet.
    destruct (negb (Qle_bool amount (BJC.player_money s))); [discriminate|].
    destruct (pop (BJC.deck s)) as [[c1 d1]|] eqn:H1; [|discriminate].
    destruct (pop d1) as [[c2 d2]|] eqn:H2; [|discriminate].
    destruct (pop d2) as [[c3 d3]|] eqn:H3; [|discriminate].
    destruct (pop d3) as [[c4 d4]|] eqn:H4; [|discriminate].
    intros [= <-]. exists c1, c2, c3, c4.
    cbn [BJC.deck BJC.player_hand BJC.dealer_hand].
    apply pop_some in H1, H2, H3, H4. subst.
    split_all; try reflexivity.
    rewrite H1, <- !app_assoc. reflexivity.
Qed.

(** The opening deal of [table_v11]. *)
Lemma C7_opening_deal_witness :
  deck_wf (BJC_v11.deck lobby_v11) /\
  snd (BJC_v11.place_bet 10 lobby_v11) = BJC_v11.Accepted /\
  exists c1 d1 e1 c2 d2 e2 c3 d3 e3 c4 d4 e4,
    BJC_v11.deal (fst (BJC_v11.reshuffle_before_deal lobby_v11))
                 (snd (BJC_v11.reshuffle_before_deal lobby_v11))
    = (Some c1, d1, e1) /\
    BJC_v11.deal d1 e1 = (Some c2, d2, e2) /\
    BJC_v11.deal d2 e2 = (Some c3, d3, e3) /\
    BJC_v11.deal d3 e3 = (Some c4, d4, e4) /\
    BJC_v11.player_hand (fst (BJC_v11.place_bet 10 lobby_v11)) = [c1; c3] /\
    BJC_v11.dealer_hand (fst (BJC_v11.place_bet 10 lobby_v11)) = [c2; c4] /\
    BJC_v11.deck (fst (BJC_v11.place_bet 10 lobby_v11)) = d4.
Proof.
  assert (Hwf : deck_wf (BJC_v11.deck lobby_v11))
    by (split; [vm_compute; lia | reflexivity]).
  split; [exact Hwf|]. split; [reflexivity|].
  exact (proj1 (C7_opening_deal cutting_shuffler 10) lobby_v11 Hwf eq_refl).
Defined.

(** ** Doubling down *)

Lemma table_v11_reachable : BJC_v11.reachable table_v11.
Proof.
  apply (BJC_v11.reachable_step lobby_v11).
  - apply (BJC_v11.reachable_step
             (BJC_v11.initialize_game (R := cutting_shuffler) 12%nat)).
    + apply BJC_v11.reachable_init.
    + apply BJC_v11.step_play_home. reflexivity.
  - apply (BJC_v11.step_betting lobby_v11 (Some (10 : Q))). reflexivity.
Qed.

(** The claim as stated fails on v1.1: doubling down on King and Jack in
    [table_v11] draws a Nine, and the bust takes the session straight to
    the showdown, not to the dealer's turn. *)
Lemma C5_bust_on_double_skips_dealer_turn :
  BJC_v11.reachable table_v11 /\
  BJC_v11.game_state table_v11 = BJC_v11.PLAYER_TURN /\
  length (BJC_v11.player_hand table_v11) = 2%nat /\
  (BJC_v11.bet table_v11 <= BJC_v11.player_money table_v11)%Q /\
  exists s' : BJC_v11.Session cutting_shuffler,
    BJC_v11.double_down table_v11 = Some s' /\
    is_bust (BJC_v11.player_hand s') = true /\
    BJC_v11.game_state s' = BJC_v11.SHOWDOWN /\
    BJC_v11.game_state s' <> BJC_v11.DEALER_TURN.
Proof.
  split; [exact table_v11_reachable|].
  split; [reflexivity|]. split; [reflexivity|].
  split; [vm_compute; discriminate|].
  eexists. split; [reflexivity|].
  split; [reflexivity|]. split; [reflexivity | discriminate].
Qed.

(** C5, amended.  Double down is on offer exactly when the player holds
    two cards and the balance covers the bet.  When it is taken (on a
    well-formed shoe) the bet is doubled, the extra stake is deducted from
    the player's balance at once, exactly one card is dealt to the player,
    and the dealer's hand and balance are untouched.  If the three cards are
    worth at most 21 the session moves to the dealer's turn; if they bust,
    [player_busted] is set and the session moves straight to the showdown,
    which leaves the dealer's hand as it is. *)
Theorem C5_double_down (R : Shuffler) (s : BJC_v11.Session R) :
  (BJC_v11.double_down s = None <->
   ~ (length (BJC_v11.player_hand s) = 2%nat /\
      (BJC_v11.bet s <= BJC_v11.player_money s)%Q)) /\
  (deck_wf (BJC_v11.deck s) ->
   length (BJC_v11.player_hand s) = 2%nat ->
   (BJC_v11.bet s <= BJC_v11.player_money s)%Q ->
   exists (c : Card) (d : BJC_v11.Deck) (e : BJC_v11.Env R)
          (s' : BJC_v11.Session R),
     BJC_v11.deal (BJC_v11.deck s) (BJC_v11.env s) = (Some c, d, e) /\
     BJC_v11.double_down s = Some s' /\
     (BJC_v11.bet s' == 2 * BJC_v11.bet s)%Q /\
     (BJC_v11.player_money s' == BJC_v11.player_money s - BJC_v11.bet s)%Q /\
     BJC_v11.dealer_money s' = BJC_v11.dealer_money s /\
     BJC_v11.player_hand s' = BJC_v11.player_hand s ++ [c] /\
     BJC_v11.dealer_hand s' = BJC_v11.dealer_hand s /\
     BJC_v11.deck s' = d /\
     (BJC_v11.calculate_hand_value (BJC_v11.player_hand s') <= 21 ->
      BJC_v11.game_state s' = BJC_v11.DEALER_TURN /\
      BJC_v11.player_busted s' = BJC_v11.player_busted s) /\
     (21 < BJC_v11.calculate_hand_value (BJC_v11.player_hand s') ->
      BJC_v11.game_state s' = BJC_v11.SHOWDOWN /\
      BJC_v11.player_busted s' = true /\
      BJC_v11.dealer_hand (BJC_v11.process_showdown s')
      = BJC_v11.dealer_hand s)).
Proof.
  split.
  - unfold BJC_v11.double_down, BJC_v11.can_double_down.
    destruct (length (BJC_v11.player_hand s) =? 2)%nat eqn:E1;
      destruct (Qle_bool (BJC_v11.bet s) (BJC_v11.player_money s)) eqn:E2;
      cbn [andb].
    + apply Nat.eqb_eq in E1. apply Qle_bool_iff in E2.
      destruct (BJC_v11.deal (BJC_v11.deck s) (BJC_v11.env s)) as [[c d] e].
      split; [discriminate|]. intros H. exfalso. apply H. now split.
    + split; [intros _|reflexivity]. intros [_ H].
      apply Qle_bool_iff in H. congruence.
    + split; [intros _|reflexivity]. intros [H _].
      apply Nat.eqb_neq in E1. contradiction.
    + split; [intros _|reflexivity]. intros [H _].
      apply Nat.eqb_neq in E1. contradiction.
  - intros Hwf Hlen Hbet.
    destruct (deal_spec R (BJC_v11.deck s) (BJC_v11.env s) Hwf)
      as (c & d & e & Hdeal & _).
    unfold BJC_v11.double_down, BJC_v11.can_double_down.
    apply Nat.eqb_eq in Hlen. apply Qle_bool_iff in Hbet.
    rewrite Hlen, Hbet, Hdeal. cbn [andb BJC_v11.add_card].
    exists c, d, e. eexists. split; [reflexivity|]. split; [reflexivity|].
    cbn [BJC_v11.bet BJC_v11.player_money BJC_v11.dealer_money
         BJC_v11.player_hand BJC_v11.dealer_hand BJC_v11.deck
         BJC_v11.game_state BJC_v11.player_busted].
    split_all; try reflexivity; try ring.
    + intros H. apply Z.ltb_ge in H. rewrite H. split; reflexivity.
    + intros H. apply Z.ltb_lt in H. rewrite H. split_all; reflexivity.
Qed.

(** Doubling down in [table_v11]. *)
Lemma C5_double_down_witness :
  deck_wf (BJC_v11.deck table_v11) /\
  length (BJC_v11.player_hand table_v11) = 2%nat /\
  (BJC_v11.bet table_v11 <= BJC_v11.player_money table_v11)%Q /\
  exists (c : Card) (d : BJC_v11.Deck) (e : BJC_v11.Env cutting_shuffler)
         (s' : BJC_v11.Session cutting_shuffler),
    BJC_v11.deal (BJC_v11.deck table_v11) (BJC_v11.env table_v11)
    = (Some c, d, e) /\
    BJC_v11.double_down table_v11 = Some s' /\
    (BJC_v11.bet s' == 2 * BJC_v11.bet table_v11)%Q /\
    (BJC_v11.player_money s'
     == BJC_v11.player_money table_v11 - BJC_v11.bet table_v11)%Q /\
    BJC_v11.dealer_money s' = BJC_v11.dealer_money table_v11 /\
    BJC_v11.player_hand s' = BJC_v11.player_hand table_v11 ++ [c] /\
    BJC_v11.dealer_hand s' = BJC_v11.dealer_hand table_v11 /\
    BJC_v11.deck s' = d /\
    (BJC_v11.calculate_hand_value (BJC_v11.player_hand s') <= 21 ->
     BJC_v11.game_state s' = BJC_v11.DEALER_TURN /\
     BJC_v11.player_busted s' = BJC_v11.player_busted table_v11) /\
    (21 < BJC_v11.calculate_hand_value (BJC_v11.player_hand s') ->
     BJC_v11.game_state s' = BJC_v11.SHOWDOWN /\
     BJC_v11.player_busted s' = true /\
     BJC_v11.dealer_hand (BJC_v11.process_showdown s')
     = BJC_v11.dealer_hand table_v11).
Proof.
  assert (Hwf : deck_wf (BJC_v11.deck table_v11))
    by (split; [vm_compute; lia | reflexivity]).
  assert (Hbet : (BJC_v11.bet table_v11 <= BJC_v11.player_money table_v11)%Q)
    by (vm_compute; discriminate).
  split; [exact Hwf|]. split; [reflexivity|]. split; [exact Hbet|].
  exact (proj2 (C5_double_down cutting_shuffler table_v11) Hwf eq_refl Hbet).
Defined.

(** ** Settling the round *)

(** The fields that [process_showdown] takes from [determine_outcome]. *)
Lemma process_showdown_fields (R : Shuffler) (s : BJC_v11.Session R) :
  BJC_v11.message (BJC_v11.process_showdown s)
  = fst (fst (BJC_v11.determine_outcome s)) /\
  BJC_v11.player_money (BJC_v11.process_showdown s)
  = snd (fst (BJC_v11.determine_outcome s)) /\
  BJC_v11.dealer_money (BJC_v11.process_showdown s)
  = snd (BJC_v11.determine_outcome s) /\
  BJC_v11.round_over (BJC_v11.process_showdown s) = true /\
  BJC_v11.player_hand (BJC_v11.process_showdown s) = BJC_v11.player_hand s /\
  BJC_v11.dealer_hand (BJC_v11.process_showdown s) = BJC_v11.dealer_hand s /\
  BJC_v11.bet (BJC_v11.process_showdown s) = BJC_v11.bet s.
Proof.
  unfold BJC_v11.process_showdown.
  destruct (BJC_v11.determine_outcome s) as [[m pm] dm].
  split_all; reflexivity.
Qed.

Lemma result_phase_fields (R : Shuffler) (again : bool) (s : BJC.Session R) :
  BJC.message (BJC.result_phase again s)
  = fst (fst (BJC.determine_winner s)) /\
  BJC.player_money (BJC.result_phase again s)
  = snd (fst (BJC.determine_winner s)) /\
  BJC.dealer_money (BJC.result_phase again s)
  = snd (BJC.determine_winner s).
Proof.
  unfold BJC.result_phase.
  destruct (BJC.determine_winner s) as [[m pm] dm].
  destruct (Qle_bool pm 0 || Qle_bool dm 0 || negb again).
  - split_all; reflexivity.
  - destruct (shuffle R (BJC.rand s) one_deck) as [d g].
    split_all; reflexivity.
Qed.

(** With flags that agree with the hands, [determine_outcome] follows the
    priority order of the specification. *)
Lemma determine_outcome_spec (R : Shuffler) (s : BJC_v11.Session R) :
  flags_agree s ->
  let o := resolve_spec (BJC_v11.player_hand s) (BJC_v11.dealer_hand s) in
  fst (fst (BJC_v11.determine_outcome s)) = message_of o /\
  (snd (fst (BJC_v11.determine_outcome s))
   == BJC_v11.player_money s + fst (delta_spec o (BJC_v11.bet s)))%Q /\
  (snd (BJC_v11.determine_outcome s)
   == BJC_v11.dealer_money s + snd (delta_spec o (BJC_v11.bet s)))%Q.
Proof.
  intros (Hpb & Hdb & Hpj & Hdj). cbv zeta.
  unfold BJC_v11.determine_outcome, resolve_spec.
  rewrite Hpb, Hdb, Hpj, Hdj.
  destruct (is_bust (BJC_v11.player_hand s));
    [cbn [fst snd message_of delta_spec];
     split_all; [reflexivity|ring|ring]|].
  destruct (is_bust (BJC_v11.dealer_hand s));
    [cbn [fst snd message_of delta_spec];
     split_all; [reflexivity|ring|ring]|].
  destruct (is_blackjack (BJC_v11.player_hand s));
    destruct (is_blackjack (BJC_v11.dealer_hand s)); cbn [andb];
    try (cbn [fst snd message_of delta_spec];
         split_all; [reflexivity|ring|ring]).
  destruct (BJC_v11.calculate_hand_value (BJC_v11.dealer_hand s)
            <? BJC_v11.calculate_hand_value (BJC_v11.player_hand s));
    [cbn [fst snd message_of delta_spec];
     split_all; [reflexivity|ring|ring]|].
  destruct (BJC_v11.calculate_hand_value (BJC_v11.player_hand s)
            <? BJC_v11.calculate_hand_value (BJC_v11.dealer_hand s));
    cbn [fst snd message_of delta_spec]; split_all; try reflexivity; ring.
Qed.

Lemma determine_winner_spec (R : Shuffler) (s : BJC.Session R) :
  let o := resolve_plain (BJC.player_hand s) (BJC.dealer_hand s) in
  fst (fst (BJC.determine_winner s)) = message_plain o /\
  (snd (fst (BJC.determine_winner s))
   == BJC.player_money s + fst (delta_spec o (BJC.bet s)))%Q /\
  (snd (BJC.determine_winner s)
   == BJC.dealer_money s + snd (delta_spec o (BJC.bet s)))%Q.
Proof.
  cbv zeta. unfold BJC.determine_winner, resolve_plain.
  destruct (21 <? BJC.calculate_hand_value (BJC.player_hand s));
    [cbn [fst snd message_plain delta_spec];
     split_all; [reflexivity|ring|ring]|].
  destruct (21 <? BJC.calculate_hand_value (BJC.dealer_hand s));
    [cbn [fst snd message_plain delta_spec];
     split_all; [reflexivity|ring|ring]|].
  destruct (BJC.calculate_hand_value (BJC.dealer_hand s)
            <? BJC.calculate_hand_value (BJC.player_hand s));
    [cbn [fst snd message_plain delta_spec];
     split_all; [reflexivity|ring|ring]|].
  destruct (BJC.calculate_hand_value (BJC.player_hand s)
            <? BJC.calculate_hand_value (BJC.dealer_hand s));
    cbn [fst snd message_plain delta_spec]; split_all; try reflexivity; ring.
Qed.

Lemma result_plain_reachable : BJC.reachable result_plain.
Proof.
  apply (BJC.reachable_step (BJC.stand seated_plain)).
  - apply (BJC.reachable_step seated_plain).
    + apply (BJC.reachable_step table_plain).
      * apply (BJC.reachable_step
                 (BJC.initialize_session_state (R := identity_shuffler) tt)).
        -- apply BJC.reachable_init.
        -- apply BJC.step_play. reflexivity.
      * apply (BJC.step_place_bet table_plain (10 : Q) seated_plain
                                  BJC.Accepted); reflexivity.
    + apply BJC.step_stand. reflexivity.
  - apply (BJC.step_dealer_turn (BJC.stand seated_plain) 17%nat result_plain);
      reflexivity.
Qed.

(** The claim as stated fails on the top-level script, which has no
    blackjack outcomes: in the reachable session [result_plain] the player
    holds a blackjack (Ace and King) against the dealer's 20, the bet is
    10, and the result phase pays 10, not 15. *)
Lemma C1_top_level_pays_even_money :
  BJC.reachable result_plain /\
  BJC.game_phase result_plain = BJC.result /\
  BJC.player_hand result_plain = [mkCard Spades RA; mkCard Spades RK] /\
  BJC.dealer_hand result_plain = [mkCard Spades RQ; mkCard Spades RJ] /\
  (BJC.bet result_plain == 10)%Q /\
  resolve_spec (BJC.player_hand result_plain) (BJC.dealer_hand result_plain)
  = PlayerBlackjack /\
  (BJC.player_money (BJC.result_phase false result_plain)
   == BJC.player_money result_plain + 10)%Q /\
  ~ (BJC.player_money (BJC.result_phase false result_plain)
     == BJC.player_money result_plain
        + fst (delta_spec PlayerBlackjack (BJC.bet result_plain)))%Q.
Proof.
  split; [exact result_plain_reachable|].
  split_all; try reflexivity.
  intros H. vm_compute in H. discriminate H.
Qed.

(** C1, amended.  In v1.1, for every reachable session that is about to be
    settled, [process_showdown] takes exactly the branch that the priority
    order of the specification selects from the two hands (player bust,
    dealer bust, both blackjack, player blackjack only, dealer blackjack
    only, higher value, equal values), writes the message of that outcome,
    and changes the balances by [(-bet, +bet)] on a bust or loss of the
    player, [(+bet, -bet)] on a win or dealer bust, [(+1.5 bet, -1.5 bet)]
    on a player blackjack and [(0, 0)] on a push.  One run of the result
    phase of the top-level script follows the same order without the three
    blackjack outcomes. *)
Theorem C1_resolution (R : Shuffler) :
  (forall s : BJC_v11.Session R,
      BJC_v11.reachable s ->
      BJC_v11.game_state s = BJC_v11.SHOWDOWN ->
      BJC_v11.round_over s = false ->
      let o := resolve_spec (BJC_v11.player_hand s) (BJC_v11.dealer_hand s) in
      let s' := BJC_v11.process_showdown s in
      BJC_v11.message s' = message_of o /\
      (BJC_v11.player_money s'
       == BJC_v11.player_money s + fst (delta_spec o (BJC_v11.bet s)))%Q /\
      (BJC_v11.dealer_money s'
       == BJC_v11.dealer_money s + snd (delta_spec o (BJC_v11.bet s)))%Q /\
      BJC_v11.round_over s' = true) /\
  (forall (s : BJC.Session R) (play_again : bool),
      let o := resolve_plain (BJC.player_hand s) (BJC.dealer_hand s) in
      let s' := BJC.result_phase play_again s in
      BJC.message s' = message_plain o /\
      (BJC.player_money s'
       == BJC.player_money s + fst (delta_spec o (BJC.bet s)))%Q /\
      (BJC.dealer_money s'
       == BJC.dealer_money s + snd (delta_spec o (BJC.bet s)))%Q).
Proof.
  split.
  - intros s Hr Hst Hro. cbv zeta.
    apply reachable_inv in Hr. destruct Hr as [_ Hinv].
    rewrite Hst in Hinv. specialize (Hinv Hro).
    destruct (process_showdown_fields R s) as (-> & -> & -> & -> & _).
    destruct (determine_outcome_spec R s Hinv) as (Hm & Hp & Hd).
    split_all; try assumption; reflexivity.
  - intros s again. cbv zeta.
    destruct (result_phase_fields R again s) as (-> & -> & ->).
    apply determine_winner_spec.
Qed.

Lemma busted_v11_reachable : BJC_v11.reachable busted_v11.
Proof.
  apply (BJC_v11.reachable_step table_v11).
  - exact table_v11_reachable.
  - apply BJC_v11.step_double_down; reflexivity.
Qed.

(** The settlement of [busted_v11], the session in which doubling down
    busted the player. *)
Lemma C1_resolution_witness :
  BJC_v11.reachable busted_v11 /\
  BJC_v11.game_state busted_v11 = BJC_v11.SHOWDOWN /\
  BJC_v11.round_over busted_v11 = false /\
  BJC_v11.message (BJC_v11.process_showdown busted_v11)
  = message_of (resolve_spec (BJC_v11.player_hand busted_v11)
                             (BJC_v11.dealer_hand busted_v11)) /\
  (BJC_v11.player_money (BJC_v11.process_showdown busted_v11)
   == BJC_v11.player_money busted_v11
      + fst (delta_spec (resolve_spec (BJC_v11.player_hand busted_v11)
                                      (BJC_v11.dealer_hand busted_v11))
                        (BJC_v11.bet busted_v11)))%Q /\
  (BJC_v11.dealer_money (BJC_v11.process_showdown busted_v11)
   == BJC_v11.dealer_money busted_v11
      + snd (delta_spec (resolve_spec (BJC_v11.player_hand busted_v11)
                                      (BJC_v11.dealer_hand busted_v11))
                        (BJC_v11.bet busted_v11)))%Q /\
  BJC_v11.round_over (BJC_v11.process_showdown busted_v11) = true.
Proof.
  split; [exact busted_v11_reachable|].
  split; [reflexivity|]. split; [reflexivity|].
  exact (proj1 (C1_resolution cutting_shuffler) busted_v11
               busted_v11_reachable eq_refl eq_refl).
Defined.

(** Over the exact rationals of the sessions the two updates of a
    settlement cancel: the sum of the two balances is the same after as
    before.  This is a fact of exact arithmetic; the amounts of the
    program are binary64 numbers, and the next section looks at those. *)
Lemma settlement_sum_exact (R : Shuffler) :
  (forall s : BJC_v11.Session R,
      (BJC_v11.player_money (BJC_v11.process_showdown s)
       + BJC_v11.dealer_money (BJC_v11.process_showdown s)
       == BJC_v11.player_money s + BJC_v11.dealer_money s)%Q) /\
  (forall (s : BJC.Session R) (play_again : bool),
      (BJC.player_money (BJC.result_phase play_again s)
       + BJC.dealer_money (BJC.result_phase play_again s)
       == BJC.player_money s + BJC.dealer_money s)%Q).
Proof.
  split.
  - intros s.
    destruct (process_showdown_fields R s) as (_ & -> & -> & _).
    unfold BJC_v11.determine_outcome.
    destruct (BJC_v11.player_busted s); [cbn [fst snd]; ring|].
    destruct (BJC_v11.dealer_busted s); [cbn [fst snd]; ring|].
    destruct (BJC_v11.player_blackjack s);
      destruct (BJC_v11.dealer_blackjack s); try (cbn [fst snd]; ring).
    destruct (_ <? _); [cbn [fst snd]; ring|].
    destruct (_ <? _); cbn [fst snd]; ring.
  - intros s again.
    destruct (result_phase_fields R again s) as (_ & -> & ->).
    unfold BJC.determine_winner.
    destruct (21 <? _); [cbn [fst snd]; ring|].
    destruct (21 <? _); [cbn [fst snd]; ring|].
    destruct (_ <? _); [cbn [fst snd]; ring|].
    destruct (_ <? _); cbn [fst snd]; ring.
Qed.

(** ** Settling the round on binary64 amounts *)

Section Binary64Facts.

Import PrimFloat.

(** The binary64 rendering of a settlement takes the branch that the
    session takes, whatever the amounts are. *)
Lemma determine_winner_binary64_branch (R : Shuffler) (s : BJC.Session R)
      (pm dm b : float) :
  fst (fst (BJC.determine_winner_binary64
              (BJC.player_hand s) (BJC.dealer_hand s) pm dm b))
  = fst (fst (BJC.determine_winner s)).
Proof.
  unfold BJC.determine_winner_binary64, BJC.determine_winner.
  repeat (destruct (_ <? _)%Z; [reflexivity|]). reflexivity.
Qed.

Lemma determine_outcome_binary64_branch (R : Shuffler)
      (s : BJC_v11.Session R) (pm dm b : float) :
  fst (fst (BJC_v11.determine_outcome_binary64
              (BJC_v11.player_busted s) (BJC_v11.dealer_busted s)
              (BJC_v11.player_blackjack s) (BJC_v11.dealer_blackjack s)
              (BJC_v11.player_hand s) (BJC_v11.dealer_hand s) pm dm b))
  = fst (fst (BJC_v11.determine_outcome s)).
Proof.
  unfold BJC_v11.determine_outcome_binary64, BJC_v11.determine_outcome.
  destruct (BJC_v11.player_busted s); [reflexivity|].
  destruct (BJC_v11.dealer_busted s); [reflexivity|].
  destruct (BJC_v11.player_blackjack s);
    destruct (BJC_v11.dealer_blackjack s); try reflexivity.
  repeat (destruct (_ <? _)%Z; [reflexivity|]). reflexivity.
Qed.

(** The claim as stated fails on the amounts of the program, which are
    binary64 numbers: the two updates of a settlement are rounded
    separately.  From the opening balances a won bet of 0.01 leaves 500.01
    and 4999999.99, whose sum in binary64 is 5000500.0; a won bet of 0.02
    then leaves two balances whose sum is not that sum, and what the
    player has gained is not what the dealer has lost. *)
Lemma C9_binary64_sum_changes :
  (fst (fst first_win_plain) = BJC.YouWin /\
   fst (fst second_win_plain) = BJC.YouWin /\
   snd (fst first_win_plain) = 500.01%float /\
   snd first_win_plain = 4999999.99%float /\
   (snd (fst first_win_plain) + snd first_win_plain)%float = 5000500%float /\
   (snd (fst second_win_plain) + snd second_win_plain
    =? snd (fst first_win_plain) + snd first_win_plain)%float = false /\
   (snd (fst second_win_plain) - snd (fst first_win_plain)
    =? snd first_win_plain - snd second_win_plain)%float = false) /\
  (fst (fst first_win_v11) = BJC_v11.YouWin /\
   fst (fst second_win_v11) = BJC_v11.YouWin /\
   (snd (fst second_win_v11) + snd second_win_v11
    =? snd (fst first_win_v11) + snd first_win_v11)%float = false /\
   (snd (fst second_win_v11) - snd (fst first_win_v11)
    =? snd first_win_v11 - snd second_win_v11)%float = false).
Proof. split; split_all; reflexivity. Qed.

(** C9, amended.  Every branch of [process_showdown] of v1.1 and of the
    result phase of the top-level script adds an amount to one balance and
    subtracts the same amount from the other, or leaves both balances as
    they are; the amount is the bet, or [bet * 1.5] for a player blackjack
    in v1.1.  This holds of the sessions, and it holds with the rounded
    addition, subtraction and multiplication of binary64 in their place.
    It is a statement about the two updates, not about the sum of their
    results. *)
Theorem C9_settlement_moves_equal_amounts (R : Shuffler) :
  (forall s : BJC_v11.Session R,
      let s' := BJC_v11.process_showdown s in
      exists amount : Q,
        (amount = BJC_v11.bet s \/ amount = (BJC_v11.bet s * (3 # 2))%Q) /\
        ((BJC_v11.player_money s' = (BJC_v11.player_money s + amount)%Q /\
          BJC_v11.dealer_money s' = (BJC_v11.dealer_money s - amount)%Q) \/
         (BJC_v11.player_money s' = (BJC_v11.player_money s - amount)%Q /\
          BJC_v11.dealer_money s' = (BJC_v11.dealer_money s + amount)%Q) \/
         (BJC_v11.player_money s' = BJC_v11.player_money s /\
          BJC_v11.dealer_money s' = BJC_v11.dealer_money s))) /\
  (forall (s : BJC.Session R) (play_again : bool),
      let s' := BJC.result_phase play_again s in
      (BJC.player_money s' = (BJC.player_money s + BJC.bet s)%Q /\
       BJC.dealer_money s' = (BJC.dealer_money s - BJC.bet s)%Q) \/
      (BJC.player_money s' = (BJC.player_money s - BJC.bet s)%Q /\
       BJC.dealer_money s' = (BJC.dealer_money s + BJC.bet s)%Q) \/
      (BJC.player_money s' = BJC.player_money s /\
       BJC.dealer_money s' = BJC.dealer_money s)) /\
  (forall (player_busted dealer_busted : bool)
          (player_blackjack dealer_blackjack : bool)
          (player_hand dealer_hand : list Card)
          (player_money dealer_money bet : float),
      let r :=
        BJC_v11.determine_outcome_binary64
          player_busted dealer_busted player_blackjack dealer_blackjack
          player_hand dealer_hand player_money dealer_money bet in
      exists amount : float,
        (amount = bet \/ amount = (bet * 1.5)%float) /\
        ((snd (fst r) = (player_money + amount)%float /\
          snd r = (dealer_money - amount)%float) \/
         (snd (fst r) = (player_money - amount)%float /\
          snd r = (dealer_money + amount)%float) \/
         (snd (fst r) = player_money /\ snd r = dealer_money))) /\
  (forall (player_hand dealer_hand : list Card)
          (player_money dealer_money bet : float),
      let r :=
        BJC.determine_winner_binary64
          player_hand dealer_hand player_money dealer_money bet in
      (snd (fst r) = (player_money + bet)%float /\
       snd r = (dealer_money - bet)%float) \/
      (snd (fst r) = (player_money - bet)%float /\
       snd r = (dealer_money + bet)%float) \/
      (snd (fst r) = player_money /\ snd r = dealer_money)).
Proof.
  split_all.
  - intros s. cbv zeta.
    destruct (process_showdown_fields R s) as (_ & -> & -> & _).
    unfold BJC_v11.determine_outcome.
    destruct (BJC_v11.player_busted s);
      [exists (BJC_v11.bet s); cbn [fst snd]; auto|].
    destruct (BJC_v11.dealer_busted s);
      [exists (BJC_v11.bet s); cbn [fst snd]; auto|].
    destruct (BJC_v11.player_blackjack s);
      destruct (BJC_v11.dealer_blackjack s);
      try (exists (BJC_v11.bet s); cbn [fst snd]; now auto).
    + exists (BJC_v11.bet s * (3 # 2))%Q. cbn [fst snd]. auto.
    + destruct (_ <? _); [exists (BJC_v11.bet s); cbn [fst snd]; auto|].
      destruct (_ <? _); exists (BJC_v11.bet s); cbn [fst snd]; auto.
  - intros s again. cbv zeta.
    destruct (result_phase_fields R again s) as (_ & -> & ->).
    unfold BJC.determine_winner.
    repeat (destruct (_ <? _); [cbn [fst snd]; auto|]).
    cbn [fst snd]. auto.
  - intros pb db pj dj ph dh pm dm b. cbv zeta.
    unfold BJC_v11.determine_outcome_binary64.
    destruct pb; [exists b; cbn [fst snd]; auto|].
    destruct db; [exists b; cbn [fst snd]; auto|].
    destruct pj; destruct dj;
      try (exists b; cbn [fst snd]; now auto).
    + exists (b * 1.5)%float. cbn [fst snd]. auto.
    + destruct (_ <? _)%Z; [exists b; cbn [fst snd]; auto|].
      destruct (_ <? _)%Z; exists b; cbn [fst snd]; auto.
  - intros ph dh pm dm b. cbv zeta.
    unfold BJC.determine_winner_binary64.
    repeat (destruct (_ <? _)%Z; [cbn [fst snd]; auto|]).
    cbn [fst snd]. auto.
Qed.

End Binary64Facts.

(** ** Worked examples *)

Example value_soft_17 :
  BJC.calculate_hand_value [mkCard Hearts RA; mkCard Clubs R6] = 17.
Proof. reflexivity. Qed.

Example value_three_aces :
  BJC_v11.calculate_hand_value
    [mkCard Hearts RA; mkCard Clubs RA; mkCard Spades RA] = 13.
Proof. reflexivity. Qed.

(** Ten and Seven against two Nines: the dealer wins. *)
Example dealer_wins_18_to_17 :
  resolve_spec [mkCard Hearts R10; mkCard Clubs R7]
               [mkCard Spades R9; mkCard Diamonds R9] = DealerWin.
Proof. reflexivity. Qed.

(** Ace and King against Nine and Eight: a player blackjack. *)
Example player_blackjack_beats_17 :
  resolve_spec [mkCard Hearts RA; mkCard Clubs RK]
               [mkCard Spades R9; mkCard Diamonds R8] = PlayerBlackjack.
Proof. reflexivity. Qed.

(** Two blackjacks push. *)
Example two_blackjacks_push :
  resolve_spec [mkCard Hearts RA; mkCard Clubs RQ]
               [mkCard Spades RA; mkCard Diamonds RJ] = PushBlackjacks.
Proof. reflexivity. Qed.

(** Ten, Five and Ten bust, whatever the dealer holds. *)
Example player_bust_first (dealer : list Card) :
  resolve_spec [mkCard Hearts R10; mkCard Clubs R5; mkCard Spades R10] dealer
  = PlayerBust.
Proof. reflexivity. Qed.

(** A 21 made of three cards is not a blackjack. *)
Example three_card_21_is_not_blackjack :
  is_blackjack [mkCard Hearts R7; mkCard Clubs R7; mkCard Spades R7] = false.
Proof. reflexivity. Qed.

(** The settlement of [busted_v11]: the bet of 10 was doubled to 20 and 10
    was taken at the double; the showdown takes the doubled bet. *)
Example busted_v11_settled :
  BJC_v11.message (BJC_v11.process_showdown busted_v11) = BJC_v11.YouBusted /\
  (BJC_v11.bet busted_v11 == 20)%Q /\
  (BJC_v11.player_money busted_v11 == 490)%Q /\
  (BJC_v11.player_money (BJC_v11.process_showdown busted_v11) == 470)%Q /\
  (BJC_v11.dealer_money (BJC_v11.process_showdown busted_v11) == 5000020)%Q.
Proof. split_all; reflexivity. Qed.

(** In the top-level script the result phase runs on every run of the
    script in that phase, the run started by "Play Again" included: in
    [result_plain] the first run pays the bet of 10, and the run that
    handles the button pays it once more before it opens the next round. *)
Example result_phase_runs_again :
  (BJC.player_money result_plain == 500)%Q /\
  (BJC.player_money (BJC.result_phase false result_plain) == 510)%Q /\
  BJC.game_phase (BJC.result_phase false result_plain) = BJC.result /\
  (BJC.player_money
     (BJC.result_phase true (BJC.result_phase false result_plain)) == 520)%Q /\
  BJC.game_phase
    (BJC.result_phase true (BJC.result_phase false result_plain))
  = BJC.betting.
Proof. split_all; reflexivity. Qed.

(** * Further properties of the code *)

(** ** The composition of a shoe *)

Lemma one_deck_count (c : Card) : count_occ card_eq_dec one_deck c = 1%nat.
Proof. destruct c as [s r]; destruct s, r; reflexivity. Qed.

Lemma repeat_deck_count (c : Card) (n k : nat) :
  count_occ card_eq_dec (flat_map (fun _ : nat => one_deck) (seq k n)) c = n.
Proof.
  revert k. induction n as [|n IH]; intros k; [reflexivity|].
  cbn [seq flat_map]. rewrite count_occ_app, IH, one_deck_count. reflexivity.
Qed.

Lemma fresh_cards_count (c : Card) (n : nat) :
  count_occ card_eq_dec (BJC_v11.fresh_cards n) c = n.
Proof. apply repeat_deck_count. Qed.

Lemma one_deck_NoDup : NoDup one_deck.
Proof.
  apply (NoDup_count_occ' card_eq_dec). intros c _. apply one_deck_count.
Qed.

(** X1.  [build_and_shuffle] leaves a shoe of [52 * num_decks] cards that
    holds every one of the 52 cards exactly [num_decks] times, whatever the
    deck held before; and a deck made by [Deck(n)] with [n >= 1] does not
    need a reshuffle. *)
Theorem X1_rebuilt_shoe_composition (R : Shuffler) (d : BJC_v11.Deck)
        (e : BJC_v11.Env R) :
  (length (BJC_v11.cards (fst (BJC_v11.build_and_shuffle d e)))
   = (52 * BJC_v11.num_decks d)%nat /\
   forall c : Card,
     count_occ card_eq_dec
               (BJC_v11.cards (fst (BJC_v11.build_and_shuffle d e))) c
     = BJC_v11.num_decks d) /\
  (forall n : nat,
      (1 <= n)%nat ->
      BJC_v11.needs_reshuffle (fst (BJC_v11.new_deck n e)) = false /\
      BJC_v11.reshuffle_point (fst (BJC_v11.new_deck n e)) = 13 * Z.of_nat n).
Proof.
  split.
  - pose proof (build_and_shuffle_spec R d e) as HB.
    destruct (BJC_v11.build_and_shuffle d e) as [d' e'].
    destruct HB as (_ & _ & Hperm & Hlen & _). cbn [fst].
    split; [exact Hlen|]. intros c.
    rewrite (proj1 (Permutation_count_occ card_eq_dec _ _) Hperm c).
    apply fresh_cards_count.
  - intros n Hn. unfold BJC_v11.new_deck.
    match goal with |- context [BJC_v11.build_and_shuffle ?d0 e] =>
      pose proof (build_and_shuffle_spec R d0 e) as HB;
      destruct (BJC_v11.build_and_shuffle d0 e) as [d' e'] end.
    destruct HB as (Hn' & Hp' & _ & Hlen & _).
    cbn [fst BJC_v11.num_decks BJC_v11.reshuffle_point] in *.
    rewrite reshuffle_point_value in Hp'.
    split; [|exact Hp'].
    unfold BJC_v11.needs_reshuffle. apply Z.leb_gt. rewrite Hp', Hlen. lia.
Qed.

Lemma X1_rebuilt_shoe_composition_witness :
  (1 <= 4)%nat /\
  BJC_v11.needs_reshuffle (fst (BJC_v11.new_deck 4 plain_env)) = false /\
  BJC_v11.reshuffle_point (fst (BJC_v11.new_deck 4 plain_env)) = 13 * 4.
Proof.
  split; [lia|].
  exact (proj2 (X1_rebuilt_shoe_composition identity_shuffler empty_shoe
                                            plain_env) 4%nat ltac:(lia)).
Defined.

(** ** Dealing several cards in a row *)

Section DealMany.

Context {R : Shuffler}.

Import BJC_v11.

(** While the shoe stays above its reshuffle point, [k] deals return its
    last [k] cards, last card first, and leave the rest and the
    environment as they were. *)
Lemma deal_many_no_reshuffle (k : nat) :
  forall (d : Deck) (e : Env R),
    Z.of_nat k + reshuffle_point d <= Z.of_nat (length (cards d)) ->
    0 <= reshuffle_point d ->
    deal_many k d e =
    (map Some (rev (skipn (length (cards d) - k) (cards d))),
     {| num_decks := num_decks d;
        cards := firstn (length (cards d) - k) (cards d);
        reshuffle_point := reshuffle_point d |},
     e).
Proof.
  induction k as [|k IH]; intros d e Hk Hp.
  - cbn [deal_many]. rewrite Nat.sub_0_r, skipn_all, firstn_all.
    destruct d; reflexivity.
  - cbn [deal_many]. unfold deal.
    assert (Hneed : needs_reshuffle d = false)
      by (unfold needs_reshuffle; apply Z.leb_gt; lia).
    rewrite Hneed.
    destruct (pop_nonempty (cards d)) as (c & r & Hpop & Hcs); [lia|].
    rewrite Hpop.
    assert (Hlen : length (cards d) = S (length r))
      by (rewrite Hcs, length_app; simpl; lia).
    rewrite IH; cbn [cards reshuffle_point num_decks]; try lia.
    rewrite Hlen.
    replace (S (length r) - S k)%nat with (length r - k)%nat by lia.
    rewrite Hcs.
    rewrite skipn_app, firstn_app.
    replace (length r - k - length r)%nat with 0%nat by lia.
    cbn [skipn firstn]. rewrite app_nil_r, rev_app_distr. reflexivity.
Qed.

End DealMany.

(** X2.  A full, well-formed shoe serves exactly [39 * num_decks] cards:
    for every [k] up to that number, [k] deals in a row return the last
    [k] cards of the shoe, last card first, without a reshuffle (the
    environment is unchanged); after [39 * num_decks] deals the shoe is at
    its reshuffle point, so that the next deal rebuilds it. *)
Theorem X2_shoe_serves_three_quarters (R : Shuffler) (d : BJC_v11.Deck)
        (e : BJC_v11.Env R) :
  deck_wf d ->
  length (BJC_v11.cards d) = (52 * BJC_v11.num_decks d)%nat ->
  (forall k : nat,
      (k <= 39 * BJC_v11.num_decks d)%nat ->
      deal_many k d e =
      (map Some (rev (skipn (52 * BJC_v11.num_decks d - k) (BJC_v11.cards d))),
       {| BJC_v11.num_decks := BJC_v11.num_decks d;
          BJC_v11.cards :=
            firstn (52 * BJC_v11.num_decks d - k) (BJC_v11.cards d);
          BJC_v11.reshuffle_point := BJC_v11.reshuffle_point d |},
       e) /\
      (BJC_v11.needs_reshuffle (snd (fst (deal_many k d e))) = true <->
       k = (39 * BJC_v11.num_decks d)%nat)).
Proof.
  intros Hwf Hlen k Hk.
  pose proof (deck_wf_point d Hwf) as Hp0.
  destruct Hwf as [Hn Hp]. rewrite reshuffle_point_value in Hp.
  pose proof (deal_many_no_reshuffle k d e ltac:(lia) Hp0) as Hdm.
  rewrite Hlen in Hdm. split; [exact Hdm|].
  rewrite Hdm. cbn [fst snd]. unfold BJC_v11.needs_reshuffle.
  cbn [BJC_v11.cards BJC_v11.reshuffle_point].
  rewrite Z.leb_le, length_firstn, Hlen, Hp. lia.
Qed.
(** ** A shoe without decks *)

(** X3.  The error path of [Deck.deal]: a [Deck(0)] is empty, every [deal]
    from it rebuilds it to the empty list again and returns [None] with the
    deck as it was, [add_card] ignores that [None], and so the dealer's
    loop, started on a hand below 17, never ends: it runs out of any
    fuel. *)
Theorem X3_deck_without_decks (R : Shuffler) (e : BJC_v11.Env R) :
  let d := fst (BJC_v11.new_deck 0 e) in
  BJC_v11.cards d = [] /\
  (forall e0 : BJC_v11.Env R,
      exists e1 : BJC_v11.Env R,
        BJC_v11.deal d e0 = (None, d, e1) /\
        BJC_v11.reshuffled_message e1 = true) /\
  (forall h : BJC_v11.Hand, BJC_v11.add_card h None = h) /\
  (forall (fuel : nat) (h : BJC_v11.Hand) (e0 : BJC_v11.Env R),
      BJC_v11.should_hit h = true ->
      BJC_v11.dealer_loop fuel h d e0 = None).
Proof.
  cbv zeta.
  assert (Hbuild : forall (d : BJC_v11.Deck) (e0 : BJC_v11.Env R),
             BJC_v11.num_decks d = 0%nat ->
             exists e1,
               BJC_v11.build_and_shuffle d e0 =
               ({| BJC_v11.num_decks := 0; BJC_v11.cards := [];
                   BJC_v11.reshuffle_point := BJC_v11.reshuffle_point d |},
                e1) /\
               BJC_v11.reshuffled_message e1 = true).
  { intros d e0 Hn. unfold BJC_v11.build_and_shuffle. rewrite Hn.
    pose proof (shuffle_perm R (BJC_v11.rand e0) (BJC_v11.fresh_cards 0)) as HP.
    destruct (shuffle R (BJC_v11.rand e0) (BJC_v11.fresh_cards 0)) as [cs g].
    cbn [fst] in HP. apply Permutation_sym, Permutation_nil in HP. subst cs.
    eexists. split; reflexivity. }
  unfold BJC_v11.new_deck.
  destruct (Hbuild {| BJC_v11.num_decks := 0; BJC_v11.cards := [];
                      BJC_v11.reshuffle_point :=
                        Qfloor (inject_Z (52 * Z.of_nat 0)
                                * BJC_v11.RESHUFFLE_THRESHOLD) |} e eq_refl)
    as (e' & -> & _).
  cbn [fst BJC_v11.cards BJC_v11.reshuffle_point].
  change (Qfloor (inject_Z (52 * Z.of_nat 0) * BJC_v11.RESHUFFLE_THRESHOLD))
    with 0.
  set (d := {| BJC_v11.num_decks := 0; BJC_v11.cards := [];
               BJC_v11.reshuffle_point := 0 |}).
  assert (Hdeal : forall e0 : BJC_v11.Env R,
             exists e1 : BJC_v11.Env R,
               BJC_v11.deal d e0 = (None, d, e1) /\
               BJC_v11.reshuffled_message e1 = true).
  { intros e0. unfold BJC_v11.deal.
    change (BJC_v11.needs_reshuffle d) with true. cbv iota.
    destruct (Hbuild d e0 eq_refl) as (e1 & -> & Hmsg).
    exists e1. split; [reflexivity | exact Hmsg]. }
  split; [reflexivity|]. split; [exact Hdeal|]. split; [reflexivity|].
  intros fuel. induction fuel as [|fuel IH]; intros h e0 Hs.
  - cbn [BJC_v11.dealer_loop]. now rewrite Hs.
  - cbn [BJC_v11.dealer_loop]. rewrite Hs.
    destruct (Hdeal e0) as (e1 & -> & _). cbn [BJC_v11.add_card].
    now apply IH.
Qed.

(** ** The shoe of a reachable session *)

Section ReachableShoe.

Context {R : Shuffler}.

Import BJC_v11.

(** A property of decks that [Deck(4)] establishes and that [deal] and
    [build_and_shuffle] keep holds of the shoe of every reachable
    session. *)
Section DeckProperty.

Variable P : Deck -> Prop.
Hypothesis P_new : forall e : Env R, P (fst (new_deck NUM_DECKS e)).
Hypothesis P_build :
  forall (d : Deck) (e : Env R), P d -> P (fst (build_and_shuffle d e)).
Hypothesis P_deal :
  forall (d : Deck) (e : Env R), P d -> P (snd (fst (deal d e))).

Lemma dealer_loop_keeps (fuel : nat) :
  forall (h : Hand) (d : Deck) (e : Env R) h' d' e',
    P d -> dealer_loop fuel h d e = Some (h', d', e') -> P d'.
Proof.
  induction fuel as [|fuel IH]; intros h d e h' d' e' Hd;
    cbn [dealer_loop]; destruct (should_hit h); try discriminate.
  - now intros [= _ <- _].
  - pose proof (P_deal d e Hd) as Hd1.
    destruct (deal d e) as [[c d1] e1]. cbn [fst snd] in Hd1.
    now apply IH.
  - now intros [= _ <- _].
Qed.

Lemma deal_initial_keeps (d : Deck) (e : Env R) :
  P d -> P (snd (fst (deal_initial d e))).
Proof.
  intros Hd. unfold deal_initial.
  pose proof (P_deal d e Hd) as H1.
  destruct (deal d e) as [[c1 d1] e1]. cbn [fst snd] in H1.
  pose proof (P_deal d1 e1 H1) as H2.
  destruct (deal d1 e1) as [[c2 d2] e2]. cbn [fst snd] in H2.
  pose proof (P_deal d2 e2 H2) as H3.
  destruct (deal d2 e2) as [[c3 d3] e3]. cbn [fst snd] in H3.
  pose proof (P_deal d3 e3 H3) as H4.
  destruct (deal d3 e3) as [[c4 d4] e4]. cbn [fst snd] in H4.
  exact H4.
Qed.

Lemma step_keeps (s s' : Session R) :
  step s s' -> P (deck s) -> P (deck s').
Proof.
  intros Hstep Hd.
  destruct Hstep as [s Hst | s click Hst | s Hst | s Hst | s s' Hst Hdd
                     | s fuel s' Hst Hdt | s Hst Hro | s Hst Hro | s Hst].
  - unfold play_home. pose proof (P_new (env s)) as H.
    destruct (new_deck NUM_DECKS (env s)) as [d e]. exact H.
  - unfold display_betting_screen. cbv zeta.
    destruct (Qle_bool (player_money s) 0); [exact Hd|].
    destruct (negb (Qle_bool (1 # 100) (player_money s))); [exact Hd|].
    destruct click as [b|]; [|exact Hd].
    unfold place_bet.
    destruct (Qle_bool (1 # 100) b && Qle_bool b (player_money s));
      [|exact Hd].
    assert (H0 : P (fst (reshuffle_before_deal s))).
    { unfold reshuffle_before_deal.
      destruct (needs_reshuffle (deck s)); [now apply P_build | exact Hd]. }
    destruct (reshuffle_before_deal s) as [d0 e0]. cbn [fst] in H0.
    pose proof (deal_initial_keeps d0 e0 H0) as H4.
    destruct (deal_initial d0 e0) as [[[ph dh] d] e]. exact H4.
  - unfold hit. pose proof (P_deal (deck s) (env s) Hd) as H.
    destruct (deal (deck s) (env s)) as [[c d] e]. exact H.
  - exact Hd.
  - unfold double_down in Hdd. destruct (can_double_down s); [|discriminate].
    pose proof (P_deal (deck s) (env s) Hd) as H.
    destruct (deal (deck s) (env s)) as [[c d] e].
    injection Hdd as <-. exact H.
  - unfold process_dealer_turn in Hdt. destruct (negb (player_busted s)).
    + destruct (dealer_loop fuel (dealer_hand s) (deck s) (env s))
        as [[[dh d] e]|] eqn:Hloop; [|discriminate].
      injection Hdt as <-. cbn [deck].
      eapply dealer_loop_keeps; eassumption.
    + injection Hdt as <-. exact Hd.
  - unfold process_showdown.
    destruct (determine_outcome s) as [[m pm] dm]. exact Hd.
  - exact Hd.
  - unfold new_game, initialize_game.
    pose proof (P_new {| rand := rand (env s); reshuffled_message := false |})
      as H.
    destruct (new_deck NUM_DECKS _) as [d e]. exact H.
Qed.

Lemma reachable_keeps (s : Session R) : reachable s -> P (deck s).
Proof.
  induction 1 as [g | s s' Hreach IH Hstep].
  - unfold initialize_game.
    pose proof (P_new {| rand := g; reshuffled_message := false |}) as H.
    destruct (new_deck NUM_DECKS _) as [d e]. exact H.
  - eapply step_keeps; eassumption.
Qed.

End DeckProperty.

Lemma build_and_shuffle_ok (d : Deck) (e : Env R) :
  shoe_ok d -> shoe_ok (fst (build_and_shuffle d e)).
Proof.
  intros (Hwf & Hn & _).
  pose proof (build_and_shuffle_wf d e Hwf) as Hwf'.
  pose proof (build_and_shuffle_spec R d e) as HB.
  destruct (build_and_shuffle d e) as [d' e'].
  destruct HB as (Hn' & _ & Hperm & _). cbn [fst] in *.
  split; [exact Hwf'|]. split; [congruence|].
  exists []. rewrite app_nil_r, Hn'. exact Hperm.
Qed.

Lemma new_deck_ok (e : Env R) : shoe_ok (fst (new_deck NUM_DECKS e)).
Proof.
  pose proof (new_deck_wf NUM_DECKS e ltac:(unfold NUM_DECKS; lia)) as Hwf.
  unfold new_deck in *.
  match goal with |- context [build_and_shuffle ?d0 e] =>
    pose proof (build_and_shuffle_spec R d0 e) as HB;
    destruct (build_and_shuffle d0 e) as [d' e'] end.
  destruct HB as (Hn' & _ & Hperm & _).
  cbn [fst num_decks] in *.
  split; [exact Hwf|]. split; [exact Hn'|].
  exists []. rewrite app_nil_r, Hn'. exact Hperm.
Qed.

Lemma deal_ok (d : Deck) (e : Env R) :
  shoe_ok d -> shoe_ok (snd (fst (deal d e))).
Proof.
  intros (Hwf & Hn & dealt & Hsound).
  destruct (deal_spec R d e Hwf) as (c & d' & e' & Hdeal & Hwf' & Hn' & Hcase).
  rewrite Hdeal. cbn [fst snd].
  split; [exact Hwf'|]. split; [congruence|].
  destruct (needs_reshuffle d).
  - destruct Hcase as (rebuilt & Hperm & _ & Hre & _).
    exists [c]. rewrite Hn', <- Hre. exact Hperm.
  - destruct Hcase as [Hcs _].
    exists (c :: dealt). rewrite Hn'.
    rewrite Hcs, <- app_assoc in Hsound. exact Hsound.
Qed.

End ReachableShoe.

(** X4.  The shoe of every reachable v1.1 session is what is left of a
    shuffled four-deck shoe: it has four decks and the reshuffle point 52,
    at most 208 cards, and at most four copies of any card. *)
Theorem X4_reachable_shoe (R : Shuffler) (s : BJC_v11.Session R) :
  BJC_v11.reachable s ->
  BJC_v11.num_decks (BJC_v11.deck s) = 4%nat /\
  BJC_v11.reshuffle_point (BJC_v11.deck s) = 52 /\
  (length (BJC_v11.cards (BJC_v11.deck s)) <= 208)%nat /\
  forall c : Card,
    (count_occ card_eq_dec (BJC_v11.cards (BJC_v11.deck s)) c <= 4)%nat.
Proof.
  intros Hr.
  destruct (reachable_keeps shoe_ok new_deck_ok build_and_shuffle_ok deal_ok
                            s Hr) as ((_ & Hp) & Hn & dealt & Hsound).
  unfold BJC_v11.NUM_DECKS in Hn. rewrite Hn in Hp, Hsound.
  rewrite reshuffle_point_value in Hp.
  split; [exact Hn|]. split; [exact Hp|]. split.
  - pose proof (Permutation_length Hsound) as Hlen.
    rewrite length_app, fresh_cards_length in Hlen. lia.
  - intros c.
    pose proof (proj1 (Permutation_count_occ card_eq_dec _ _) Hsound c) as Hc.
    rewrite count_occ_app, fresh_cards_count in Hc. lia.
Qed.

(** ** The cards of a round of the top-level script *)

Section TableInvariant.

Context {R : Shuffler}.

Import BJC.

Lemma play_table_inv (s : Session R) :
  table_inv s -> game_phase s = start -> table_inv (play s).
Proof.
  intros Hinv Hph. unfold table_inv in Hinv. rewrite Hph in Hinv.
  unfold play.
  pose proof (shuffle_perm R (rand s) one_deck) as HP.
  destruct (shuffle R (rand s) one_deck) as [d g]. cbn [fst] in HP.
  unfold table_inv. cbn [game_phase deck player_hand dealer_hand].
  split; [exact HP | exact Hinv].
Qed.

Lemma place_bet_table_inv (b : Q) (s s' : Session R) (f : Feedback) :
  table_inv s -> game_phase s = betting ->
  place_bet b s = Some (s', f) -> table_inv s'.
Proof.
  intros Hinv Hph. unfold place_bet.
  destruct (negb (Qle_bool b (player_money s))); [now intros [= <- <-]|].
  unfold table_inv in Hinv. rewrite Hph in Hinv. destruct Hinv as (HP & _).
  destruct (pop (deck s)) as [[c1 d1]|] eqn:H1; [|discriminate].
  destruct (pop d1) as [[c2 d2]|] eqn:H2; [|discriminate].
  destruct (pop d2) as [[c3 d3]|] eqn:H3; [|discriminate].
  destruct (pop d3) as [[c4 d4]|] eqn:H4; [|discriminate].
  intros [= <- <-].
  apply pop_some in H1, H2, H3, H4. subst d1 d2 d3.
  unfold table_inv. cbn [game_phase deck player_hand dealer_hand].
  rewrite H1 in HP. rewrite <- !app_assoc in HP.
  eapply perm_trans; [|exact HP].
  apply Permutation_app_head. cbn [app].
  apply (Permutation_rev [c1; c2; c3; c4]).
Qed.

Lemma hit_table_inv (s s' : Session R) :
  table_inv s -> game_phase s = player_turn ->
  hit s = Some s' -> table_inv s'.
Proof.
  intros Hinv Hph. unfold table_inv in Hinv. rewrite Hph in Hinv.
  unfold hit. destruct (pop (deck s)) as [[c d]|] eqn:Hpop; [|discriminate].
  intros [= <-]. apply pop_some in Hpop.
  assert (HP : Permutation (d ++ (player_hand s ++ [c]) ++ dealer_hand s)
                           one_deck).
  { rewrite Hpop, <- !app_assoc in Hinv. rewrite <- !app_assoc.
    eapply perm_trans; [|exact Hinv].
    apply Permutation_app_head.
    rewrite !app_assoc. apply Permutation_app_tail.
    apply Permutation_app_comm. }
  unfold table_inv. cbn [game_phase deck player_hand dealer_hand].
  destruct (21 <? calculate_hand_value (player_hand s ++ [c]));
    [|rewrite Hph]; exact HP.
Qed.

Lemma dealer_loop_table (fuel : nat) :
  forall h d h' d' : list Card,
    dealer_loop fuel h d = Returned (h', d') ->
    exists drawn : list Card, h' = h ++ drawn /\ d = d' ++ rev drawn.
Proof.
  induction fuel as [|fuel IH]; intros h d h' d';
    cbn [dealer_loop]; destruct (calculate_hand_value h <? 17);
    try discriminate.
  - intros [= <- <-]. exists []. now rewrite !app_nil_r.
  - destruct (pop d) as [[c d1]|] eqn:Hpop; [|discriminate].
    intros Hloop. destruct (IH _ _ _ _ Hloop) as (drawn & -> & ->).
    apply pop_some in Hpop. subst d. exists (c :: drawn).
    cbn [rev]. now rewrite <- !app_assoc.
  - intros [= <- <-]. exists []. now rewrite !app_nil_r.
Qed.

Lemma dealer_turn_table_inv (fuel : nat) (s s' : Session R) :
  table_inv s -> game_phase s = dealer_turn ->
  dealer_turn_phase fuel s = Returned s' -> table_inv s'.
Proof.
  intros Hinv Hph. unfold table_inv in Hinv. rewrite Hph in Hinv.
  unfold dealer_turn_phase.
  destruct (dealer_loop fuel (dealer_hand s) (deck s)) as [[dh d]| |] eqn:Hloop;
    try discriminate.
  intros [= <-].
  destruct (dealer_loop_table _ _ _ _ _ Hloop) as (drawn & -> & Hd).
  unfold table_inv. cbn [game_phase deck player_hand dealer_hand].
  rewrite Hd, <- !app_assoc in Hinv.
  eapply perm_trans; [|exact Hinv].
  apply Permutation_app_head.
  rewrite (app_assoc (player_hand s)).
  eapply perm_trans; [apply Permutation_app_comm|].
  apply Permutation_app_tail, Permutation_rev.
Qed.

Lemma result_phase_table_inv (again : bool) (s : Session R) :
  table_inv s -> game_phase s = result -> table_inv (result_phase again s).
Proof.
  intros Hinv Hph. unfold table_inv in Hinv. rewrite Hph in Hinv.
  unfold result_phase.
  destruct (determine_winner s) as [[m pm] dm].
  destruct (Qle_bool pm 0 || Qle_bool dm 0 || negb again).
  - unfold table_inv. cbn [game_phase deck player_hand dealer_hand].
    now rewrite Hph.
  - pose proof (shuffle_perm R (rand s) one_deck) as HP.
    destruct (shuffle R (rand s) one_deck) as [d g]. cbn [fst] in HP.
    unfold table_inv. cbn [game_phase deck player_hand dealer_hand].
    split_all; [exact HP | reflexivity | reflexivity].
Qed.

Lemma reachable_table_inv (s : Session R) : reachable s -> table_inv s.
Proof.
  induction 1 as [g | s s' Hreach IH Hstep].
  - split; reflexivity.
  - destruct Hstep as [s | s | s Hph | s b s' f Hph Hbet | s s' Hph Hhit
                       | s Hph | s fuel s' Hph Hdt | s again Hph].
    + split; reflexivity.
    + exact I.
    + now apply play_table_inv.
    + eapply place_bet_table_inv; eassumption.
    + eapply hit_table_inv; eassumption.
    + unfold table_inv in IH |- *. rewrite Hph in IH. exact IH.
    + eapply dealer_turn_table_inv; eassumption.
    + now apply result_phase_table_inv.
Qed.

End TableInvariant.

Lemma NoDup_app_disjoint (l1 l2 : list Card) (c : Card) :
  NoDup (l1 ++ l2) -> In c l2 -> ~ In c l1.
Proof.
  induction l1 as [|x l1 IH]; intros Hnd Hin2 Hin1; [exact Hin1|].
  cbn [app] in Hnd. inversion Hnd as [|? ? Hx Hnd']; subst.
  destruct Hin1 as [->|Hin1].
  - apply Hx, in_or_app. now right.
  - exact (IH Hnd' Hin2 Hin1).
Qed.

(** X5.  In every reachable session of the top-level script that is in a
    round ([player_turn], [dealer_turn] or [result]), the deck, the
    player's hand and the dealer's hand together are a permutation of the
    52-card deck: no card is lost or dealt twice, the cards on the table
    are pairwise distinct, and none of them is still in the deck. *)
Theorem X5_round_uses_each_card_once (R : Shuffler) (s : BJC.Session R) :
  BJC.reachable s ->
  BJC.game_phase s = BJC.player_turn \/
  BJC.game_phase s = BJC.dealer_turn \/
  BJC.game_phase s = BJC.result ->
  Permutation (BJC.deck s ++ BJC.player_hand s ++ BJC.dealer_hand s)
              one_deck /\
  NoDup (BJC.player_hand s ++ BJC.dealer_hand s) /\
  (forall c : Card,
      In c (BJC.player_hand s ++ BJC.dealer_hand s) -> ~ In c (BJC.deck s)).
Proof.
  intros Hr Hph. apply reachable_table_inv in Hr. unfold table_inv in Hr.
  assert (HP : Permutation
                 (BJC.deck s ++ BJC.player_hand s ++ BJC.dealer_hand s)
                 one_deck)
    by (destruct Hph as [E|[E|E]]; rewrite E in Hr; exact Hr).
  pose proof (Permutation_NoDup (Permutation_sym HP) one_deck_NoDup) as Hnd.
  split; [exact HP|]. split.
  - now apply NoDup_app_remove_l in Hnd.
  - intros c Hin. exact (NoDup_app_disjoint _ _ c Hnd Hin).
Qed.

(** ** What holds while the player acts *)

(** X6.  In every reachable v1.1 session in which the player may act
    ([PLAYER_TURN]), neither hand is a blackjack, the player is not bust,
    the dealer holds two cards, none of the four flags is set and the round
    is not over.  So a blackjack is never played on, and when double down
    is on offer the player's two cards are worth at most 20. *)
Theorem X6_player_acts_without_blackjack (R : Shuffler)
        (s : BJC_v11.Session R) :
  BJC_v11.reachable s ->
  BJC_v11.game_state s = BJC_v11.PLAYER_TURN ->
  is_blackjack (BJC_v11.player_hand s) = false /\
  is_blackjack (BJC_v11.dealer_hand s) = false /\
  BJC_v11.calculate_hand_value (BJC_v11.player_hand s) <= 21 /\
  (2 <= length (BJC_v11.player_hand s))%nat /\
  length (BJC_v11.dealer_hand s) = 2%nat /\
  BJC_v11.player_busted s = false /\
  BJC_v11.dealer_busted s = false /\
  BJC_v11.player_blackjack s = false /\
  BJC_v11.dealer_blackjack s = false /\
  BJC_v11.round_over s = false /\
  (BJC_v11.can_double_down s = true ->
   BJC_v11.calculate_hand_value (BJC_v11.player_hand s) <= 20).
Proof.
  intros Hr Hst. apply reachable_inv in Hr. destruct Hr as [_ Hinv].
  rewrite Hst in Hinv.
  destruct Hinv
    as (Hro & Hpb & Hdb & Hpj & Hdj & Hlen & Hval & Hnbj & Hdl & Hdv).
  split_all; try assumption.
  - now apply is_blackjack_value.
  - intros Hcan. unfold BJC_v11.can_double_down in Hcan.
    apply andb_true_iff in Hcan. destruct Hcan as [Hcan _].
    unfold is_blackjack in Hnbj. rewrite Hcan in Hnbj. cbn [andb] in Hnbj.
    apply Z.eqb_neq in Hnbj. lia.
Qed.

(** ** Balances and bets of a reachable session *)

Section MoneyInvariant.

Context {R : Shuffler}.

Import BJC_v11.

Lemma Qle_bool_false (x y : Q) : Qle_bool x y = false -> (y < x)%Q.
Proof.
  intros H. apply Qnot_le_lt. intros Hle.
  apply Qle_bool_iff in Hle. congruence.
Qed.

Lemma initialize_game_money (g : rng R) : money_inv (initialize_game g).
Proof.
  unfold initialize_game. destruct (new_deck NUM_DECKS _) as [d e]. exact I.
Qed.

Lemma step_money_inv (s s' : Session R) :
  session_inv s -> money_inv s -> step s s' -> money_inv s'.
Proof.
  intros [_ Hsess] Hmon Hstep. unfold money_inv in Hmon.
  destruct Hstep as [s Hst | s click Hst | s Hst | s Hst | s s' Hst Hdd
                     | s fuel s' Hst Hdt | s Hst Hro | s Hst Hro | s Hst];
    try rewrite Hst in Hmon; try rewrite Hst in Hsess.
  - unfold play_home. destruct (new_deck NUM_DECKS (env s)) as [d e].
    unfold money_inv. cbn [game_state player_money dealer_money].
    split; reflexivity.
  - destruct Hmon as [Hp Hd]. unfold display_betting_screen. cbv zeta.
    destruct (Qle_bool (player_money s) 0) eqn:E.
    + apply Qle_bool_iff in E. lra.
    + destruct (negb (Qle_bool (1 # 100) (player_money s)));
        [unfold money_inv; cbn [fst]; rewrite Hst; split; assumption|].
      destruct click as [b|]; cbn [fst];
        [|unfold money_inv; rewrite Hst; split; assumption].
      unfold place_bet.
      destruct (Qle_bool (1 # 100) b) eqn:E1;
        destruct (Qle_bool b (player_money s)) eqn:E2; cbn [andb fst];
        try (unfold money_inv; rewrite Hst; split; assumption).
      apply Qle_bool_iff in E1, E2.
      destruct (reshuffle_before_deal s) as [d0 e0].
      destruct (deal_initial d0 e0) as [[[ph dh] d] e].
      unfold money_inv.
      cbn [fst game_state bet player_money dealer_money round_over].
      destruct (_ || _); split; try assumption; lra.
  - destruct Hmon as [Hb Hp].
    destruct Hsess as (Hro & _).
    unfold hit. destruct (deal (deck s) (env s)) as [[c d] e].
    unfold money_inv.
    cbn [game_state bet player_money dealer_money round_over].
    destruct (21 <? _).
    + rewrite Hro. split; [assumption | lra].
    + rewrite Hst. split; assumption.
  - destruct Hmon as [Hb Hp].
    unfold stand, set_game_state, money_inv.
    cbn [game_state bet player_money dealer_money round_over].
    split; [assumption | lra].
  - destruct Hmon as [Hb Hp]. destruct Hsess as (Hro & _).
    unfold double_down in Hdd. destruct (can_double_down s); [|discriminate].
    destruct (deal (deck s) (env s)) as [[c d] e].
    injection Hdd as <-. unfold money_inv.
    cbn [game_state bet player_money dealer_money round_over].
    destruct (21 <? _); [rewrite Hro|]; split; lra.
  - destruct Hmon as [Hb Hp]. destruct Hsess as (Hro & _).
    unfold process_dealer_turn in Hdt. destruct (negb (player_busted s)).
    + destruct (dealer_loop fuel (dealer_hand s) (deck s) (env s))
        as [[[dh d] e]|]; [|discriminate].
      injection Hdt as <-. unfold money_inv.
      cbn [game_state bet player_money dealer_money round_over].
      rewrite Hro. split; assumption.
    + injection Hdt as <-. unfold money_inv.
      cbn [game_state bet player_money dealer_money round_over].
      rewrite Hro. split; assumption.
  - unfold process_showdown.
    destruct (determine_outcome s) as [[m pm] dm].
    unfold money_inv.
    cbn [game_state bet player_money dealer_money round_over].
    destruct (Qle_bool pm 0) eqn:E1.
    + left. now apply Qle_bool_iff.
    + destruct (Qle_bool dm 0) eqn:E2.
      * right. now apply Qle_bool_iff.
      * rewrite Hst. split; now apply Qle_bool_false.
  - destruct Hst as [Hst|Hst]; rewrite Hst in Hmon, Hsess.
    + destruct Hsess as (Hro' & _). congruence.
    + rewrite Hro in Hmon. unfold play_again, set_game_state, money_inv.
      cbn [game_state bet player_money dealer_money round_over].
      exact Hmon.
  - apply initialize_game_money.
Qed.

Lemma reachable_money_inv (s : Session R) : reachable s -> money_inv s.
Proof.
  induction 1 as [g | s s' Hreach IH Hstep].
  - apply initialize_game_money.
  - eapply step_money_inv; try eassumption. now apply reachable_inv.
Qed.

End MoneyInvariant.

(** X7.  Balances and bet of a reachable v1.1 session.  On the betting
    screen both balances are positive, so the empty-bankroll guard at its
    top never fires: with a balance of at least 0.01 the screen hands the
    amount of a click to the bet handler, and with a positive balance below
    0.01 the number input raises on every run and the session stays as it
    is.  While the player acts the bet is at least 0.01 and at most the
    player's balance; until the round is settled the player's balance is
    not negative.  And the game is over only when a balance is zero or
    negative. *)
Theorem X7_balances_of_reachable_sessions (R : Shuffler)
        (s : BJC_v11.Session R) :
  BJC_v11.reachable s ->
  (BJC_v11.game_state s = BJC_v11.BETTING ->
   (0 < BJC_v11.player_money s)%Q /\ (0 < BJC_v11.dealer_money s)%Q /\
   ((1 # 100 <= BJC_v11.player_money s)%Q ->
    forall bet_amount : Q,
      BJC_v11.display_betting_screen (Some bet_amount) s
      = BJC_v11.place_bet bet_amount s) /\
   ((BJC_v11.player_money s < 1 # 100)%Q ->
    forall click : option Q,
      BJC_v11.display_betting_screen click s
      = (s, BJC_v11.NumberInputException))) /\
  (BJC_v11.game_state s = BJC_v11.PLAYER_TURN ->
   (1 # 100 <= BJC_v11.bet s)%Q /\
   (BJC_v11.bet s <= BJC_v11.player_money s)%Q) /\
  (BJC_v11.game_state s = BJC_v11.DEALER_TURN \/
   BJC_v11.game_state s = BJC_v11.SHOWDOWN /\ BJC_v11.round_over s = false ->
   (1 # 100 <= BJC_v11.bet s)%Q /\ (0 <= BJC_v11.player_money s)%Q) /\
  (BJC_v11.game_state s = BJC_v11.GAME_OVER ->
   (BJC_v11.player_money s <= 0)%Q \/ (BJC_v11.dealer_money s <= 0)%Q).
Proof.
  intros Hr. apply reachable_money_inv in Hr. unfold money_inv in Hr.
  split_all; intros Hst.
  - rewrite Hst in Hr. destruct Hr as [Hp Hd].
    assert (E : Qle_bool (BJC_v11.player_money s) 0 = false).
    { destruct (Qle_bool (BJC_v11.player_money s) 0) eqn:E; [|reflexivity].
      apply Qle_bool_iff in E. lra. }
    split_all; try assumption.
    + intros Hmin b. unfold BJC_v11.display_betting_screen. cbv zeta.
      rewrite E. apply Qle_bool_iff in Hmin. rewrite Hmin. reflexivity.
    + intros Hlow click. unfold BJC_v11.display_betting_screen. cbv zeta.
      rewrite E.
      destruct (Qle_bool (1 # 100) (BJC_v11.player_money s)) eqn:E1;
        [|reflexivity].
      apply Qle_bool_iff in E1. lra.
  - now rewrite Hst in Hr.
  - destruct Hst as [Hst|[Hst Hro]]; rewrite Hst in Hr; [exact Hr|].
    now rewrite Hro in Hr.
  - now rewrite Hst in Hr.
Qed.

(** ** The default bet *)

(** X13.  The default of the bet input is 10 when the balance is at least
    10 and the whole balance when it is between 0.01 and 10; in both cases
    the bet handler accepts it. *)
Theorem X13_default_bet_is_accepted (R : Shuffler) (s : BJC_v11.Session R) :
  (1 # 100 <= BJC_v11.player_money s)%Q ->
  ((10 <= BJC_v11.player_money s)%Q ->
   (BJC_v11.default_bet (BJC_v11.player_money s) == 10)%Q) /\
  ((BJC_v11.player_money s < 10)%Q ->
   (BJC_v11.default_bet (BJC_v11.player_money s)
    == BJC_v11.player_money s)%Q) /\
  snd (BJC_v11.place_bet (BJC_v11.default_bet (BJC_v11.player_money s)) s)
  = BJC_v11.Accepted.
Proof.
  intros Hmin.
  assert (Hdef : ((1 # 100 <= BJC_v11.default_bet (BJC_v11.player_money s))
                  /\ (BJC_v11.default_bet (BJC_v11.player_money s)
                      <= BJC_v11.player_money s))%Q).
  { unfold BJC_v11.default_bet.
    destruct (Qle_bool 10 (BJC_v11.player_money s)) eqn:E.
    - apply Qle_bool_iff in E. rewrite (Q.min_l _ _ E). split; lra.
    - rewrite (Q.max_r _ _ Hmin). split; lra. }
  split_all.
  - intros H. unfold BJC_v11.default_bet.
    apply Qle_bool_iff in H. rewrite H. apply Qle_bool_iff in H.
    now apply Q.min_l.
  - intros H. unfold BJC_v11.default_bet.
    destruct (Qle_bool 10 (BJC_v11.player_money s)) eqn:E.
    + apply Qle_bool_iff in E. lra.
    + now apply Q.max_r.
  - destruct Hdef as [H1 H2]. unfold BJC_v11.place_bet.
    apply Qle_bool_iff in H1, H2. rewrite H1, H2. cbn [andb].
    destruct (BJC_v11.reshuffle_before_deal s) as [d0 e0].
    destruct (BJC_v11.deal_initial d0 e0) as [[[ph dh] d] e]. reflexivity.
Qed.

(** ** Doubling down and the settlement that follows *)

Lemma process_dealer_turn_keeps_money (R : Shuffler) (fuel : nat)
      (s s' : BJC_v11.Session R) :
  BJC_v11.process_dealer_turn fuel s = Some s' ->
  BJC_v11.bet s' = BJC_v11.bet s /\
  BJC_v11.player_money s' = BJC_v11.player_money s /\
  BJC_v11.dealer_money s' = BJC_v11.dealer_money s /\
  BJC_v11.round_over s' = BJC_v11.round_over s /\
  BJC_v11.player_hand s' = BJC_v11.player_hand s.
Proof.
  unfold BJC_v11.process_dealer_turn.
  destruct (negb (BJC_v11.player_busted s)).
  - destruct (BJC_v11.dealer_loop fuel _ _ _) as [[[dh d] e]|];
      [|discriminate].
    intros [= <-]. split_all; reflexivity.
  - intros [= <-]. split_all; reflexivity.
Qed.

(** What a settlement does to the bet and the balances, by the message it
    writes: one update of each balance, by the bet or by [bet * 1.5]. *)
Lemma process_showdown_updates (R : Shuffler) (s : BJC_v11.Session R) :
  let s' := BJC_v11.process_showdown s in
  match BJC_v11.message s' with
  | BJC_v11.YouBusted | BJC_v11.YouLose | BJC_v11.DealerBlackjackYouLose =>
      BJC_v11.player_money s' = (BJC_v11.player_money s - BJC_v11.bet s)%Q /\
      BJC_v11.dealer_money s' = (BJC_v11.dealer_money s + BJC_v11.bet s)%Q
  | BJC_v11.DealerBusts | BJC_v11.YouWin =>
      BJC_v11.player_money s' = (BJC_v11.player_money s + BJC_v11.bet s)%Q /\
      BJC_v11.dealer_money s' = (BJC_v11.dealer_money s - BJC_v11.bet s)%Q
  | BJC_v11.BlackjackYouWin =>
      BJC_v11.player_money s'
      = (BJC_v11.player_money s + BJC_v11.bet s * (3 # 2))%Q /\
      BJC_v11.dealer_money s'
      = (BJC_v11.dealer_money s - BJC_v11.bet s * (3 # 2))%Q
  | BJC_v11.PushTie | BJC_v11.PushBothBlackjack =>
      BJC_v11.player_money s' = BJC_v11.player_money s /\
      BJC_v11.dealer_money s' = BJC_v11.dealer_money s
  | BJC_v11.NoMessage => False
  end.
Proof.
  cbv zeta.
  destruct (process_showdown_fields R s) as (-> & -> & -> & _).
  unfold BJC_v11.determine_outcome.
  destruct (BJC_v11.player_busted s); [cbn [fst snd]; split; reflexivity|].
  destruct (BJC_v11.dealer_busted s); [cbn [fst snd]; split; reflexivity|].
  destruct (BJC_v11.player_blackjack s);
    destruct (BJC_v11.dealer_blackjack s);
    try (cbn [fst snd]; split; reflexivity).
  destruct (_ <? _); [cbn [fst snd]; split; reflexivity|].
  destruct (_ <? _); cbn [fst snd]; split; reflexivity.
Qed.

(** X8.  How double down and the settlement compose.  Double down takes
    the bet from the player's balance and doubles the bet, and leaves the
    dealer's balance; the dealer's turn, if there is one, changes none of
    the three; the settlement that follows (at once after a bust, or after
    the dealer's turn) then moves the doubled bet: a loss leaves the player
    [(player_money - bet) - bet * 2] and the dealer
    [dealer_money + bet * 2], a win leaves the player
    [(player_money - bet) + bet * 2] and the dealer
    [dealer_money - bet * 2], and a push leaves the player
    [player_money - bet] and the dealer's balance as it was: the bet taken
    at the double is not given back. *)
Theorem X8_double_down_settlement (R : Shuffler)
        (s s1 s2 : BJC_v11.Session R) :
  BJC_v11.double_down s = Some s1 ->
  s2 = s1 \/
  (exists fuel : nat, BJC_v11.process_dealer_turn fuel s1 = Some s2) ->
  let s3 := BJC_v11.process_showdown s2 in
  (BJC_v11.bet s1 = (BJC_v11.bet s * 2)%Q /\
   BJC_v11.player_money s1 = (BJC_v11.player_money s - BJC_v11.bet s)%Q /\
   BJC_v11.dealer_money s1 = BJC_v11.dealer_money s) /\
  (BJC_v11.bet s2 = BJC_v11.bet s1 /\
   BJC_v11.player_money s2 = BJC_v11.player_money s1 /\
   BJC_v11.dealer_money s2 = BJC_v11.dealer_money s1) /\
  BJC_v11.bet s3 = BJC_v11.bet s1 /\
  match BJC_v11.message s3 with
  | BJC_v11.YouBusted | BJC_v11.YouLose | BJC_v11.DealerBlackjackYouLose =>
      BJC_v11.player_money s3
      = (BJC_v11.player_money s - BJC_v11.bet s - BJC_v11.bet s * 2)%Q /\
      BJC_v11.dealer_money s3
      = (BJC_v11.dealer_money s + BJC_v11.bet s * 2)%Q
  | BJC_v11.DealerBusts | BJC_v11.YouWin =>
      BJC_v11.player_money s3
      = (BJC_v11.player_money s - BJC_v11.bet s + BJC_v11.bet s * 2)%Q /\
      BJC_v11.dealer_money s3
      = (BJC_v11.dealer_money s - BJC_v11.bet s * 2)%Q
  | BJC_v11.BlackjackYouWin =>
      BJC_v11.player_money s3
      = (BJC_v11.player_money s - BJC_v11.bet s
         + BJC_v11.bet s * 2 * (3 # 2))%Q /\
      BJC_v11.dealer_money s3
      = (BJC_v11.dealer_money s - BJC_v11.bet s * 2 * (3 # 2))%Q
  | BJC_v11.PushTie | BJC_v11.PushBothBlackjack =>
      BJC_v11.player_money s3
      = (BJC_v11.player_money s - BJC_v11.bet s)%Q /\
      BJC_v11.dealer_money s3 = BJC_v11.dealer_money s
  | BJC_v11.NoMessage => False
  end.
Proof.
  intros Hdd Hs2. cbv zeta.
  assert (H1 : BJC_v11.bet s1 = (BJC_v11.bet s * 2)%Q /\
               BJC_v11.player_money s1
               = (BJC_v11.player_money s - BJC_v11.bet s)%Q /\
               BJC_v11.dealer_money s1 = BJC_v11.dealer_money s).
  { unfold BJC_v11.double_down in Hdd.
    destruct (BJC_v11.can_double_down s); [|discriminate].
    destruct (BJC_v11.deal _ _) as [[c d] e]. injection Hdd as <-.
    split_all; reflexivity. }
  assert (H2 : BJC_v11.bet s2 = BJC_v11.bet s1 /\
               BJC_v11.player_money s2 = BJC_v11.player_money s1 /\
               BJC_v11.dealer_money s2 = BJC_v11.dealer_money s1).
  { destruct Hs2 as [->|[fuel Hdt]].
    - split_all; reflexivity.
    - destruct (process_dealer_turn_keeps_money R fuel s1 s2 Hdt)
        as (Hb & Hp & Hd & _).
      split_all; assumption. }
  split; [exact H1|]. split; [exact H2|].
  destruct H1 as (Hb1 & Hp1 & Hd1). destruct H2 as (Hb2 & Hp2 & Hd2).
  split.
  { destruct (process_showdown_fields R s2) as (_ & _ & _ & _ & _ & _ & ->).
    exact Hb2. }
  pose proof (process_showdown_updates R s2) as Hm. cbv zeta in Hm.
  rewrite Hb2, Hp2, Hd2, Hb1, Hp1, Hd1 in Hm.
  exact Hm.
Qed.

(** ** Where the balances change *)

(** X10.  A step of the v1.1 session leaves both balances as they are
    unless it is the settlement of a round that is not over yet (which
    marks the round as over), a double down (which takes the bet from the
    player and leaves the dealer's balance), or "Play Game" or "Start New
    Game" (which set the balances to 500 and 5,000,000).  Betting, hit,
    stand and the dealer's turn never move money, and from a settled
    showdown the only step is "Play Next Hand", so that no round is settled
    twice. *)
Theorem X10_balances_change_only_at_settlement (R : Shuffler)
        (s s' : BJC_v11.Session R) :
  BJC_v11.step s s' ->
  ((BJC_v11.player_money s' = BJC_v11.player_money s /\
    BJC_v11.dealer_money s' = BJC_v11.dealer_money s) \/
   (BJC_v11.game_state s = BJC_v11.SHOWDOWN /\
    BJC_v11.round_over s = false /\
    s' = BJC_v11.process_showdown s /\
    BJC_v11.round_over s' = true) \/
   (BJC_v11.game_state s = BJC_v11.PLAYER_TURN /\
    BJC_v11.double_down s = Some s' /\
    (BJC_v11.player_money s'
     == BJC_v11.player_money s - BJC_v11.bet s)%Q /\
    BJC_v11.dealer_money s' = BJC_v11.dealer_money s) \/
   ((BJC_v11.game_state s = BJC_v11.HOME \/
     BJC_v11.game_state s = BJC_v11.GAME_OVER) /\
    BJC_v11.player_money s' = 500%Q /\
    BJC_v11.dealer_money s' = 5000000%Q)) /\
  (BJC_v11.game_state s = BJC_v11.SHOWDOWN ->
   BJC_v11.round_over s = true ->
   s' = BJC_v11.play_again s).
Proof.
  intros Hstep.
  destruct Hstep as [s Hst | s click Hst | s Hst | s Hst | s s' Hst Hdd
                     | s fuel s' Hst Hdt | s Hst Hro | s Hst Hro | s Hst].
  - split; [|congruence]. right. right. right.
    split; [now left|]. unfold BJC_v11.play_home.
    destruct (BJC_v11.new_deck _ _) as [d e]. split; reflexivity.
  - split; [|congruence]. left. unfold BJC_v11.display_betting_screen.
    cbv zeta.
    destruct (Qle_bool (BJC_v11.player_money s) 0); [split; reflexivity|].
    destruct (negb (Qle_bool (1 # 100) (BJC_v11.player_money s)));
      [split; reflexivity|].
    destruct click as [b|]; [|split; reflexivity].
    unfold BJC_v11.place_bet.
    destruct (_ && _); [|split; reflexivity].
    destruct (BJC_v11.reshuffle_before_deal s) as [d0 e0].
    destruct (BJC_v11.deal_initial d0 e0) as [[[ph dh] d] e].
    split; reflexivity.
  - split; [|congruence]. left. unfold BJC_v11.hit.
    destruct (BJC_v11.deal _ _) as [[c d] e]. split; reflexivity.
  - split; [|congruence]. left. split; reflexivity.
  - split; [|congruence]. right. right. left.
    split; [exact Hst|]. split; [exact Hdd|].
    unfold BJC_v11.double_down in Hdd.
    destruct (BJC_v11.can_double_down s); [|discriminate].
    destruct (BJC_v11.deal _ _) as [[c d] e]. injection Hdd as <-.
    split; reflexivity.
  - split; [|congruence]. left.
    destruct (process_dealer_turn_keeps_money R fuel s s' Hdt)
      as (_ & Hp & Hd & _).
    split; assumption.
  - split; [|congruence]. right. left.
    split; [exact Hst|]. split; [exact Hro|]. split; [reflexivity|].
    apply process_showdown_fields.
  - split; [|reflexivity]. left. split; reflexivity.
  - split; [|congruence]. right. right. right.
    split; [now right|]. unfold BJC_v11.new_game, BJC_v11.initialize_game.
    destruct (BJC_v11.new_deck _ _) as [d e]. split; reflexivity.
Qed.

(** ** The result phase of the top-level script *)

(** What one run of the result phase does to the balances, by the outcome
    of the hands: one update of each balance, by the bet. *)
Lemma result_phase_updates (R : Shuffler) (again : bool) (s : BJC.Session R) :
  let s' := BJC.result_phase again s in
  match resolve_plain (BJC.player_hand s) (BJC.dealer_hand s) with
  | PlayerBust | DealerWin =>
      BJC.player_money s' = (BJC.player_money s - BJC.bet s)%Q /\
      BJC.dealer_money s' = (BJC.dealer_money s + BJC.bet s)%Q
  | DealerBust | PlayerWin =>
      BJC.player_money s' = (BJC.player_money s + BJC.bet s)%Q /\
      BJC.dealer_money s' = (BJC.dealer_money s - BJC.bet s)%Q
  | _ =>
      BJC.player_money s' = BJC.player_money s /\
      BJC.dealer_money s' = BJC.dealer_money s
  end.
Proof.
  cbv zeta.
  destruct (result_phase_fields R again s) as (_ & -> & ->).
  unfold BJC.determine_winner, resolve_plain.
  destruct (21 <? BJC.calculate_hand_value (BJC.player_hand s));
    [cbn [fst snd]; split; reflexivity|].
  destruct (21 <? BJC.calculate_hand_value (BJC.dealer_hand s));
    [cbn [fst snd]; split; reflexivity|].
  destruct (BJC.calculate_hand_value (BJC.dealer_hand s)
            <? BJC.calculate_hand_value (BJC.player_hand s));
    [cbn [fst snd]; split; reflexivity|].
  destruct (BJC.calculate_hand_value (BJC.player_hand s)
            <? BJC.calculate_hand_value (BJC.dealer_hand s));
    cbn [fst snd]; split; reflexivity.
Qed.

(** X9.  The result phase of the top-level script settles the round on
    every run of the script in that phase.  A run that is not started by
    "Play Again" leaves the phase, the hands and the bet as they are, so
    the next run - the one that handles "Play Again" included - finds the
    same outcome, writes the same message and updates the balances once
    more: the first run adds the bet to one balance and subtracts it from
    the other, and the second run does the same to the balances the first
    run left. *)
Theorem X9_result_phase_settles_on_every_run (R : Shuffler)
        (s : BJC.Session R) (play_again : bool) :
  BJC.game_phase s = BJC.result ->
  let o := resolve_plain (BJC.player_hand s) (BJC.dealer_hand s) in
  let s1 := BJC.result_phase false s in
  let s2 := BJC.result_phase play_again s1 in
  BJC.step s s1 /\ BJC.step s1 s2 /\
  BJC.game_phase s1 = BJC.result /\
  BJC.player_hand s1 = BJC.player_hand s /\
  BJC.dealer_hand s1 = BJC.dealer_hand s /\
  BJC.bet s1 = BJC.bet s /\
  BJC.message s1 = message_plain o /\
  BJC.message s2 = message_plain o /\
  match o with
  | PlayerBust | DealerWin =>
      BJC.player_money s1 = (BJC.player_money s - BJC.bet s)%Q /\
      BJC.dealer_money s1 = (BJC.dealer_money s + BJC.bet s)%Q /\
      BJC.player_money s2 = (BJC.player_money s1 - BJC.bet s)%Q /\
      BJC.dealer_money s2 = (BJC.dealer_money s1 + BJC.bet s)%Q
  | DealerBust | PlayerWin =>
      BJC.player_money s1 = (BJC.player_money s + BJC.bet s)%Q /\
      BJC.dealer_money s1 = (BJC.dealer_money s - BJC.bet s)%Q /\
      BJC.player_money s2 = (BJC.player_money s1 + BJC.bet s)%Q /\
      BJC.dealer_money s2 = (BJC.dealer_money s1 - BJC.bet s)%Q
  | _ =>
      BJC.player_money s1 = BJC.player_money s /\
      BJC.dealer_money s1 = BJC.dealer_money s /\
      BJC.player_money s2 = BJC.player_money s1 /\
      BJC.dealer_money s2 = BJC.dealer_money s1
  end.
Proof.
  intros Hph. cbv zeta.
  assert (Hs1 : BJC.game_phase (BJC.result_phase false s) = BJC.result /\
                BJC.player_hand (BJC.result_phase false s)
                = BJC.player_hand s /\
                BJC.dealer_hand (BJC.result_phase false s)
                = BJC.dealer_hand s /\
                BJC.bet (BJC.result_phase false s) = BJC.bet s).
  { unfold BJC.result_phase.
    destruct (BJC.determine_winner s) as [[m pm] dm].
    cbn [negb]. rewrite orb_true_r.
    split_all; try reflexivity. exact Hph. }
  destruct Hs1 as (Hph1 & Hp1 & Hd1 & Hb1).
  split; [now apply BJC.step_result|].
  split; [now apply BJC.step_result|].
  do 4 (split; [assumption|]).
  split.
  { destruct (result_phase_fields R false s) as (-> & _).
    apply determine_winner_spec. }
  split.
  { destruct (result_phase_fields R play_again (BJC.result_phase false s))
      as (-> & _).
    destruct (determine_winner_spec R (BJC.result_phase false s)) as (-> & _).
    now rewrite Hp1, Hd1. }
  pose proof (result_phase_updates R false s) as U1.
  pose proof (result_phase_updates R play_again (BJC.result_phase false s))
    as U2.
  cbv zeta in U1, U2. rewrite Hp1, Hd1, Hb1 in U2.
  destruct (resolve_plain (BJC.player_hand s) (BJC.dealer_hand s));
    destruct U1 as [U1p U1d]; destruct U2 as [U2p U2d];
    split_all; assumption.
Qed.

(** ** How far one card can take a hand *)

Lemma base_value_bounds (c : Card) :
  (is_ace (rank c) = true /\ base_value c = 11) \/
  (is_ace (rank c) = false /\ 2 <= base_value c <= 10).
Proof. destruct c as [s r]; destruct r; cbn; (left + right); lia. Qed.

(** One more card: the value goes up by at most 10 unless the result is
    at most 21, and it goes down by at most 9. *)
Lemma value_snoc_bounds (h : list Card) (c : Card) :
  BJC.calculate_hand_value (h ++ [c])
  <= Z.max 21 (BJC.calculate_hand_value h + 10) /\
  BJC.calculate_hand_value h - 9 <= BJC.calculate_hand_value (h ++ [c]).
Proof.
  rewrite !calculate_hand_value_eq, base_total_app, ace_count_app.
  change (base_total [c]) with (base_value c + 0).
  rewrite (ace_count_cons c []). change (ace_count []) with 0%nat.
  destruct (soften_spec (ace_count h) (base_total h))
    as (k & Hk & Hv & Hstop & Hwhy).
  destruct (soften_spec
              (ace_count h + ((if is_ace (rank c) then 1 else 0) + 0))
              (base_total h + (base_value c + 0)))
    as (k' & Hk' & Hv' & Hstop' & Hwhy').
  rewrite Hv, Hv' in *.
  destruct (base_value_bounds c) as [[Ha Hb]|[Ha Hb]]; rewrite Ha in *.
  - split.
    + destruct (Nat.eq_dec k' (ace_count h + (1 + 0))) as [E|E];
        [lia | specialize (Hstop' ltac:(lia)); lia].
    + destruct (Nat.eq_dec k' 0) as [E|E]; [lia|].
      specialize (Hwhy' (k' - 1)%nat ltac:(lia)).
      destruct (Nat.eq_dec k (ace_count h)) as [E'|E']; [lia|].
      specialize (Hstop ltac:(lia)). lia.
  - split.
    + destruct (Nat.eq_dec k' (ace_count h + (0 + 0))) as [E|E];
        [lia | specialize (Hstop' ltac:(lia)); lia].
    + destruct (Nat.eq_dec k' 0) as [E|E]; [lia|].
      specialize (Hwhy' (k' - 1)%nat ltac:(lia)).
      destruct (Nat.eq_dec k (ace_count h)) as [E'|E']; [lia|].
      specialize (Hstop ltac:(lia)). lia.
Qed.

Lemma firstn_snoc_last (drawn : list Card) :
  drawn <> [] ->
  exists (c : Card),
    drawn = firstn (length drawn - 1) drawn ++ [c].
Proof.
  intros Hne. destruct (exists_last Hne) as (l & c & ->).
  exists c. rewrite length_app. cbn [length].
  replace (length l + 1 - 1)%nat with (length l) by lia.
  rewrite firstn_app, firstn_all, Nat.sub_diag. cbn [firstn].
  now rewrite app_nil_r.
Qed.

(** The hand a drawing loop ends with, when every draw was made below 17:
    its value is at most 26, or the value the loop started with. *)
Lemma drawn_hand_upper (h drawn : list Card) :
  BJC.calculate_hand_value h <= 26 ->
  (forall n : nat,
      (n < length drawn)%nat ->
      BJC.calculate_hand_value (h ++ firstn n drawn) < 17) ->
  BJC.calculate_hand_value (h ++ drawn) <= 26.
Proof.
  intros Hh Hpre. destruct drawn as [|x drawn']; [now rewrite app_nil_r|].
  destruct (firstn_snoc_last (x :: drawn') ltac:(discriminate)) as (c & E).
  set (n := (length (x :: drawn') - 1)%nat) in *.
  specialize (Hpre n ltac:(subst n; cbn [length]; lia)).
  rewrite E, app_assoc.
  pose proof (value_snoc_bounds (h ++ firstn n (x :: drawn')) c). lia.
Qed.

(** X11.  Bounds on the totals.  One more card raises the value of a hand
    by at most 10 unless the new value is at most 21, and lowers it by at
    most 9.  Hence in a reachable v1.1 session the hand of a player who
    hits is worth at most 31 afterwards, and the dealer's turn, in v1.1 and
    in the top-level script, ends with a dealer hand worth between 17 and
    26. *)
Theorem X11_totals_are_bounded (R : Shuffler) :
  (forall (h : list Card) (c : Card),
      BJC.calculate_hand_value (h ++ [c])
      <= Z.max 21 (BJC.calculate_hand_value h + 10) /\
      BJC.calculate_hand_value h - 9
      <= BJC.calculate_hand_value (h ++ [c])) /\
  (forall s : BJC_v11.Session R,
      BJC_v11.reachable s ->
      BJC_v11.game_state s = BJC_v11.PLAYER_TURN ->
      BJC_v11.calculate_hand_value (BJC_v11.player_hand (BJC_v11.hit s))
      <= 31) /\
  (forall s : BJC_v11.Session R,
      BJC_v11.reachable s ->
      BJC_v11.game_state s = BJC_v11.DEALER_TURN ->
      exists s' : BJC_v11.Session R,
        (forall fuel : nat,
            (17 <= fuel)%nat ->
            BJC_v11.process_dealer_turn fuel s = Some s') /\
        17 <= BJC_v11.calculate_hand_value (BJC_v11.dealer_hand s') <= 26) /\
  (forall s : BJC.Session R,
      BJC.reachable s ->
      BJC.game_phase s = BJC.dealer_turn ->
      exists s' : BJC.Session R,
        (forall fuel : nat,
            (17 <= fuel)%nat ->
            BJC.dealer_turn_phase fuel s = BJC.Returned s') /\
        17 <= BJC.calculate_hand_value (BJC.dealer_hand s') <= 26).
Proof.
  split_all.
  - apply value_snoc_bounds.
  - intros s Hr Hst. apply reachable_inv in Hr. destruct Hr as [Hwf Hinv].
    rewrite Hst in Hinv. destruct Hinv as (_ & _ & _ & _ & _ & _ & Hval & _).
    unfold BJC_v11.hit.
    destruct (deal_spec R (BJC_v11.deck s) (BJC_v11.env s) Hwf)
      as (c & d & e & Hdeal & _).
    rewrite Hdeal. cbn [BJC_v11.add_card BJC_v11.player_hand].
    rewrite calculate_hand_value_agree in Hval |- *.
    pose proof (value_snoc_bounds (BJC_v11.player_hand s) c). lia.
  - intros s Hr Hst. apply reachable_inv in Hr. destruct Hr as [Hwf Hinv].
    rewrite Hst in Hinv.
    destruct Hinv as (_ & Hpb & _ & _ & _ & _ & Hdl).
    destruct (process_dealer_turn_plays R s Hwf Hpb)
      as (s' & drawn & Hrun & _ & Hh & _ & Hpre & _ & Hlow).
    exists s'. split; [exact Hrun|]. split; [exact Hlow|].
    rewrite Hh, calculate_hand_value_agree.
    apply drawn_hand_upper.
    + rewrite <- calculate_hand_value_agree.
      pose proof (two_cards_value _ Hdl). lia.
    + intros n Hn. specialize (Hpre n Hn).
      apply should_hit_iff in Hpre.
      now rewrite calculate_hand_value_agree in Hpre.
  - intros s Hr Hph.
    pose proof (reachable_round_inv s Hr) as Hinv.
    unfold round_inv in Hinv. rewrite Hph in Hinv.
    destruct Hinv as (_ & Hdl & _).
    destruct (dealer_turn_no_index_error s Hr Hph)
      as (s' & drawn & Hrun & _ & Hh & _ & _ & Hpre & Hlow).
    exists s'. split; [exact Hrun|]. split; [exact Hlow|].
    rewrite Hh. apply drawn_hand_upper; [|exact Hpre].
    pose proof (two_cards_value_plain _ Hdl). lia.
Qed.

(** ** The text of cards and hands *)

Section TextFacts.

Import String.
Local Open Scope string_scope.

Lemma append_empty_r (s : string) : s ++ "" = s.
Proof. induction s as [|a s IH]; cbn; [reflexivity | now rewrite IH]. Qed.

Lemma append_cancel_l (s t t' : string) : s ++ t = s ++ t' -> t = t'.
Proof.
  induction s as [|a s IH]; cbn; [trivial|]. intros [= H]. now apply IH.
Qed.

Lemma append_assoc (s t u : string) : (s ++ t) ++ u = s ++ t ++ u.
Proof. induction s as [|a s IH]; cbn; [reflexivity | now rewrite IH]. Qed.

(** No card string holds a comma: the part before the first comma of a
    card string followed by nothing, or by a comma and more, is the card
    string. *)
Lemma before_comma_card (c : Card) (t : string) :
  t = "" \/ (exists x : string, t = ", " ++ x) ->
  before_comma (BJC.card_to_str c ++ t) = BJC.card_to_str c.
Proof.
  intros [->|[x ->]]; destruct c as [s r]; destruct s, r; reflexivity.
Qed.

Lemma card_to_str_injective (c c' : Card) :
  BJC.card_to_str c = BJC.card_to_str c' -> c = c'.
Proof.
  destruct c as [s r], c' as [s' r']; destruct s, r, s', r';
    intros H; try reflexivity; discriminate H.
Qed.

Lemma hand_to_str_cons (c : Card) (h : list Card) :
  BJC.hand_to_str (c :: h) = BJC.card_to_str c ++ rest_of_hand h.
Proof.
  unfold BJC.hand_to_str. destruct h as [|c' h]; cbn [map concat rest_of_hand].
  - now rewrite append_empty_r.
  - reflexivity.
Qed.

Lemma rest_of_hand_shape (h : list Card) :
  rest_of_hand h = "" \/ (exists x : string, rest_of_hand h = ", " ++ x).
Proof. destruct h; [now left | right; eexists; reflexivity]. Qed.

Lemma hand_to_str_injective (h : list Card) :
  forall h' : list Card,
    BJC.hand_to_str h = BJC.hand_to_str h' -> h = h'.
Proof.
  induction h as [|c h IH]; intros [|c' h'] H.
  - reflexivity.
  - rewrite hand_to_str_cons in H.
    destruct c' as [s r]; destruct s, r; discriminate H.
  - rewrite hand_to_str_cons in H.
    destruct c as [s r]; destruct s, r; discriminate H.
  - rewrite !hand_to_str_cons in H.
    assert (Hc : c = c').
    { apply card_to_str_injective.
      rewrite <- (before_comma_card c _ (rest_of_hand_shape h)).
      rewrite <- (before_comma_card c' _ (rest_of_hand_shape h')).
      now rewrite H. }
    subst c'. apply append_cancel_l in H. f_equal.
    destruct h as [|x h], h' as [|x' h']; cbn [rest_of_hand] in H.
    + reflexivity.
    + discriminate H.
    + discriminate H.
    + apply IH. now apply (append_cancel_l ", ") in H.
Qed.

End TextFacts.

Section HandText.

Import String.
Local Open Scope string_scope.

(** X12.  The text of the top-level script determines what it shows.
    [hand_to_str] gives different strings for different hands (and
    [card_to_str] for different cards), the empty hand being the empty
    string; the dealer's hand with the hidden card fails exactly on an
    empty hand, and otherwise its text is the same for two hands exactly
    when their first cards are the same, so it tells nothing about the
    other cards. *)
Theorem X12_hand_text_determines_hand :
  (forall h h' : list Card,
      BJC.hand_to_str h = BJC.hand_to_str h' <-> h = h') /\
  (forall c c' : Card, BJC.card_to_str c = BJC.card_to_str c' <-> c = c') /\
  BJC.hand_to_str [] = EmptyString /\
  (forall h : list Card, BJC.hidden_dealer_hand h = None <-> h = []) /\
  (forall (c1 c2 : Card) (h1 h2 : list Card),
      BJC.hidden_dealer_hand (c1 :: h1) = BJC.hidden_dealer_hand (c2 :: h2)
      <-> c1 = c2).
Proof.
  split_all.
  - intros h h'. split; [apply hand_to_str_injective | now intros ->].
  - intros c c'. split; [apply card_to_str_injective | now intros ->].
  - reflexivity.
  - intros [|c h]; split; try reflexivity; discriminate.
  - intros c1 c2 h1 h2. cbn [BJC.hidden_dealer_hand].
    split; [|now intros ->].
    intros [= H]. apply card_to_str_injective.
    rewrite <- (before_comma_card c1 ", [Hidden]")
      by (right; eexists; reflexivity).
    rewrite <- (before_comma_card c2 ", [Hidden]")
      by (right; eexists; reflexivity).
    now rewrite H.
Qed.

End HandText.

(** ** The properties at work on the example sessions *)

Lemma full_shoe_wf : deck_wf full_shoe.
Proof. split; [vm_compute; lia | reflexivity]. Qed.

(** Three deals from the full shoe. *)
Lemma X2_shoe_serves_three_quarters_witness :
  deck_wf full_shoe /\
  length (BJC_v11.cards full_shoe) = (52 * BJC_v11.num_decks full_shoe)%nat /\
  (3 <= 39 * BJC_v11.num_decks full_shoe)%nat /\
  deal_many 3 full_shoe plain_env =
  (map Some
       (rev (skipn (52 * BJC_v11.num_decks full_shoe - 3)
                   (BJC_v11.cards full_shoe))),
   {| BJC_v11.num_decks := BJC_v11.num_decks full_shoe;
      BJC_v11.cards :=
        firstn (52 * BJC_v11.num_decks full_shoe - 3)
               (BJC_v11.cards full_shoe);
      BJC_v11.reshuffle_point := BJC_v11.reshuffle_point full_shoe |},
   plain_env) /\
  (BJC_v11.needs_reshuffle (snd (fst (deal_many 3 full_shoe plain_env)))
   = true <-> 3%nat = (39 * BJC_v11.num_decks full_shoe)%nat).
Proof.
  assert (Hlen : length (BJC_v11.cards full_shoe)
                 = (52 * BJC_v11.num_decks full_shoe)%nat) by reflexivity.
  assert (Hk : (3 <= 39 * BJC_v11.num_decks full_shoe)%nat)
    by (vm_compute; lia).
  split; [exact full_shoe_wf|]. split; [exact Hlen|]. split; [exact Hk|].
  exact (X2_shoe_serves_three_quarters identity_shuffler full_shoe plain_env
                                       full_shoe_wf Hlen 3%nat Hk).
Defined.

Lemma X4_reachable_shoe_witness :
  BJC_v11.reachable table_v11 /\
  BJC_v11.num_decks (BJC_v11.deck table_v11) = 4%nat /\
  BJC_v11.reshuffle_point (BJC_v11.deck table_v11) = 52 /\
  (length (BJC_v11.cards (BJC_v11.deck table_v11)) <= 208)%nat /\
  forall c : Card,
    (count_occ card_eq_dec (BJC_v11.cards (BJC_v11.deck table_v11)) c
     <= 4)%nat.
Proof.
  split; [exact table_v11_reachable|].
  exact (X4_reachable_shoe cutting_shuffler table_v11 table_v11_reachable).
Defined.

Lemma X5_round_uses_each_card_once_witness :
  BJC.reachable result_plain /\
  (BJC.game_phase result_plain = BJC.player_turn \/
   BJC.game_phase result_plain = BJC.dealer_turn \/
   BJC.game_phase result_plain = BJC.result) /\
  Permutation (BJC.deck result_plain ++ BJC.player_hand result_plain
               ++ BJC.dealer_hand result_plain) one_deck /\
  NoDup (BJC.player_hand result_plain ++ BJC.dealer_hand result_plain) /\
  (forall c : Card,
      In c (BJC.player_hand result_plain ++ BJC.dealer_hand result_plain) ->
      ~ In c (BJC.deck result_plain)).
Proof.
  assert (Hph : BJC.game_phase result_plain = BJC.player_turn \/
                BJC.game_phase result_plain = BJC.dealer_turn \/
                BJC.game_phase result_plain = BJC.result)
    by (right; right; reflexivity).
  split; [exact result_plain_reachable|]. split; [exact Hph|].
  exact (X5_round_uses_each_card_once identity_shuffler result_plain
                                      result_plain_reachable Hph).
Defined.

Lemma X6_player_acts_without_blackjack_witness :
  BJC_v11.reachable table_v11 /\
  BJC_v11.game_state table_v11 = BJC_v11.PLAYER_TURN /\
  is_blackjack (BJC_v11.player_hand table_v11) = false /\
  is_blackjack (BJC_v11.dealer_hand table_v11) = false /\
  BJC_v11.calculate_hand_value (BJC_v11.player_hand table_v11) <= 21 /\
  (2 <= length (BJC_v11.player_hand table_v11))%nat /\
  length (BJC_v11.dealer_hand table_v11) = 2%nat /\
  BJC_v11.player_busted table_v11 = false /\
  BJC_v11.dealer_busted table_v11 = false /\
  BJC_v11.player_blackjack table_v11 = false /\
  BJC_v11.dealer_blackjack table_v11 = false /\
  BJC_v11.round_over table_v11 = false /\
  (BJC_v11.can_double_down table_v11 = true ->
   BJC_v11.calculate_hand_value (BJC_v11.player_hand table_v11) <= 20).
Proof.
  split; [exact table_v11_reachable|]. split; [reflexivity|].
  exact (X6_player_acts_without_blackjack cutting_shuffler table_v11
                                          table_v11_reachable eq_refl).
Defined.

Lemma lobby_v11_reachable : BJC_v11.reachable lobby_v11.
Proof.
  apply (BJC_v11.reachable_step
           (BJC_v11.initialize_game (R := cutting_shuffler) 12%nat)).
  - apply BJC_v11.reachable_init.
  - apply BJC_v11.step_play_home. reflexivity.
Qed.

Lemma short_v11_reachable : BJC_v11.reachable short_v11.
Proof.
  apply (BJC_v11.reachable_step
           (BJC_v11.process_showdown
              (BJC_v11.hit (fst (BJC_v11.place_bet (99999 # 200) lobby_v11))))).
  - apply (BJC_v11.reachable_step
             (BJC_v11.hit (fst (BJC_v11.place_bet (99999 # 200) lobby_v11)))).
    + apply (BJC_v11.reachable_step
               (fst (BJC_v11.place_bet (99999 # 200) lobby_v11))).
      * apply (BJC_v11.reachable_step lobby_v11).
        -- exact lobby_v11_reachable.
        -- exact (BJC_v11.step_betting lobby_v11 (Some (99999 # 200)) eq_refl).
      * apply BJC_v11.step_hit. reflexivity.
    + apply BJC_v11.step_showdown; reflexivity.
  - apply BJC_v11.step_play_again; [right|]; reflexivity.
Qed.

(** With half a cent left the betting screen is reached, and every run of
    it ends in the exception of the number input. *)
Lemma X7_balances_of_reachable_sessions_witness :
  BJC_v11.reachable short_v11 /\
  BJC_v11.game_state short_v11 = BJC_v11.BETTING /\
  (BJC_v11.player_money short_v11 == 1 # 200)%Q /\
  forall click : option Q,
    BJC_v11.display_betting_screen click short_v11
    = (short_v11, BJC_v11.NumberInputException).
Proof.
  split; [exact short_v11_reachable|]. split; [reflexivity|].
  split; [reflexivity|].
  exact (proj2 (proj2 (proj2
           (proj1 (X7_balances_of_reachable_sessions
                     cutting_shuffler short_v11 short_v11_reachable)
                  eq_refl)))
           eq_refl).
Defined.

(** The double down of [table_v11] busts the player, and the settlement
    takes the doubled bet from what the double down left. *)
Lemma X8_double_down_settlement_witness :
  BJC_v11.double_down table_v11 = Some busted_v11 /\
  BJC_v11.message (BJC_v11.process_showdown busted_v11) = BJC_v11.YouBusted /\
  BJC_v11.player_money (BJC_v11.process_showdown busted_v11)
  = (BJC_v11.player_money table_v11 - BJC_v11.bet table_v11
     - BJC_v11.bet table_v11 * 2)%Q /\
  BJC_v11.dealer_money (BJC_v11.process_showdown busted_v11)
  = (BJC_v11.dealer_money table_v11 + BJC_v11.bet table_v11 * 2)%Q.
Proof.
  split; [reflexivity|]. split; [reflexivity|].
  exact (proj2 (proj2 (proj2
           (X8_double_down_settlement cutting_shuffler table_v11
              busted_v11 busted_v11 eq_refl (or_introl eq_refl))))).
Defined.

(** In [result_plain] the player wins; the run that handles "Play Again"
    pays the bet a second time. *)
Lemma X9_result_phase_settles_on_every_run_witness :
  BJC.game_phase result_plain = BJC.result /\
  resolve_plain (BJC.player_hand result_plain) (BJC.dealer_hand result_plain)
  = PlayerWin /\
  BJC.player_money (BJC.result_phase false result_plain)
  = (BJC.player_money result_plain + BJC.bet result_plain)%Q /\
  BJC.dealer_money (BJC.result_phase false result_plain)
  = (BJC.dealer_money result_plain - BJC.bet result_plain)%Q /\
  BJC.player_money
    (BJC.result_phase true (BJC.result_phase false result_plain))
  = (BJC.player_money (BJC.result_phase false result_plain)
     + BJC.bet result_plain)%Q /\
  BJC.dealer_money
    (BJC.result_phase true (BJC.result_phase false result_plain))
  = (BJC.dealer_money (BJC.result_phase false result_plain)
     - BJC.bet result_plain)%Q.
Proof.
  split; [reflexivity|]. split; [reflexivity|].
  exact (proj2 (proj2 (proj2 (proj2 (proj2 (proj2 (proj2 (proj2
           (X9_result_phase_settles_on_every_run identity_shuffler
              result_plain true eq_refl))))))))).
Defined.

Lemma lobby_to_table_v11 : BJC_v11.step lobby_v11 table_v11.
Proof. exact (BJC_v11.step_betting lobby_v11 (Some (10 : Q)) eq_refl). Qed.

Lemma X10_balances_change_only_at_settlement_witness :
  BJC_v11.step lobby_v11 table_v11 /\
  (BJC_v11.game_state lobby_v11 = BJC_v11.SHOWDOWN ->
   BJC_v11.round_over lobby_v11 = true ->
   table_v11 = BJC_v11.play_again lobby_v11).
Proof.
  split; [exact lobby_to_table_v11|].
  exact (proj2 (X10_balances_change_only_at_settlement
                  cutting_shuffler lobby_v11 table_v11 lobby_to_table_v11)).
Defined.

Lemma X13_default_bet_is_accepted_witness :
  (1 # 100 <= BJC_v11.player_money lobby_v11)%Q /\
  snd (BJC_v11.place_bet
         (BJC_v11.default_bet (BJC_v11.player_money lobby_v11)) lobby_v11)
  = BJC_v11.Accepted.
Proof.
  assert (H : (1 # 100 <= BJC_v11.player_money lobby_v11)%Q)
    by (vm_compute; discriminate).
  split; [exact H|].
  exact (proj2 (proj2 (X13_default_bet_is_accepted cutting_shuffler
                                                   lobby_v11 H))).
Defined.

(** ** Balances and bets of the top-level script *)

Section PurseInvariant.

Context {R : Shuffler}.

Import BJC.

Lemma step_purse_inv (s s' : Session R) :
  purse_inv s -> step s s' -> purse_inv s'.
Proof.
  intros Hinv Hstep. unfold purse_inv in Hinv.
  destruct Hstep as [s | s | s Hph | s b s' f Hph Hbet | s s' Hph Hhit
                     | s Hph | s fuel s' Hph Hdt | s again Hph];
    try rewrite Hph in Hinv.
  - split; reflexivity.
  - exact I.
  - destruct Hinv as [Hp Hd]. unfold play.
    destruct (shuffle R (rand s) one_deck) as [d g].
    unfold purse_inv. cbn [game_phase player_money dealer_money].
    rewrite Hp, Hd. split; reflexivity.
  - unfold place_bet in Hbet.
    destruct (Qle_bool b (player_money s)) eqn:E; cbn [negb] in Hbet.
    + destruct (pop (deck s)) as [[c1 d1]|]; [|discriminate].
      destruct (pop d1) as [[c2 d2]|]; [|discriminate].
      destruct (pop d2) as [[c3 d3]|]; [|discriminate].
      destruct (pop d3) as [[c4 d4]|]; [|discriminate].
      injection Hbet as <- <-. unfold purse_inv.
      cbn [game_phase player_money bet]. now apply Qle_bool_iff.
    + injection Hbet as <- <-. unfold purse_inv. now rewrite Hph.
  - unfold hit in Hhit. destruct (pop (deck s)) as [[c d]|]; [|discriminate].
    injection Hhit as <-. unfold purse_inv.
    cbn [game_phase player_money bet].
    destruct (21 <? _); [exact I|]. now rewrite Hph.
  - exact Hinv.
  - unfold dealer_turn_phase in Hdt.
    destruct (dealer_loop fuel _ _) as [[dh d]| |]; try discriminate.
    injection Hdt as <-. exact I.
  - unfold result_phase. destruct (determine_winner s) as [[m pm] dm].
    destruct (Qle_bool pm 0) eqn:E1; cbn [orb].
    + unfold purse_inv. cbn [game_phase]. now rewrite Hph.
    + destruct (Qle_bool dm 0) eqn:E2; cbn [orb].
      * unfold purse_inv. cbn [game_phase]. now rewrite Hph.
      * destruct again; cbn [negb].
        -- destruct (shuffle R (rand s) one_deck) as [d g].
           unfold purse_inv. cbn [game_phase player_money dealer_money].
           split; now apply Qle_bool_false.
        -- unfold purse_inv. cbn [game_phase]. now rewrite Hph.
Qed.

Lemma reachable_purse_inv (s : Session R) : reachable s -> purse_inv s.
Proof.
  induction 1 as [g | s s' Hreach IH Hstep].
  - split; reflexivity.
  - eapply step_purse_inv; eassumption.
Qed.

End PurseInvariant.

(** X14.  Balances and bet of a reachable session of the top-level script:
    a session waiting for "Play" has the starting balances 500 and
    5,000,000; a round is only opened, by "Play" or "Play Again", with both
    balances positive; and during the player's and the dealer's turn the
    bet is at most the player's balance. *)
Theorem X14_top_level_balances (R : Shuffler) (s : BJC.Session R) :
  BJC.reachable s ->
  (BJC.game_phase s = BJC.start ->
   BJC.player_money s = 500%Q /\ BJC.dealer_money s = 5000000%Q) /\
  (BJC.game_phase s = BJC.betting ->
   (0 < BJC.player_money s)%Q /\ (0 < BJC.dealer_money s)%Q) /\
  (BJC.game_phase s = BJC.player_turn \/ BJC.game_phase s = BJC.dealer_turn ->
   (BJC.bet s <= BJC.player_money s)%Q).
Proof.
  intros Hr. apply reachable_purse_inv in Hr. unfold purse_inv in Hr.
  split_all; intros Hph.
  - now rewrite Hph in Hr.
  - now rewrite Hph in Hr.
  - destruct Hph as [Hph|Hph]; now rewrite Hph in Hr.
Qed.

(** ** An accepted bet *)

(** X15.  What an accepted bet leaves in v1.1, on a well-formed shoe: both
    hands hold two cards, the bet is the amount entered, the balances are
    untouched, the two blackjack flags say exactly whether the hands are
    blackjacks, and the player's turn is skipped - the session goes
    straight to the dealer's turn - exactly when one of the hands is a
    blackjack. *)
Theorem X15_accepted_bet (R : Shuffler) (bet_amount : Q)
        (s : BJC_v11.Session R) :
  deck_wf (BJC_v11.deck s) ->
  snd (BJC_v11.place_bet bet_amount s) = BJC_v11.Accepted ->
  let s' := fst (BJC_v11.place_bet bet_amount s) in
  length (BJC_v11.player_hand s') = 2%nat /\
  length (BJC_v11.dealer_hand s') = 2%nat /\
  BJC_v11.bet s' = bet_amount /\
  BJC_v11.player_money s' = BJC_v11.player_money s /\
  BJC_v11.dealer_money s' = BJC_v11.dealer_money s /\
  BJC_v11.player_blackjack s' = is_blackjack (BJC_v11.player_hand s') /\
  BJC_v11.dealer_blackjack s' = is_blackjack (BJC_v11.dealer_hand s') /\
  (BJC_v11.game_state s' = BJC_v11.DEALER_TURN <->
   is_blackjack (BJC_v11.player_hand s') = true \/
   is_blackjack (BJC_v11.dealer_hand s') = true) /\
  (BJC_v11.game_state s' = BJC_v11.PLAYER_TURN <->
   is_blackjack (BJC_v11.player_hand s') = false /\
   is_blackjack (BJC_v11.dealer_hand s') = false).
Proof.
  intros Hwf. unfold BJC_v11.place_bet.
  destruct (Qle_bool (1 # 100) bet_amount
            && Qle_bool bet_amount (BJC_v11.player_money s)); [|discriminate].
  pose proof (reshuffle_before_deal_wf s Hwf) as Hwf0.
  destruct (BJC_v11.reshuffle_before_deal s) as [d0 e0]. cbn [fst] in Hwf0.
  destruct (deal_initial_spec d0 e0 Hwf0)
    as (c1 & d1 & e1 & c2 & d2 & e2 & c3 & d3 & e3 & c4 & d4 & e4
        & _ & _ & _ & _ & Hdi & _).
  rewrite Hdi. intros _. cbv zeta.
  cbn [fst BJC_v11.player_hand BJC_v11.dealer_hand BJC_v11.bet
       BJC_v11.player_money BJC_v11.dealer_money BJC_v11.player_blackjack
       BJC_v11.dealer_blackjack BJC_v11.game_state].
  unfold is_blackjack. cbn [length Nat.eqb andb].
  destruct (BJC_v11.calculate_hand_value [c1; c3] =? 21);
    destruct (BJC_v11.calculate_hand_value [c2; c4] =? 21); cbn [orb];
    split_all; try reflexivity;
    try (split; [intros _; auto | intros _; reflexivity]);
    try (split; [discriminate | intros [H|H]; discriminate H]);
    try (split; [discriminate | intros [H1 H2]; discriminate]).
Qed.

Lemma X15_accepted_bet_witness :
  deck_wf (BJC_v11.deck lobby_v11) /\
  snd (BJC_v11.place_bet 10 lobby_v11) = BJC_v11.Accepted /\
  length (BJC_v11.player_hand (fst (BJC_v11.place_bet 10 lobby_v11)))
  = 2%nat.
Proof.
  assert (Hwf : deck_wf (BJC_v11.deck lobby_v11))
    by (split; [vm_compute; lia | reflexivity]).
  split; [exact Hwf|]. split; [reflexivity|].
  exact (proj1 (X15_accepted_bet cutting_shuffler 10 lobby_v11 Hwf eq_refl)).
Defined.

(** ** The two variants side by side *)

(** X16.  The two variants settle a round alike unless a hand is a
    blackjack.  Take a v1.1 session whose flags agree with its hands and a
    top-level session with the same hands, bet and balances: if neither
    hand is a two-card 21, the settlement of v1.1 and a run of the result
    phase of the top-level script leave the same balances. *)
Theorem X16_variants_agree_without_blackjack (R : Shuffler)
        (s : BJC_v11.Session R) (t : BJC.Session R) (play_again : bool) :
  flags_agree s ->
  BJC.player_hand t = BJC_v11.player_hand s ->
  BJC.dealer_hand t = BJC_v11.dealer_hand s ->
  BJC.bet t = BJC_v11.bet s ->
  BJC.player_money t = BJC_v11.player_money s ->
  BJC.dealer_money t = BJC_v11.dealer_money s ->
  is_blackjack (BJC_v11.player_hand s) = false ->
  is_blackjack (BJC_v11.dealer_hand s) = false ->
  (BJC.player_money (BJC.result_phase play_again t)
   == BJC_v11.player_money (BJC_v11.process_showdown s))%Q /\
  (BJC.dealer_money (BJC.result_phase play_again t)
   == BJC_v11.dealer_money (BJC_v11.process_showdown s))%Q.
Proof.
  intros Hflags Hph Hdh Hb Hpm Hdm Hpj Hdj.
  assert (Ho : resolve_plain (BJC.player_hand t) (BJC.dealer_hand t)
               = resolve_spec (BJC_v11.player_hand s) (BJC_v11.dealer_hand s)).
  { unfold resolve_plain, resolve_spec, is_bust.
    rewrite Hph, Hdh, Hpj, Hdj, !calculate_hand_value_agree.
    cbn [andb]. reflexivity. }
  destruct (result_phase_fields R play_again t) as (_ & -> & ->).
  destruct (process_showdown_fields R s) as (_ & -> & -> & _).
  destruct (determine_winner_spec R t) as (_ & Hp1 & Hd1).
  destruct (determine_outcome_spec R s Hflags) as (_ & Hp2 & Hd2).
  rewrite Hp1, Hd1, Hp2, Hd2, Ho, Hb, Hpm, Hdm. split; reflexivity.
Qed.

Lemma X14_top_level_balances_witness :
  BJC.reachable seated_plain /\
  (BJC.game_phase seated_plain = BJC.player_turn \/
   BJC.game_phase seated_plain = BJC.dealer_turn ->
   (BJC.bet seated_plain <= BJC.player_money seated_plain)%Q).
Proof.
  split; [exact seated_plain_reachable|].
  exact (proj2 (proj2 (X14_top_level_balances identity_shuffler seated_plain
                                              seated_plain_reachable))).
Defined.

Lemma busted_v11_flags : flags_agree busted_v11.
Proof. unfold flags_agree. split_all; reflexivity. Qed.

Lemma X16_variants_agree_without_blackjack_witness :
  flags_agree busted_v11 /\
  is_blackjack (BJC_v11.player_hand busted_v11) = false /\
  is_blackjack (BJC_v11.dealer_hand busted_v11) = false /\
  (BJC.player_money (BJC.result_phase false mirror_plain)
   == BJC_v11.player_money (BJC_v11.process_showdown busted_v11))%Q /\
  (BJC.dealer_money (BJC.result_phase false mirror_plain)
   == BJC_v11.dealer_money (BJC_v11.process_showdown busted_v11))%Q.
Proof.
  split; [exact busted_v11_flags|]. split; [reflexivity|].
  split; [reflexivity|].
  exact (X16_variants_agree_without_blackjack
           cutting_shuffler busted_v11 mirror_plain false busted_v11_flags
           eq_refl eq_refl eq_refl eq_refl eq_refl eq_refl eq_refl).
Defined.
